(** * Offline-first synchronisation engine of eco-museum-ar

    A shallow embedding of [src/lib/localStorage.ts] (the storage layer
    [syncStorage], [contentStorage], [cacheStorage] and the [SyncManager]
    class that follows it in the same file), together with the two
    collaborators it calls: [storeActions] of the global store and
    [arContentUtils] of the Supabase client.

    Asynchronous functions are embedded in a state-and-exception monad over
    a [World]: every [await] is a sequencing point, a rejected promise is a
    [Throw], and a promise that is started without being awaited is run to
    completion where it is started. *)

From stdpp Require Import gmap strings list sorting pretty.
From Stdlib Require Import ZArith.

Open Scope string_scope.
Open Scope list_scope.
Open Scope Z_scope.

(** ** Data model *)

(** [sync_status?: 'pending' | 'synced' | 'failed'] *)
Inductive SyncState := pending | synced | failed.

(** [type: 'marker' | 'object' | 'text' | 'audio' | 'model'] *)
Inductive ContentType := marker | object | text | audio | model.

#[global] Instance SyncState_eq_dec : EqDecision SyncState.
Proof. solve_decision. Defined.

(** [interface ContentItem]. Timestamps are ISO strings in the source and
    are only ever compared through [new Date(..)]; they are kept as the
    millisecond value of that date. Coordinates are carried around
    unchanged by every function modelled here and are kept as integers;
    [data: any] is kept as its JSON text. *)
Record ContentItem := {
  id : string;
  user_id : string;
  title : string;
  description : option string;
  type : ContentType;
  position_lat : Z;
  position_lng : Z;
  position_alt : option Z;
  data : string;
  is_public : bool;
  created_at : Z;
  updated_at : Z;
  sync_status : option SyncState;
  local_id : option string;
}.

(** [{ ...c, sync_status: s }] *)
Definition with_sync_status (c : ContentItem) (s : SyncState) : ContentItem :=
  {| id := id c; user_id := user_id c; title := title c;
     description := description c; type := type c;
     position_lat := position_lat c; position_lng := position_lng c;
     position_alt := position_alt c; data := data c;
     is_public := is_public c; created_at := created_at c;
     updated_at := updated_at c; sync_status := Some s;
     local_id := local_id c |}.

(** [interface SyncStatus] *)
Record SyncStatus := {
  last_sync : option Z;
  pending_uploads : list string;
  pending_deletions : list string;
  is_online : bool;
}.

(** [Partial<SyncStatus>]: every field may be missing. *)
Record PartialSyncStatus := {
  p_last_sync : option (option Z);
  p_pending_uploads : option (list string);
  p_pending_deletions : option (list string);
  p_is_online : option bool;
}.

(** [{ ...current, ...status }] *)
Definition spread_status (current : SyncStatus) (status : PartialSyncStatus)
  : SyncStatus :=
  {| last_sync := default (last_sync current) (p_last_sync status);
     pending_uploads :=
       default (pending_uploads current) (p_pending_uploads status);
     pending_deletions :=
       default (pending_deletions current) (p_pending_deletions status);
     is_online := default (is_online current) (p_is_online status) |}.

(** A full [SyncStatus] passed where a [Partial<SyncStatus>] is expected. *)
Definition all_fields (s : SyncStatus) : PartialSyncStatus :=
  {| p_last_sync := Some (last_sync s);
     p_pending_uploads := Some (pending_uploads s);
     p_pending_deletions := Some (pending_deletions s);
     p_is_online := Some (is_online s) |}.

(** The object literal returned by [getSyncStatus] when nothing is stored. *)
Definition default_status : SyncStatus :=
  {| last_sync := None; pending_uploads := []; pending_deletions := [];
     is_online := true |}.

(** The [cacheData] object written by [saveContentCache]. *)
Record CacheData := {
  contents : list ContentItem;
  timestamp : Z;
  maxAge : Z;
}.

(** [interface SyncResult] *)
Record SyncResult := {
  success : bool;
  uploaded : Z;
  downloaded : Z;
  failed_count : Z;
  errors : list string;
}.

(** ** AsyncStorage

    The keys the engine uses are [CACHE_KEYS.SYNC_STATUS],
    [CACHE_KEYS.CONTENT_CACHE] and [`${CACHE_KEYS.USER_CONTENT}_${id}`].
    The three families are disjoint as strings and each holds the JSON of
    one type, so the store is kept as one typed slot per family; the
    [user_content_] family is a finite map from the id suffix of the key
    to the item stored under it. *)
Inductive Key :=
  | SYNC_STATUS
  | CONTENT_CACHE
  | USER_CONTENT (suffix : string).

Definition Value (k : Key) : Type :=
  match k with
  | SYNC_STATUS => SyncStatus
  | CONTENT_CACHE => CacheData
  | USER_CONTENT _ => ContentItem
  end.

#[projections(primitive)]
Record AsyncStorage := {
  sync_status_item : option SyncStatus;
  content_cache_item : option CacheData;
  user_content_items : gmap string ContentItem;
}.

Definition slot (s : AsyncStorage) (k : Key) : option (Value k) :=
  match k with
  | SYNC_STATUS => sync_status_item s
  | CONTENT_CACHE => content_cache_item s
  | USER_CONTENT i => user_content_items s !! i
  end.

Definition write_slot (s : AsyncStorage) (k : Key) : option (Value k) → AsyncStorage :=
  match k with
  | SYNC_STATUS => λ v,
      {| sync_status_item := v;
         content_cache_item := content_cache_item s;
         user_content_items := user_content_items s |}
  | CONTENT_CACHE => λ v,
      {| sync_status_item := sync_status_item s;
         content_cache_item := v;
         user_content_items := user_content_items s |}
  | USER_CONTENT i => λ v,
      {| sync_status_item := sync_status_item s;
         content_cache_item := content_cache_item s;
         user_content_items :=
           match v with
           | Some c => <[i := c]> (user_content_items s)
           | None => delete i (user_content_items s)
           end |}
  end.

(** The native calls of AsyncStorage; each of them may reject. *)
Inductive IO :=
  | GetItem (k : Key)
  | SetItem (k : Key)
  | RemoveItem (k : Key)
  | GetAllKeys.

(** ** The remote service ([arContentUtils]) *)

(** The argument object of [createARContent]. *)
Record ARContentInput := {
  in_title : string;
  in_description : option string;
  in_type : ContentType;
  in_position_lat : Z;
  in_position_lng : Z;
  in_position_alt : option Z;
  in_data : string;
  in_is_public : bool;
}.

(** What one call of [arContentUtils] does: the promise rejects (no
    authenticated user, transport failure), or resolves to
    [{ data, error }]. *)
Inductive Reply (A : Type) :=
  | Rejects (message : string)
  | Resolves (data : option A) (error : option string).
Arguments Rejects {A} message.
Arguments Resolves {A} data error.

Record Supabase := {
  createARContent_reply : ARContentInput → Reply ContentItem;
  getUserARContent_reply : Reply (list ContentItem);
  getNearbyPublicARContent_reply : Z → Z → Reply (list ContentItem);
  deleteARContent_reply : string → Reply unit;
}.

Inductive RemoteCall :=
  | CreateARContent (content : ARContentInput)
  | GetUserARContent
  | GetNearbyPublicARContent (lat lng : Z)
  | DeleteARContent (content_id : string).

(** ** The global store ([globalStore]): the fields the engine touches *)
Inductive ProfileSyncStatus := idle | syncing | offline.

Record Location := { latitude : Z; longitude : Z }.

Record GlobalState := {
  auth_user : option string;
  profile_syncStatus : ProfileSyncStatus;
  app_isOnline : bool;
  ar_currentLocation : option Location;
  ar_nearbyContent : list ContentItem;
  localContent_userContent : list ContentItem;
}.

(** ** The world an operation runs in *)
#[projections(primitive)]
Record World := {
  storage : AsyncStorage;
  (** [Some msg]: that native call rejects with [Error(msg)]. *)
  faults : IO → option string;
  supabase : Supabase;
  (** the calls made to the remote service so far, oldest first *)
  calls : list RemoteCall;
  (** [SyncManager.isOnline], [SyncManager.isSyncing] *)
  isOnline : bool;
  isSyncing : bool;
  globalStore : GlobalState;
  (** the [result] object of the running [syncContent]; there is at most
      one, since a second cycle is refused while [isSyncing] is set *)
  result : SyncResult;
  (** [Date.now()] and [Math.random().toString(36).substr(2, 9)] *)
  now : Z;
  random : string;
  (** lines written by [console.error] *)
  console : list string;
}.

Definition set_storage (f : AsyncStorage → AsyncStorage) (w : World) : World :=
  {| storage := f (storage w); faults := faults w; supabase := supabase w;
     calls := calls w; isOnline := isOnline w; isSyncing := isSyncing w;
     globalStore := globalStore w; result := result w; now := now w;
     random := random w; console := console w |}.

Definition set_calls (f : list RemoteCall → list RemoteCall) (w : World) : World :=
  {| storage := storage w; faults := faults w; supabase := supabase w;
     calls := f (calls w); isOnline := isOnline w; isSyncing := isSyncing w;
     globalStore := globalStore w; result := result w; now := now w;
     random := random w; console := console w |}.

Definition set_isOnline (b : bool) (w : World) : World :=
  {| storage := storage w; faults := faults w; supabase := supabase w;
     calls := calls w; isOnline := b; isSyncing := isSyncing w;
     globalStore := globalStore w; result := result w; now := now w;
     random := random w; console := console w |}.

Definition set_isSyncing (b : bool) (w : World) : World :=
  {| storage := storage w; faults := faults w; supabase := supabase w;
     calls := calls w; isOnline := isOnline w; isSyncing := b;
     globalStore := globalStore w; result := result w; now := now w;
     random := random w; console := console w |}.

Definition set_globalStore (f : GlobalState → GlobalState) (w : World) : World :=
  {| storage := storage w; faults := faults w; supabase := supabase w;
     calls := calls w; isOnline := isOnline w; isSyncing := isSyncing w;
     globalStore := f (globalStore w); result := result w; now := now w;
     random := random w; console := console w |}.

Definition set_result (f : SyncResult → SyncResult) (w : World) : World :=
  {| storage := storage w; faults := faults w; supabase := supabase w;
     calls := calls w; isOnline := isOnline w; isSyncing := isSyncing w;
     globalStore := globalStore w; result := f (result w); now := now w;
     random := random w; console := console w |}.

Definition set_console (f : list string → list string) (w : World) : World :=
  {| storage := storage w; faults := faults w; supabase := supabase w;
     calls := calls w; isOnline := isOnline w; isSyncing := isSyncing w;
     globalStore := globalStore w; result := result w; now := now w;
     random := random w; console := f (console w) |}.

(** ** The monad of asynchronous functions *)
Inductive Outcome (A : Type) :=
  | Return (a : A)
  | Throw (message : string).
Arguments Return {A} a.
Arguments Throw {A} message.

Definition M (A : Type) : Type := World → Outcome A * World.

Definition ret {A} (a : A) : M A := λ w, (Return a, w).

Definition throw {A} (message : string) : M A := λ w, (Throw message, w).

Definition bind {A B} (c : M A) (k : A → M B) : M B := λ w,
  match c w with
  | (Return a, w') => k a w'
  | (Throw e, w') => (Throw e, w')
  end.

(** [try { c } catch (error) { h error.message }] *)
Definition try_catch {A} (c : M A) (h : string → M A) : M A := λ w,
  match c w with
  | (Return a, w') => (Return a, w')
  | (Throw e, w') => h e w'
  end.

(** [try { c } finally { f }], for an [f] that does not throw *)
Definition try_finally {A} (c : M A) (f : World → World) : M A := λ w,
  let '(o, w') := c w in (o, f w').

Definition gets {A} (f : World → A) : M A := λ w, (Return (f w), w).

Definition modify (f : World → World) : M unit := λ w, (Return tt, f w).

Declare Scope async_scope.
Delimit Scope async_scope with async.
Notation "x <- c ;; k" := (bind c (λ x, k))
  (at level 100, c at next level, right associativity) : async_scope.
Notation "c ;; k" := (bind c (λ _, k))
  (at level 100, right associativity) : async_scope.
Open Scope async_scope.

(** [for (const x of l) { body x }] *)
Fixpoint for_of {A} (l : list A) (body : A → M unit) : M unit :=
  match l with
  | [] => ret tt
  | x :: l' => body x ;; for_of l' body
  end.

(** [console.error(prefix, error)] *)
Definition console_error (prefix message : string) : M unit :=
  modify (set_console (λ out, out ++ [prefix +:+ " " +:+ message])).

(** ** Native AsyncStorage calls *)
Definition native_read {A} (op : IO) (read : AsyncStorage → A) : M A := λ w,
  match faults w op with
  | Some e => (Throw e, w)
  | None => (Return (read (storage w)), w)
  end.

Definition native_write (op : IO) (write : AsyncStorage → AsyncStorage)
  : M unit := λ w,
  match faults w op with
  | Some e => (Throw e, w)
  | None => (Return tt, set_storage write w)
  end.

Definition getItem (k : Key) : M (option (Value k)) :=
  native_read (GetItem k) (λ s, slot s k).

Definition setItem (k : Key) (v : Value k) : M unit :=
  native_write (SetItem k) (λ s, write_slot s k (Some v)).

Definition removeItem (k : Key) : M unit :=
  native_write (RemoveItem k) (λ s, write_slot s k None).

(** The order in which AsyncStorage lists its keys is its own; the
    enumeration order of the finite map stands for it. *)
Definition all_keys (s : AsyncStorage) : list Key :=
  match sync_status_item s with Some _ => [SYNC_STATUS] | None => [] end ++
  match content_cache_item s with Some _ => [CONTENT_CACHE] | None => [] end ++
  (USER_CONTENT <$> (map_to_list (user_content_items s)).*1).

Definition getAllKeys : M (list Key) :=
  native_read GetAllKeys all_keys.

(** ** [syncStorage] *)
Module syncStorage.

Definition getSyncStatus : M SyncStatus :=
  try_catch
    (data <- getItem SYNC_STATUS ;;
     ret (match data with Some status => status | None => default_status end))
    (λ error,
       console_error "Failed to get sync status:" error ;;
       ret default_status).

Definition saveSyncStatus (status : PartialSyncStatus) : M unit :=
  try_catch
    (current <- getSyncStatus ;;
     setItem SYNC_STATUS (spread_status current status))
    (λ error, console_error "Failed to save sync status:" error).

Definition updateLastSync : M unit :=
  t <- gets (λ w, now w) ;;
  saveSyncStatus
    {| p_last_sync := Some (Some t); p_pending_uploads := None;
       p_pending_deletions := None; p_is_online := None |}.

(** [status.pending_uploads.push(contentId)] updates the object that is
    then passed to [saveSyncStatus]. *)
Definition addPendingUpload (contentId : string) : M unit :=
  status <- getSyncStatus ;;
  if bool_decide (contentId ∈ pending_uploads status) then ret tt
  else
    saveSyncStatus (all_fields
      {| last_sync := last_sync status;
         pending_uploads := pending_uploads status ++ [contentId];
         pending_deletions := pending_deletions status;
         is_online := is_online status |}).

Definition addPendingDeletion (contentId : string) : M unit :=
  status <- getSyncStatus ;;
  if bool_decide (contentId ∈ pending_deletions status) then ret tt
  else
    saveSyncStatus (all_fields
      {| last_sync := last_sync status;
         pending_uploads := pending_uploads status;
         pending_deletions := pending_deletions status ++ [contentId];
         is_online := is_online status |}).

Definition removeFromPending (contentId : string) : M unit :=
  status <- getSyncStatus ;;
  saveSyncStatus (all_fields
    {| last_sync := last_sync status;
       pending_uploads :=
         filter (λ i, i ≠ contentId) (pending_uploads status);
       pending_deletions :=
         filter (λ i, i ≠ contentId) (pending_deletions status);
       is_online := is_online status |}).

End syncStorage.

(** ** [contentStorage] *)
Module contentStorage.

Definition saveContent (content : ContentItem) : M unit :=
  try_catch
    (setItem (USER_CONTENT (id content)) content)
    (λ error,
       console_error "Failed to save content:" error ;;
       throw error).

Definition is_content_key (k : Key) : bool :=
  match k with USER_CONTENT _ => true | _ => false end.

(** The body of the loop over [contentKeys]; [acc] is the array
    [content] built so far. *)
Fixpoint read_each (contentKeys : list Key) (acc : list ContentItem)
  : M (list ContentItem) :=
  match contentKeys with
  | [] => ret acc
  | USER_CONTENT i :: rest =>
      data <- getItem (USER_CONTENT i) ;;
      read_each rest
        (match data with Some c => acc ++ [c] | None => acc end)
  | _ :: rest => read_each rest acc
  end.

(** The comparator [new Date(b.created_at) - new Date(a.created_at)]
    puts [a] before [b] when [a] is not older than [b]. *)
Definition newest_first (a b : ContentItem) : Prop :=
  created_at b ≤ created_at a.

#[global] Instance newest_first_dec a b : Decision (newest_first a b).
Proof. unfold newest_first. apply _. Defined.

Definition getAllContent : M (list ContentItem) :=
  try_catch
    (keys <- getAllKeys ;;
     content <- read_each (filter (λ k, is_content_key k = true) keys) [] ;;
     ret (merge_sort newest_first content))
    (λ error,
       console_error "Failed to get all content:" error ;;
       ret []).

Definition getContentById (i : string) : M (option ContentItem) :=
  try_catch
    (getItem (USER_CONTENT i))
    (λ error,
       console_error "Failed to get content by ID:" error ;;
       ret None).

Definition getPendingSyncContent : M (list ContentItem) :=
  allContent <- getAllContent ;;
  ret (filter (λ content, sync_status content = Some pending) allContent).

Definition updateSyncStatus (i : string) (status : SyncState) : M unit :=
  content <- getContentById i ;;
  match content with
  | Some content => saveContent (with_sync_status content status)
  | None => ret tt
  end.

Definition deleteContent (i : string) : M unit :=
  try_catch
    (removeItem (USER_CONTENT i))
    (λ error,
       console_error "Failed to delete content:" error ;;
       throw error).

End contentStorage.

(** ** [cacheStorage] *)
Module cacheStorage.

(** [24 * 60 * 60 * 100], the default of [maxAge] *)
Definition default_maxAge : Z := 24 * 60 * 60 * 100.

Definition saveContentCache (cs : list ContentItem) (max_age : Z) : M unit :=
  try_catch
    (t <- gets (λ w, now w) ;;
     setItem CONTENT_CACHE
       {| contents := cs; timestamp := t; maxAge := max_age |})
    (λ error,
       console_error "Failed to save content cache:" error ;;
       throw error).

Definition clearContentCache : M unit :=
  try_catch
    (removeItem CONTENT_CACHE)
    (λ error, console_error "Failed to clear content cache:" error).

Definition getContentCache : M (list ContentItem) :=
  try_catch
    (data <- getItem CONTENT_CACHE ;;
     match data with
     | None => ret []
     | Some cacheData =>
         t <- gets (λ w, now w) ;;
         if bool_decide (t - timestamp cacheData > maxAge cacheData)
         then clearContentCache ;; ret []
         else ret (contents cacheData)
     end)
    (λ error,
       console_error "Failed to get content cache:" error ;;
       ret []).

Definition isCacheValid : M bool :=
  cache <- getContentCache ;;
  ret (bool_decide (0 < Z.of_nat (length cache))).

End cacheStorage.

(** ** [storeActions]: the actions the engine dispatches *)
Module storeActions.

Definition setOnlineStatus (b : bool) : M unit :=
  modify (set_globalStore (λ g,
    {| auth_user := auth_user g; profile_syncStatus := profile_syncStatus g;
       app_isOnline := b; ar_currentLocation := ar_currentLocation g;
       ar_nearbyContent := ar_nearbyContent g;
       localContent_userContent := localContent_userContent g |})).

Definition setSyncStatus (status : ProfileSyncStatus) : M unit :=
  modify (set_globalStore (λ g,
    {| auth_user := auth_user g; profile_syncStatus := status;
       app_isOnline := app_isOnline g;
       ar_currentLocation := ar_currentLocation g;
       ar_nearbyContent := ar_nearbyContent g;
       localContent_userContent := localContent_userContent g |})).

Definition updateNearbyContent (content : list ContentItem) : M unit :=
  modify (set_globalStore (λ g,
    {| auth_user := auth_user g; profile_syncStatus := profile_syncStatus g;
       app_isOnline := app_isOnline g;
       ar_currentLocation := ar_currentLocation g;
       ar_nearbyContent := content;
       localContent_userContent := localContent_userContent g |})).

Definition set_userContent (f : list ContentItem → list ContentItem) : M unit :=
  modify (set_globalStore (λ g,
    {| auth_user := auth_user g; profile_syncStatus := profile_syncStatus g;
       app_isOnline := app_isOnline g;
       ar_currentLocation := ar_currentLocation g;
       ar_nearbyContent := ar_nearbyContent g;
       localContent_userContent := f (localContent_userContent g) |})).

Definition addLocalContent (content : ContentItem) : M unit :=
  set_userContent (λ l, l ++ [content]).

(** What [===] compares in the callback of [findIndex].  The store is a
    Legend-State observable: an array method of [userContent] hands its
    callback the child observable of each entry, and [item.id] is then an
    observable as well, an object, where [id] is a string. *)
Inductive JsValue :=
  | JsString (s : string)
  | JsObject (ref : nat).

(** [a === b]: strings by their characters, objects by reference. *)
Definition strict_equal (a b : JsValue) : bool :=
  match a, b with
  | JsString x, JsString y => bool_decide (x = y)
  | JsObject r, JsObject r' => bool_decide (r = r')
  | _, _ => false
  end.

(** [userContent.findIndex(item => item.id === id)], from [index] on; the
    observable of the field [id] of the entry at [index] is the object
    [JsObject index]. *)
Fixpoint findIndex (i : string) (userContent : list ContentItem) (index : nat)
  : Z :=
  match userContent with
  | [] => -1
  | _ :: rest =>
      if strict_equal (JsObject index) (JsString i) then Z.of_nat index
      else findIndex i rest (S index)
  end.

(** [userContent.splice(index, 1)] *)
Definition splice (index : Z) (userContent : list ContentItem)
  : list ContentItem :=
  take (Z.to_nat index) userContent ++ drop (S (Z.to_nat index)) userContent.

Definition removeLocalContent (i : string) : M unit :=
  userContent <- gets (λ w, localContent_userContent (globalStore w)) ;;
  if bool_decide (findIndex i userContent 0 >= 0)
  then set_userContent (splice (findIndex i userContent 0))
  else ret tt.

(** [downloadRemoteContent] calls [updateLocalContent(userContent)] with
    the downloaded array in the place of the [id] and no [updates]; no
    stored item has an [id] that is [===] to an array, so [findIndex]
    gives [-1] and the store is left as it is. *)
Definition updateLocalContent_with_array (userContent : list ContentItem)
  : M unit := ret tt.

End storeActions.

(** ** [arContentUtils]: calls to the remote service *)
Module arContentUtils.

Definition remote {A} (c : RemoteCall) (reply : Supabase → Reply A)
  : M (option A * option string) := λ w,
  let w' := set_calls (λ cs, cs ++ [c]) w in
  match reply (supabase w) with
  | Rejects e => (Throw e, w')
  | Resolves d e => (Return (d, e), w')
  end.

Definition createARContent (content : ARContentInput) :=
  remote (CreateARContent content) (λ s, createARContent_reply s content).

Definition getUserARContent :=
  remote GetUserARContent getUserARContent_reply.

Definition getNearbyPublicARContent (lat lng : Z) :=
  remote (GetNearbyPublicARContent lat lng)
         (λ s, getNearbyPublicARContent_reply s lat lng).

Definition deleteARContent (i : string) :=
  remote (DeleteARContent i) (λ s, deleteARContent_reply s i).

End arContentUtils.

(** ** [class SyncManager] *)
Module SyncManager.
Import syncStorage contentStorage cacheStorage.

(** The object literal passed to [createARContent] for a local item. *)
Definition upload_fields (content : ContentItem) : ARContentInput :=
  {| in_title := title content; in_description := description content;
     in_type := type content; in_position_lat := position_lat content;
     in_position_lng := position_lng content;
     in_position_alt := position_alt content; in_data := data content;
     in_is_public := is_public content |}.

(** Updates of the [result] object of the running cycle. *)
Definition incr_uploaded : M unit :=
  modify (set_result (λ r,
    {| success := success r; uploaded := uploaded r + 1;
       downloaded := downloaded r; failed_count := failed_count r;
       errors := errors r |})).

Definition incr_failed : M unit :=
  modify (set_result (λ r,
    {| success := success r; uploaded := uploaded r;
       downloaded := downloaded r; failed_count := failed_count r + 1;
       errors := errors r |})).

Definition add_downloaded (n : Z) : M unit :=
  modify (set_result (λ r,
    {| success := success r; uploaded := uploaded r;
       downloaded := downloaded r + n; failed_count := failed_count r;
       errors := errors r |})).

Definition errors_push (e : string) : M unit :=
  modify (set_result (λ r,
    {| success := success r; uploaded := uploaded r;
       downloaded := downloaded r; failed_count := failed_count r;
       errors := errors r ++ [e] |})).

Definition set_success (f : SyncResult → bool) : M unit :=
  modify (set_result (λ r,
    {| success := f r; uploaded := uploaded r;
       downloaded := downloaded r; failed_count := failed_count r;
       errors := errors r |})).

(** One turn of the loop of [uploadPendingContent]. *)
Definition upload_one (content : ContentItem) : M unit :=
  try_catch
    (reply <- arContentUtils.createARContent (upload_fields content) ;;
     match reply.2 with Some e => throw e | None => ret tt end ;;
     updateSyncStatus (id content) synced ;;
     removeFromPending (id content) ;;
     incr_uploaded)
    (λ error,
       console_error ("Failed to upload content " +:+ id content +:+ ":") error ;;
       updateSyncStatus (id content) failed ;;
       incr_failed ;;
       errors_push ("Upload failed for " +:+ title content +:+ ": " +:+ error)).

Definition uploadPendingContent : M unit :=
  pendingContent <- getPendingSyncContent ;;
  for_of pendingContent upload_one.

(** [new Map(localContent.map(c => [c.id, c]))]: a later entry replaces
    an earlier one with the same key. *)
Definition new_Map (entries : list (string * ContentItem))
  : gmap string ContentItem :=
  foldl (λ m e, <[e.1 := e.2]> m) ∅ entries.

Definition merge_one (localContentMap : gmap string ContentItem)
    (remote : ContentItem) : M unit :=
  match localContentMap !! id remote with
  | Some loc =>
      if bool_decide (updated_at remote > updated_at loc)
      then saveContent (with_sync_status remote synced)
      else ret tt
  | None => saveContent (with_sync_status remote synced)
  end.

Definition mergeRemoteContent (remoteContent : list ContentItem) : M unit :=
  localContent <- getAllContent ;;
  for_of remoteContent
    (merge_one (new_Map ((λ c, (id c, c)) <$> localContent))).

Definition mergePublicContent (publicContent : list ContentItem) : M unit :=
  saveContentCache publicContent default_maxAge.

Definition downloadRemoteContent : M unit :=
  try_catch
    (reply <- arContentUtils.getUserARContent ;;
     match reply.2 with Some e => throw e | None => ret tt end ;;
     match reply.1 with
     | Some userContent =>
         mergeRemoteContent userContent ;;
         add_downloaded (Z.of_nat (length userContent)) ;;
         storeActions.updateLocalContent_with_array userContent
     | None => ret tt
     end ;;
     currentLocation <- gets (λ w, ar_currentLocation (globalStore w)) ;;
     match currentLocation with
     | Some loc =>
         nearby <-
           arContentUtils.getNearbyPublicARContent
             (latitude loc) (longitude loc) ;;
         match nearby.2, nearby.1 with
         | None, Some nearbyContent =>
             mergePublicContent nearbyContent ;;
             storeActions.updateNearbyContent nearbyContent
         | _, _ => ret tt
         end
     | None => ret tt
     end)
    (λ error, errors_push ("Download failed: " +:+ error)).

(** [{ success: false, uploaded: 0, downloaded: 0, failed: 0, errors: [..] }] *)
Definition rejected : SyncResult :=
  {| success := false; uploaded := 0; downloaded := 0; failed_count := 0;
     errors := ["Sync already in progress or offline"] |}.

Definition fresh_result : SyncResult :=
  {| success := true; uploaded := 0; downloaded := 0; failed_count := 0;
     errors := [] |}.

(** [error.message || 'Unknown sync error'] *)
Definition message_or_unknown (e : string) : string :=
  if bool_decide (e = "") then "Unknown sync error" else e.

(** The [finally] block of [syncContent]. *)
Definition leave_cycle (w : World) : World :=
  let w1 := set_isSyncing false w in
  (storeActions.setSyncStatus (if isOnline w1 then idle else offline) w1).2.

Definition syncContent : M SyncResult :=
  busy <- gets (λ w, isSyncing w) ;;
  online <- gets (λ w, isOnline w) ;;
  if busy || negb online then ret rejected
  else
    modify (set_isSyncing true) ;;
    storeActions.setSyncStatus syncing ;;
    modify (set_result (λ _, fresh_result)) ;;
    try_finally
      (try_catch
         (uploadPendingContent ;;
          downloadRemoteContent ;;
          updateLastSync ;;
          set_success (λ r, bool_decide (errors r = [])))
         (λ error,
            set_success (λ _, false) ;;
            errors_push (message_or_unknown error)))
      leave_cycle ;;
    gets (λ w, result w).

Definition triggerAutoSync : M unit :=
  settings <- getSyncStatus ;;
  if is_online settings then
    try_catch
      (syncContent ;; ret tt)
      (λ error, console_error "Auto-sync failed:" error)
  else ret tt.

(** The listener registered by [initNetworkListener]; [isConnected] is
    [state.isConnected], a boolean or [null]. *)
Definition networkListener (isConnected : option bool) : M unit :=
  wasOnline <- gets (λ w, isOnline w) ;;
  modify (set_isOnline (default false isConnected)) ;;
  online <- gets (λ w, isOnline w) ;;
  storeActions.setOnlineStatus online ;;
  if negb wasOnline && online then triggerAutoSync else ret tt.

(** The fields of a new item chosen by the caller of [createLocalContent]
    are those of [ARContentInput]. *)
Definition createLocalContent (content : ARContentInput) : M ContentItem :=
  user <- gets (λ w, auth_user (globalStore w)) ;;
  match user with
  | None => throw "User not authenticated"
  | Some uid =>
      t <- gets (λ w, now w) ;;
      r <- gets (λ w, random w) ;;
      let localContentId := "local_" +:+ pretty t +:+ "_" +:+ r in
      let newContent :=
        {| id := localContentId; user_id := uid;
           title := in_title content; description := in_description content;
           type := in_type content;
           position_lat := in_position_lat content;
           position_lng := in_position_lng content;
           position_alt := in_position_alt content;
           data := in_data content; is_public := in_is_public content;
           created_at := t; updated_at := t;
           sync_status := Some pending;
           local_id := Some localContentId |} in
      saveContent newContent ;;
      addPendingUpload localContentId ;;
      storeActions.addLocalContent newContent ;;
      online <- gets (λ w, isOnline w) ;;
      (if online then
         try_catch (syncContent ;; ret tt)
                   (λ error, console_error "Immediate sync failed:" error)
       else ret tt) ;;
      ret newContent
  end.

Definition deleteContent (contentId : string) : M unit :=
  addPendingDeletion contentId ;;
  updateSyncStatus contentId failed ;;
  storeActions.removeLocalContent contentId ;;
  online <- gets (λ w, isOnline w) ;;
  if online then
    try_catch
      (arContentUtils.deleteARContent contentId ;;
       removeFromPending contentId)
      (λ error, console_error "Immediate deletion sync failed:" error)
  else ret tt.

Definition getAllAvailableContent : M (list ContentItem) :=
  localContent <- getAllContent ;;
  user <- gets (λ w, auth_user (globalStore w)) ;;
  let userContent :=
    filter (λ c, Some (user_id c) = user ∨ sync_status c ≠ Some failed)
           localContent in
  cachedPublic <- getContentCache ;;
  ret (userContent ++ cachedPublic).

Definition manualSync : M SyncResult :=
  online <- gets (λ w, isOnline w) ;;
  if online then syncContent else throw "Cannot sync while offline".

Definition resetSyncState : M unit :=
  online <- gets (λ w, isOnline w) ;;
  saveSyncStatus
    {| p_last_sync := Some None; p_pending_uploads := Some [];
       p_pending_deletions := Some []; p_is_online := Some online |}.

End SyncManager.

(** ** [storageUtils] *)
Module storageUtils.
Import contentStorage.

(** [30 * 24 * 60 * 60 * 100], the default of [maxAge] *)
Definition default_maxAge : Z := 30 * 24 * 60 * 60 * 100.

(** The loop of [cleanupOldContent] over [allContent]; [removedCount] is
    the counter as it stands before the rest of the array. *)
Fixpoint cleanup_each (allContent : list ContentItem)
    (cutoffDate removedCount : Z) : M Z :=
  match allContent with
  | [] => ret removedCount
  | content :: rest =>
      if bool_decide (created_at content < cutoffDate) &&
         bool_decide (sync_status content = Some synced)
      then
        deleteContent (id content) ;;
        cleanup_each rest cutoffDate (removedCount + 1)
      else cleanup_each rest cutoffDate removedCount
  end.

Definition cleanupOldContent (max_age : Z) : M Z :=
  try_catch
    (allContent <- getAllContent ;;
     t <- gets (λ w, now w) ;;
     cleanup_each allContent (t - max_age) 0)
    (λ error,
       console_error "Failed to cleanup old content:" error ;;
       ret 0).

End storageUtils.

(** ** Vocabulary of the statements *)

(** No native AsyncStorage call rejects. *)
Definition reliable (w : World) : Prop := ∀ op, faults w op = None.

(** The [SyncStatus] a read of the store yields. *)
Definition stored_status (s : AsyncStorage) : SyncStatus :=
  default default_status (sync_status_item s).

(** The array a successful [getAllContent] yields. *)
Definition all_content (s : AsyncStorage) : list ContentItem :=
  merge_sort contentStorage.newest_first (map_to_list (user_content_items s)).*2.

(** The array a successful [getPendingSyncContent] yields. *)
Definition pending_items (s : AsyncStorage) : list ContentItem :=
  filter (λ c, sync_status c = Some pending) (all_content s).

(** Every item sits under the key made from its own [id], as
    [saveContent] writes it. *)
Definition keys_match (s : AsyncStorage) : bool :=
  bool_decide (map_Forall (λ k c, id c = k) (user_content_items s)).

(** The error of a push of [c], if the remote service answers with one. *)
Definition push_error (sb : Supabase) (c : ContentItem) : option string :=
  match createARContent_reply sb (SyncManager.upload_fields c) with
  | Rejects e => Some e
  | Resolves _ (Some e) => Some e
  | Resolves _ None => None
  end.

Definition push_fails (sb : Supabase) (c : ContentItem) : bool :=
  bool_decide (is_Some (push_error sb c)).

(** [updateSyncStatus i st], on the items of the store. *)
Definition mark (i : string) (st : SyncState) (m : gmap string ContentItem)
  : gmap string ContentItem :=
  match m !! i with
  | Some c => <[id c := with_sync_status c st]> m
  | None => m
  end.

(** [removeFromPending i], on the stored status. *)
Definition without (i : string) (st : SyncStatus) : SyncStatus :=
  {| last_sync := last_sync st;
     pending_uploads := filter (λ j, j ≠ i) (pending_uploads st);
     pending_deletions := filter (λ j, j ≠ i) (pending_deletions st);
     is_online := is_online st |}.

(** What one turn of the upload loop does to the [result] object. *)
Definition tally (sb : Supabase) (c : ContentItem) (r : SyncResult) : SyncResult :=
  match push_error sb c with
  | None =>
      {| success := success r; uploaded := uploaded r + 1;
         downloaded := downloaded r; failed_count := failed_count r;
         errors := errors r |}
  | Some e =>
      {| success := success r; uploaded := uploaded r;
         downloaded := downloaded r; failed_count := failed_count r + 1;
         errors := errors r ++
           ["Upload failed for " +:+ title c +:+ ": " +:+ e] |}
  end.

(** The status an item is left in by one turn of the upload loop. *)
Definition status_after_push (sb : Supabase) (c : ContentItem) : SyncState :=
  if push_fails sb c then failed else synced.

(** The line pushed onto [result.errors] for [c], if its push fails. *)
Definition upload_error_line (sb : Supabase) (c : ContentItem) : option string :=
  (λ e, "Upload failed for " +:+ title c +:+ ": " +:+ e) <$> push_error sb c.

(** Whether [merge_one] overwrites the local copy with [remote]. *)
Definition remote_wins (localContentMap : gmap string ContentItem)
    (remote : ContentItem) : bool :=
  match localContentMap !! id remote with
  | Some loc => bool_decide (updated_at remote > updated_at loc)
  | None => true
  end.

(** [w'] has the reachability flags of [w]. *)
Definition same_link (w w' : World) : Prop :=
  isOnline w' = isOnline w ∧
  app_isOnline (globalStore w') = app_isOnline (globalStore w).

(** [w'] has the faults of [w] and, if the read of [sync_status] answers,
    the stored [is_online] of [w]. *)
Definition same_record (w w' : World) : Prop :=
  faults w' = faults w ∧
  (faults w (GetItem SYNC_STATUS) = None →
   is_online (stored_status (storage w')) =
   is_online (stored_status (storage w))).

(** If the items of [w] sit under their own ids, so do those of [w']. *)
Definition keys_kept (w w' : World) : Prop :=
  keys_match (storage w) = true → keys_match (storage w') = true.

(** Every run of [c] leaves a world related by [R] to the one it found. *)
Definition keeps {A} (R : World → World → Prop) (c : M A) : Prop :=
  ∀ w, R w (c w).2.

(** [c] never rejects. *)
Definition returns {A} (c : M A) : Prop := ∀ w, ∃ a, (c w).1 = Return a.

Definition put_status (st : SyncStatus) : World → World :=
  set_storage (λ s, write_slot s SYNC_STATUS (Some st)).

Definition put_content (c : ContentItem) : World → World :=
  set_storage (λ s, write_slot s (USER_CONTENT (id c)) (Some c)).

(** The clock moves to [t]; nothing else changes. *)
Definition set_now (t : Z) (w : World) : World :=
  {| storage := storage w; faults := faults w; supabase := supabase w;
     calls := calls w; isOnline := isOnline w; isSyncing := isSyncing w;
     globalStore := globalStore w; result := result w; now := t;
     random := random w; console := console w |}.

(** [w'] has the faults, the clock, the remote service and the known
    location of [w]. *)
Definition same_env (w w' : World) : Prop :=
  faults w' = faults w ∧ now w' = now w ∧ supabase w' = supabase w ∧
  ar_currentLocation (globalStore w') = ar_currentLocation (globalStore w).

(** Every row of [w] is still a row of [w']. *)
Definition rows_kept (w w' : World) : Prop :=
  dom (user_content_items (storage w)) ⊆
  dom (user_content_items (storage w')).

(** [c'] has every field of [c] but, possibly, [sync_status]. *)
Definition same_but_status (c c' : ContentItem) : Prop :=
  id c' = id c ∧ user_id c' = user_id c ∧ title c' = title c ∧
  description c' = description c ∧ type c' = type c ∧
  position_lat c' = position_lat c ∧ position_lng c' = position_lng c ∧
  position_alt c' = position_alt c ∧ data c' = data c ∧
  is_public c' = is_public c ∧ created_at c' = created_at c ∧
  updated_at c' = updated_at c ∧ local_id c' = local_id c.

(** Neither pending set of the stored status lists an id twice. *)
Definition queues_nodup (s : AsyncStorage) : Prop :=
  NoDup (pending_uploads (stored_status s)) ∧
  NoDup (pending_deletions (stored_status s)).

Definition queues_kept (w w' : World) : Prop :=
  queues_nodup (storage w) → queues_nodup (storage w').

(** The items [cleanupOldContent] removes: synced and created before the
    cutoff. *)
Definition stale (cutoffDate : Z) (c : ContentItem) : Prop :=
  created_at c < cutoffDate ∧ sync_status c = Some synced.

(** ** Concrete stores, services and worlds *)
Module Examples.

Definition item (i owner : string) (t : Z) (st : option SyncState)
  : ContentItem :=
  {| id := i; user_id := owner; title := "Stone " +:+ i; description := None;
     type := marker; position_lat := 45; position_lng := 14;
     position_alt := None; data := "{}"; is_public := false;
     created_at := t; updated_at := t; sync_status := st;
     local_id := None |}.

Definition status (uploads deletions : list string) : SyncStatus :=
  {| last_sync := None; pending_uploads := uploads;
     pending_deletions := deletions; is_online := true |}.

Definition store (st : option SyncStatus) (cache : option CacheData)
    (items : list ContentItem) : AsyncStorage :=
  {| sync_status_item := st; content_cache_item := cache;
     user_content_items := list_to_map ((λ c, (id c, c)) <$> items) |}.

(** A service that stores every item it is sent, as row [remote-1]. *)
Definition accepting : Supabase :=
  {| createARContent_reply := λ _, Resolves (Some (item "remote-1" "u1" 5 None)) None;
     getUserARContent_reply := Resolves (Some []) None;
     getNearbyPublicARContent_reply := λ _ _, Resolves (Some []) None;
     deleteARContent_reply := λ _, Resolves None None |}.

(** The same service, refusing the item titled [Stone B]. *)
Definition refusing_B : Supabase :=
  {| createARContent_reply := λ c,
       if bool_decide (in_title c = "Stone B")
       then Resolves None (Some "row violates policy")
       else Resolves (Some (item "remote-1" "u1" 5 None)) None;
     getUserARContent_reply := Resolves (Some []) None;
     getNearbyPublicARContent_reply := λ _ _, Resolves (Some []) None;
     deleteARContent_reply := λ _, Resolves None None |}.

Definition signed_in (online : bool) : GlobalState :=
  {| auth_user := Some "u1"; profile_syncStatus := idle;
     app_isOnline := online; ar_currentLocation := None;
     ar_nearbyContent := []; localContent_userContent := [] |}.

Definition no_faults : IO → option string := λ _, None.

(** Every write is refused, reads succeed. *)
Definition disk_full : IO → option string := λ op,
  match op with
  | SetItem _ | RemoveItem _ => Some "disk full"
  | _ => None
  end.

Definition world (s : AsyncStorage) (f : IO → option string)
    (sb : Supabase) (online : bool) : World :=
  {| storage := s; faults := f; supabase := sb; calls := [];
     isOnline := online; isSyncing := false;
     globalStore := signed_in online;
     result := SyncManager.fresh_result; now := 100; random := "k3x9q";
     console := [] |}.

(** [A], [B] and [C] wait for their upload; the service refuses [B]. *)
Definition three_pending : World :=
  world (store (Some (status ["A"; "B"; "C"] []))
               None
               [item "A" "u1" 1 (Some pending);
                item "B" "u1" 2 (Some pending);
                item "C" "u1" 3 (Some pending)])
        no_faults refusing_B true.

(** [A] waits for its upload. *)
Definition one_pending (online : bool) : World :=
  world (store (Some (status ["A"] [])) None [item "A" "u1" 1 (Some pending)])
        no_faults accepting online.

(** [B] is synced and owned by the signed-in user; the device is offline. *)
Definition owned_offline : World :=
  world (store None None [item "B" "u1" 2 (Some synced)])
        no_faults accepting false.

(** An empty store on an offline device. *)
Definition blank_offline : World :=
  world (store None None []) no_faults accepting false.

(** A store that refuses every write. *)
Definition read_only : World :=
  world (store (Some (status [] [])) None []) disk_full accepting true.

(** [X] is stored with [updated_at = 5]. *)
Definition holding_X : World :=
  world (store None None [item "X" "u1" 5 (Some synced)])
        no_faults accepting true.

(** A cache snapshot taken at [t = 10] that lives [50] ms. *)
Definition cached : World :=
  world (store None
               (Some {| contents := [item "P" "u2" 1 None];
                        timestamp := 10; maxAge := 50 |})
               [])
        no_faults accepting true.

(** [A] is synced, stored and shown in the user content of the global
    store, next to [D]; the device is online or not. *)
Definition listed (online : bool) : World :=
  let w := world (store (Some (status [] [])) None
                        [item "A" "u1" 1 (Some synced);
                         item "D" "u1" 4 (Some synced)])
                 no_faults accepting online in
  set_globalStore (λ g,
    {| auth_user := auth_user g; profile_syncStatus := profile_syncStatus g;
       app_isOnline := app_isOnline g;
       ar_currentLocation := ar_currentLocation g;
       ar_nearbyContent := ar_nearbyContent g;
       localContent_userContent :=
         [item "A" "u1" 1 (Some synced); item "D" "u1" 4 (Some synced)] |}) w.

(** Rows of the signed-in user [u1] and of [u2], two of them [failed],
    and a cache snapshot taken at [t = 80] that lives [50] ms and also
    holds [A]; the clock is at [100]. *)
Definition shelf : World :=
  world (store None
               (Some {| contents := [item "P" "u2" 1 None;
                                     item "A" "u1" 1 (Some synced)];
                        timestamp := 80; maxAge := 50 |})
               [item "A" "u1" 1 (Some synced);
                item "B" "u2" 2 (Some failed);
                item "C" "u1" 3 (Some failed);
                item "E" "u2" 5 (Some pending)])
        no_faults accepting true.

(** The fields of a new marker. *)
Definition new_marker : ARContentInput :=
  {| in_title := "Mill"; in_description := None; in_type := marker;
     in_position_lat := 45; in_position_lng := 14; in_position_alt := None;
     in_data := "{}"; in_is_public := false |}.

End Examples.

(** ** Running the storage layer on a reliable store *)
Section Reliable.
Import syncStorage contentStorage cacheStorage.

Lemma spread_all_fields current st : spread_status current (all_fields st) = st.
Proof. by destruct st. Qed.

Lemma bind_run {A B} (c : M A) (k : A → M B) w a w' :
  c w = (Return a, w') → bind c k w = k a w'.
Proof. unfold bind. by intros ->. Qed.

Lemma findIndex_none i userContent index :
  storeActions.findIndex i userContent index = -1.
Proof.
  revert index. induction userContent as [|c rest IH]; intros index; cbn.
  - done.
  - apply IH.
Qed.

Lemma removeLocalContent_run i w :
  storeActions.removeLocalContent i w = (Return tt, w).
Proof.
  unfold storeActions.removeLocalContent, bind, gets.
  by rewrite findIndex_none.
Qed.

Lemma with_sync_status_fields c st :
  sync_status (with_sync_status c st) = Some st ∧
  same_but_status c (with_sync_status c st).
Proof. by repeat split. Qed.

Lemma getSyncStatus_run w :
  faults w (GetItem SYNC_STATUS) = None →
  getSyncStatus w = (Return (stored_status (storage w)), w).
Proof.
  intros H. unfold getSyncStatus, try_catch, bind, getItem, native_read.
  rewrite H. unfold stored_status. cbn. by destruct (sync_status_item _).
Qed.

Lemma saveSyncStatus_run w p :
  faults w (GetItem SYNC_STATUS) = None →
  faults w (SetItem SYNC_STATUS) = None →
  saveSyncStatus p w =
    (Return tt, put_status (spread_status (stored_status (storage w)) p) w).
Proof.
  intros Hg Hs. unfold saveSyncStatus, try_catch.
  rewrite (bind_run _ _ _ _ _ (getSyncStatus_run w Hg)).
  unfold setItem, native_write. by rewrite Hs.
Qed.

Lemma removeFromPending_run w i :
  reliable w →
  removeFromPending i w =
    (Return tt, put_status (without i (stored_status (storage w))) w).
Proof.
  intros H. unfold removeFromPending.
  rewrite (bind_run _ _ _ _ _ (getSyncStatus_run w (H _))).
  rewrite saveSyncStatus_run by apply H.
  by rewrite spread_all_fields.
Qed.

Lemma saveContent_run w c :
  faults w (SetItem (USER_CONTENT (id c))) = None →
  saveContent c w = (Return tt, put_content c w).
Proof.
  intros H. unfold saveContent, try_catch, setItem, native_write.
  by rewrite H.
Qed.

Lemma getContentById_run w i :
  faults w (GetItem (USER_CONTENT i)) = None →
  getContentById i w = (Return (user_content_items (storage w) !! i), w).
Proof.
  intros H. unfold getContentById, try_catch, getItem, native_read.
  by rewrite H.
Qed.

Lemma updateSyncStatus_run w i st :
  reliable w →
  updateSyncStatus i st w =
    (Return tt,
     set_storage (λ s,
       {| sync_status_item := sync_status_item s;
          content_cache_item := content_cache_item s;
          user_content_items := mark i st (user_content_items s) |}) w).
Proof.
  intros H. unfold updateSyncStatus.
  rewrite (bind_run _ _ _ _ _ (getContentById_run w i (H _))).
  unfold mark, set_storage. cbn.
  destruct (user_content_items (storage w) !! i) as [c|].
  - by rewrite saveContent_run by apply H.
  - done.
Qed.

Lemma filter_content_keys s :
  filter (λ k, is_content_key k = true) (all_keys s) =
  USER_CONTENT <$> (map_to_list (user_content_items s)).*1.
Proof.
  unfold all_keys. rewrite !filter_app.
  assert (Hall : ∀ l : list string,
    filter (λ k, is_content_key k = true) (USER_CONTENT <$> l) =
    USER_CONTENT <$> l).
  { induction l as [|x l IH]; [done|].
    rewrite fmap_cons, filter_cons_True by done. by rewrite IH. }
  rewrite Hall.
  destruct (sync_status_item s), (content_cache_item s); done.
Qed.

Lemma read_each_run w ks acc :
  reliable w →
  read_each (USER_CONTENT <$> ks) acc w =
    (Return (acc ++ omap (λ k, user_content_items (storage w) !! k) ks), w).
Proof.
  intros H. revert acc. induction ks as [|k ks IH]; intros acc; cbn.
  - by rewrite app_nil_r.
  - unfold bind, getItem, native_read. rewrite H. cbn. rewrite IH.
    destruct (user_content_items (storage w) !! k); [|done].
    by rewrite <- app_assoc.
Qed.

Lemma omap_lookup_keys (m : gmap string ContentItem) (l : list (string * ContentItem)) :
  (∀ kv, kv ∈ l → m !! kv.1 = Some kv.2) →
  omap (λ k, m !! k) l.*1 = l.*2.
Proof.
  induction l as [|[k c] l IH]; intros Hl; [done|].
  pose proof (Hl (k, c) ltac:(left)) as Hk. cbn in Hk |- *.
  rewrite Hk. cbn. f_equal.
  apply IH. intros kv Hkv. apply Hl. by right.
Qed.

Lemma getAllContent_run w :
  reliable w → getAllContent w = (Return (all_content (storage w)), w).
Proof.
  intros H. unfold getAllContent, try_catch, bind, getAllKeys, native_read.
  rewrite H. rewrite filter_content_keys, read_each_run by done.
  cbn. unfold all_content.
  rewrite omap_lookup_keys; [done|].
  intros [k c] Hkc. by apply elem_of_map_to_list.
Qed.

Lemma getPendingSyncContent_run w :
  reliable w →
  getPendingSyncContent w = (Return (pending_items (storage w)), w).
Proof.
  intros H. unfold getPendingSyncContent.
  by rewrite (bind_run _ _ _ _ _ (getAllContent_run w H)).
Qed.

Lemma upload_one_spec c w :
  reliable w →
  ∃ w', SyncManager.upload_one c w = (Return tt, w') ∧
    faults w' = faults w ∧ supabase w' = supabase w ∧
    calls w' = calls w ++ [CreateARContent (SyncManager.upload_fields c)] ∧
    user_content_items (storage w') =
      mark (id c) (status_after_push (supabase w) c)
           (user_content_items (storage w)) ∧
    stored_status (storage w') =
      (if push_fails (supabase w) c then stored_status (storage w)
       else without (id c) (stored_status (storage w))) ∧
    result w' = tally (supabase w) c (result w).
Proof.
  intros H.
  unfold SyncManager.upload_one, try_catch, bind,
    arContentUtils.createARContent, arContentUtils.remote,
    status_after_push, push_fails, tally, push_error.
  destruct (createARContent_reply (supabase w) (SyncManager.upload_fields c))
    as [e|d [e|]]; cbn.
  - rewrite updateSyncStatus_run by exact H. cbn. eauto 10.
  - rewrite updateSyncStatus_run by exact H. cbn. eauto 10.
  - rewrite updateSyncStatus_run by exact H. cbn.
    rewrite removeFromPending_run by exact H. cbn. eauto 10.
Qed.

Lemma upload_loop_spec l w :
  reliable w →
  ∃ w', for_of l SyncManager.upload_one w = (Return tt, w') ∧
    faults w' = faults w ∧ supabase w' = supabase w ∧
    calls w' =
      calls w ++ ((λ c, CreateARContent (SyncManager.upload_fields c)) <$> l) ∧
    user_content_items (storage w') =
      foldl (λ m c, mark (id c) (status_after_push (supabase w) c) m)
            (user_content_items (storage w)) l ∧
    stored_status (storage w') =
      foldl (λ st c, if push_fails (supabase w) c then st
                     else without (id c) st)
            (stored_status (storage w)) l ∧
    result w' = foldl (λ r c, tally (supabase w) c r) (result w) l.
Proof.
  revert w. induction l as [|c l IH]; intros w H; cbn.
  - exists w. unfold ret. by rewrite app_nil_r.
  - destruct (upload_one_spec c w H) as (w1 & Hrun & Hf & Hs & Hc & Hi & Hp & Hr).
    assert (H1 : reliable w1) by (intros op; rewrite Hf; apply H).
    destruct (IH w1 H1) as (w2 & Hrun2 & Hf2 & Hs2 & Hc2 & Hi2 & Hp2 & Hr2).
    exists w2. rewrite (bind_run _ _ _ _ _ Hrun), Hrun2.
    rewrite Hf2, Hs2, Hc2, Hi2, Hp2, Hr2, Hf, Hs, Hc, Hi, Hp, Hr.
    by rewrite <- app_assoc.
Qed.

Lemma uploadPendingContent_spec w :
  reliable w →
  let l := pending_items (storage w) in
  ∃ w', SyncManager.uploadPendingContent w = (Return tt, w') ∧
    faults w' = faults w ∧ supabase w' = supabase w ∧
    calls w' =
      calls w ++ ((λ c, CreateARContent (SyncManager.upload_fields c)) <$> l) ∧
    user_content_items (storage w') =
      foldl (λ m c, mark (id c) (status_after_push (supabase w) c) m)
            (user_content_items (storage w)) l ∧
    stored_status (storage w') =
      foldl (λ st c, if push_fails (supabase w) c then st
                     else without (id c) st)
            (stored_status (storage w)) l ∧
    result w' = foldl (λ r c, tally (supabase w) c r) (result w) l.
Proof.
  intros H l. unfold SyncManager.uploadPendingContent.
  rewrite (bind_run _ _ _ _ _ (getPendingSyncContent_run w H)).
  apply upload_loop_spec, H.
Qed.

End Reliable.

(** ** The items of a store *)
Section Items.

Lemma elem_of_all_content s c :
  c ∈ all_content s ↔ ∃ k, user_content_items s !! k = Some c.
Proof.
  unfold all_content. rewrite merge_sort_Permutation.
  rewrite list_elem_of_fmap. split.
  - intros ([k c'] & -> & Hkc). exists k. by apply elem_of_map_to_list.
  - intros [k Hk]. exists (k, c). split; [done|]. by apply elem_of_map_to_list.
Qed.

Lemma elem_of_pending_items s c :
  c ∈ pending_items s ↔
  (∃ k, user_content_items s !! k = Some c) ∧ sync_status c = Some pending.
Proof.
  unfold pending_items. rewrite list_elem_of_filter, elem_of_all_content. tauto.
Qed.

Lemma keys_match_lookup s k c :
  keys_match s = true → user_content_items s !! k = Some c → id c = k.
Proof.
  unfold keys_match. intros Hm%bool_decide_eq_true Hk. by apply (Hm k c).
Qed.

Lemma all_content_ids s :
  keys_match s = true →
  id <$> (map_to_list (user_content_items s)).*2 =
  (map_to_list (user_content_items s)).*1.
Proof.
  intros Hm.
  assert (Hl : ∀ l : list (string * ContentItem),
    (∀ kv, kv ∈ l → id kv.2 = kv.1) → id <$> l.*2 = l.*1).
  { induction l as [|[k c] l IH]; intros Hl; [done|].
    cbn. f_equal; [apply (Hl (k, c)); left | apply IH].
    intros kv Hkv. apply Hl. by right. }
  apply Hl. intros [k c] Hkc%elem_of_map_to_list.
  by apply (keys_match_lookup s).
Qed.

Lemma NoDup_all_content_ids s :
  keys_match s = true → NoDup (id <$> all_content s).
Proof.
  intros Hm. unfold all_content.
  rewrite merge_sort_Permutation, all_content_ids by done.
  apply NoDup_fst_map_to_list.
Qed.

Lemma NoDup_pending_ids s :
  keys_match s = true → NoDup (id <$> pending_items s).
Proof.
  intros Hm. unfold pending_items.
  apply (sublist_NoDup _ (id <$> all_content s)).
  - by apply NoDup_all_content_ids.
  - apply fmap_sublist, sublist_filter.
Qed.

Lemma pending_items_lookup s c :
  keys_match s = true → c ∈ pending_items s →
  user_content_items s !! id c = Some c.
Proof.
  intros Hm [[k Hk] _]%elem_of_pending_items.
  by rewrite (keys_match_lookup s k c).
Qed.

End Items.

(** ** The upload loop on the items and on the result *)
Section UploadLoop.
Variable st : ContentItem → SyncState.

Lemma mark_present i s (m : gmap string ContentItem) c :
  m !! i = Some c → id c = i → mark i s m = <[i := with_sync_status c s]> m.
Proof. unfold mark. by intros -> <-. Qed.

Lemma foldl_mark l (m : gmap string ContentItem) :
  NoDup (id <$> l) →
  (∀ c, c ∈ l → m !! id c = Some c) →
  let m' := foldl (λ m c, mark (id c) (st c) m) m l in
  (∀ c, c ∈ l → m' !! id c = Some (with_sync_status c (st c))) ∧
  (∀ k, k ∉ id <$> l → m' !! k = m !! k) ∧
  dom m' = dom m.
Proof.
  revert m. induction l as [|c l IH]; intros m Hnd Hin; cbn.
  { split; [|done]. by intros c ?%elem_of_nil. }
  apply NoDup_cons in Hnd as [Hc Hnd].
  assert (Hm : mark (id c) (st c) m = <[id c := with_sync_status c (st c)]> m).
  { apply mark_present; [|done]. apply Hin. by left. }
  rewrite Hm.
  destruct (IH (<[id c := with_sync_status c (st c)]> m) Hnd) as (Ha & Hb & Hd).
  { intros c2 Hc2. rewrite lookup_insert_ne; [apply Hin; by right|].
    intros Heq. apply Hc. rewrite Heq. by apply list_elem_of_fmap_2. }
  split; [|split].
  - intros c2 [->|Hc2]%elem_of_cons; [|by apply Ha].
    rewrite Hb by done. apply lookup_insert_eq.
  - intros k [Hk1 Hk2]%not_elem_of_cons.
    rewrite Hb by done. by rewrite lookup_insert_ne.
  - rewrite Hd, dom_insert_L.
    apply subseteq_union_1_L, singleton_subseteq_l.
    apply elem_of_dom. exists c. apply Hin. by left.
Qed.

End UploadLoop.

Section Tally.
Variable sb : Supabase.

Lemma push_fails_Some c e : push_error sb c = Some e → push_fails sb c = true.
Proof. unfold push_fails. by intros ->. Qed.

Lemma push_fails_None c : push_error sb c = None → push_fails sb c = false.
Proof.
  unfold push_fails. intros ->. apply bool_decide_eq_false. by intros [].
Qed.

Lemma upload_error_lines_Some c e l :
  push_error sb c = Some e →
  omap (upload_error_line sb) (c :: l) =
  ("Upload failed for " +:+ title c +:+ ": " +:+ e) :: omap (upload_error_line sb) l.
Proof.
  intros E. change (omap (upload_error_line sb) (c :: l))
    with (from_option (λ e, e :: omap (upload_error_line sb) l)
            (omap (upload_error_line sb) l) (upload_error_line sb c)).
  unfold upload_error_line at 3. by rewrite E.
Qed.

Lemma upload_error_lines_None c l :
  push_error sb c = None →
  omap (upload_error_line sb) (c :: l) = omap (upload_error_line sb) l.
Proof.
  intros E. change (omap (upload_error_line sb) (c :: l))
    with (from_option (λ e, e :: omap (upload_error_line sb) l)
            (omap (upload_error_line sb) l) (upload_error_line sb c)).
  unfold upload_error_line at 3. by rewrite E.
Qed.

Lemma foldl_tally l r :
  let r' := foldl (λ r c, tally sb c r) r l in
  uploaded r' =
    uploaded r + Z.of_nat (length (filter (λ c, push_fails sb c = false) l)) ∧
  failed_count r' =
    failed_count r + Z.of_nat (length (filter (λ c, push_fails sb c = true) l)) ∧
  errors r' = errors r ++ omap (upload_error_line sb) l ∧
  downloaded r' = downloaded r ∧ success r' = success r.
Proof.
  revert r. induction l as [|c l IH]; intros r.
  { cbn. rewrite app_nil_r. repeat split; lia. }
  cbn [foldl]. destruct (IH (tally sb c r)) as (Hu & Hf & He & Hd & Hs).
  cbn zeta. rewrite Hu, Hf, He, Hd, Hs.
  unfold tally.
  destruct (push_error sb c) as [e|] eqn:E.
  - rewrite filter_cons_False by (by rewrite (push_fails_Some c e)).
    rewrite filter_cons_True by (by apply (push_fails_Some c e)).
    rewrite (upload_error_lines_Some c e) by done.
    rewrite length_cons, Nat2Z.inj_succ.
    cbn [uploaded failed_count errors downloaded success].
    rewrite <- app_assoc. repeat split; (reflexivity || lia).
  - rewrite filter_cons_True by (by apply push_fails_None).
    rewrite filter_cons_False by (by rewrite (push_fails_None c)).
    rewrite upload_error_lines_None by done.
    rewrite length_cons, Nat2Z.inj_succ.
    cbn [uploaded failed_count errors downloaded success].
    repeat split; (reflexivity || lia).
Qed.

Lemma length_upload_error_lines l :
  length (omap (upload_error_line sb) l) =
  length (filter (λ c, push_fails sb c = true) l).
Proof.
  induction l as [|c l IH]; [done|].
  destruct (push_error sb c) as [e|] eqn:E.
  - rewrite filter_cons_True by (by apply (push_fails_Some c e)).
    rewrite (upload_error_lines_Some c e) by done.
    cbn. by rewrite IH.
  - rewrite filter_cons_False by (by rewrite (push_fails_None c)).
    by rewrite upload_error_lines_None.
Qed.

End Tally.

(** ** The merge of downloaded content *)
Section Merge.
Import contentStorage.

Lemma foldl_insert_reverse (l : list (string * ContentItem))
    (m : gmap string ContentItem) :
  foldl (λ m e, <[e.1 := e.2]> m) m l =
  foldr (λ e m, <[e.1 := e.2]> m) m (reverse l).
Proof.
  revert m. induction l as [|e l IH]; intros m; [done|].
  cbn [foldl]. rewrite IH, reverse_cons, foldr_app. done.
Qed.

Lemma entries_of_items s :
  keys_match s = true →
  (λ c, (id c, c)) <$> (map_to_list (user_content_items s)).*2 =
  map_to_list (user_content_items s).
Proof.
  intros Hm.
  assert (Hl : ∀ l : list (string * ContentItem),
    (∀ kv, kv ∈ l → id kv.2 = kv.1) → (λ c, (id c, c)) <$> l.*2 = l).
  { induction l as [|[k c] l IH]; intros Hl; [done|].
    cbn. f_equal.
    - f_equal. apply (Hl (k, c)). left.
    - apply IH. intros kv Hkv. apply Hl. by right. }
  apply Hl. intros [k c] Hkc%elem_of_map_to_list.
  by apply (keys_match_lookup s).
Qed.

Lemma new_Map_all_content s :
  keys_match s = true →
  SyncManager.new_Map ((λ c, (id c, c)) <$> all_content s) =
  user_content_items s.
Proof.
  intros Hm. unfold SyncManager.new_Map. rewrite foldl_insert_reverse.
  change (foldr _ ∅ ?l) with (list_to_map l : gmap string ContentItem).
  transitivity (list_to_map (map_to_list (user_content_items s))
                : gmap string ContentItem);
    [|apply list_to_map_to_list].
  symmetry. apply list_to_map_proper; [apply NoDup_fst_map_to_list|].
  rewrite reverse_Permutation. unfold all_content.
  rewrite merge_sort_Permutation. by rewrite entries_of_items.
Qed.

Lemma merge_loop_spec M rs w :
  reliable w →
  ∃ w', for_of rs (SyncManager.merge_one M) w = (Return tt, w') ∧
    faults w' = faults w ∧
    user_content_items (storage w') =
      foldl (λ m r, if remote_wins M r
                    then <[id r := with_sync_status r synced]> m else m)
            (user_content_items (storage w)) rs.
Proof.
  revert w. induction rs as [|r rs IH]; intros w H; cbn [for_of foldl].
  { by exists w. }
  assert (∃ w1, SyncManager.merge_one M r w = (Return tt, w1) ∧
            faults w1 = faults w ∧
            user_content_items (storage w1) =
              if remote_wins M r
              then <[id r := with_sync_status r synced]>
                     (user_content_items (storage w))
              else user_content_items (storage w))
    as (w1 & Hrun & Hf & Hi).
  { unfold SyncManager.merge_one, remote_wins.
    destruct (M !! id r) as [loc|]; [case_bool_decide|].
    - rewrite saveContent_run by apply H. eauto.
    - eauto.
    - rewrite saveContent_run by apply H. eauto. }
  destruct (IH w1) as (w2 & Hrun2 & Hf2 & Hi2).
  { intros op. rewrite Hf. apply H. }
  exists w2. rewrite (bind_run _ _ _ _ _ Hrun), Hrun2, Hf2, Hi2, Hf, Hi. done.
Qed.

Lemma foldl_merge M rs (m : gmap string ContentItem) :
  NoDup (id <$> rs) →
  let m' := foldl (λ m r, if remote_wins M r
                          then <[id r := with_sync_status r synced]> m else m)
                  m rs in
  (∀ r, r ∈ rs →
     m' !! id r = if remote_wins M r then Some (with_sync_status r synced)
                  else m !! id r) ∧
  (∀ k, k ∉ id <$> rs → m' !! k = m !! k).
Proof.
  revert m. induction rs as [|r rs IH]; intros m Hnd; cbn.
  { split; [|done]. by intros r ?%elem_of_nil. }
  apply NoDup_cons in Hnd as [Hr Hnd].
  destruct (IH (if remote_wins M r
                then <[id r := with_sync_status r synced]> m else m) Hnd)
    as [Ha Hb].
  split.
  - intros r2 [->|Hr2]%elem_of_cons.
    + rewrite Hb by done. destruct (remote_wins M r); [|done].
      apply lookup_insert_eq.
    + rewrite Ha by done. destruct (remote_wins M r2); [done|].
      destruct (remote_wins M r); [|done].
      rewrite lookup_insert_ne; [done|].
      intros Heq. apply Hr. rewrite Heq. by apply list_elem_of_fmap_2.
  - intros k [Hk1 Hk2]%not_elem_of_cons. rewrite Hb by done.
    destruct (remote_wins M r); [|done]. by rewrite lookup_insert_ne.
Qed.

End Merge.

(** Decides every native call of [w] met in the goal. *)
Ltac case_faults w :=
  repeat (cbn; match goal with
    | H : faults w ?op = _ |- context [faults w ?op] => rewrite H
    | |- context [faults w ?op] => destruct (faults w op) eqn:?
    end); cbn.

(** ** Frames

    What an admitted cycle leaves alone is stated as a relation between
    the world before and the world after that every step of the cycle
    respects. The steps are taken from the code once, for any relation
    that the elementary updates respect. *)
Section Frame.
Import syncStorage contentStorage cacheStorage.
Context (R : World → World → Prop).
Context {R_refl : Reflexive R} {R_trans : Transitive R}.

Lemma keeps_ret {A} (a : A) : keeps R (ret a).
Proof. intros w. apply R_refl. Qed.

Lemma keeps_throw {A} e : keeps R (@throw A e).
Proof. intros w. apply R_refl. Qed.

Lemma keeps_gets {A} (f : World → A) : keeps R (gets f).
Proof. intros w. apply R_refl. Qed.

Lemma keeps_bind {A B} (c : M A) (k : A → M B) :
  keeps R c → (∀ a, keeps R (k a)) → keeps R (bind c k).
Proof.
  intros Hc Hk w. unfold bind. specialize (Hc w).
  destruct (c w) as [[a|e] w1]; [|done].
  eapply R_trans; [exact Hc|apply Hk].
Qed.

Lemma keeps_try_catch {A} (c : M A) (h : string → M A) :
  keeps R c → (∀ e, keeps R (h e)) → keeps R (try_catch c h).
Proof.
  intros Hc Hh w. unfold try_catch. specialize (Hc w).
  destruct (c w) as [[a|e] w1]; [done|].
  eapply R_trans; [exact Hc|apply Hh].
Qed.

Lemma keeps_try_finally {A} (c : M A) (f : World → World) :
  keeps R c → (∀ w, R w (f w)) → keeps R (try_finally c f).
Proof.
  intros Hc Hf w. unfold try_finally. specialize (Hc w).
  destruct (c w) as [o w1]. eapply R_trans; [exact Hc|apply Hf].
Qed.

Lemma keeps_modify (f : World → World) :
  (∀ w, R w (f w)) → keeps R (modify f).
Proof. intros Hf w. apply Hf. Qed.

Lemma keeps_for_of {A} (l : list A) (body : A → M unit) :
  (∀ x, keeps R (body x)) → keeps R (for_of l body).
Proof.
  intros Hb. induction l as [|x l IH]; [apply keeps_ret|].
  apply keeps_bind; [apply Hb|done].
Qed.

Lemma keeps_native_read {A} op (read : AsyncStorage → A) :
  keeps R (native_read op read).
Proof. intros w. unfold native_read. destruct (faults w op); apply R_refl. Qed.

Lemma keeps_native_write op write :
  (∀ w, R w (set_storage write w)) → keeps R (native_write op write).
Proof.
  intros Hw w. unfold native_write. destruct (faults w op); [apply R_refl|apply Hw].
Qed.

(** The elementary updates made during a cycle. *)
Hypothesis R_console : ∀ f w, R w (set_console f w).
Hypothesis R_result : ∀ f w, R w (set_result f w).
Hypothesis R_calls : ∀ f w, R w (set_calls f w).
Hypothesis R_isSyncing : ∀ b w, R w (set_isSyncing b w).
Hypothesis R_setSyncStatus : ∀ st, keeps R (storeActions.setSyncStatus st).
Hypothesis R_updateNearbyContent :
  ∀ l, keeps R (storeActions.updateNearbyContent l).
Hypothesis R_content : ∀ c w, R w (put_content c w).
Hypothesis R_cache :
  ∀ v w, R w (set_storage (λ s, write_slot s CONTENT_CACHE (Some v)) w).
Hypothesis R_updateLastSync : keeps R updateLastSync.
Hypothesis R_removeFromPending : ∀ i, keeps R (removeFromPending i).

(** Takes an operation apart along its control structure. *)
Ltac frame :=
  repeat first
    [ match goal with
      | |- ∀ _, _ => intro
      | |- keeps _ (bind _ _) => apply keeps_bind
      | |- keeps _ (try_catch _ _) => apply keeps_try_catch
      | |- keeps _ (try_finally _ _) => apply keeps_try_finally
      | |- keeps _ (for_of _ _) => apply keeps_for_of
      | |- keeps _ (ret _) => apply keeps_ret
      | |- keeps _ (throw _) => apply keeps_throw
      | |- keeps _ (gets _) => apply keeps_gets
      | |- keeps _ (native_read _ _) => apply keeps_native_read
      | |- keeps _ (native_write _ _) => apply keeps_native_write
      | |- keeps _ (modify _) => apply keeps_modify
      | |- keeps _ (match ?x with _ => _ end) => destruct x
      | |- keeps _ (if ?b then _ else _) => destruct b
      end
    | solve [auto] ].

Lemma keeps_console_error p e : keeps R (console_error p e).
Proof. unfold console_error. frame. Qed.

Lemma keeps_remote {A} c (reply : Supabase → Reply A) :
  keeps R (arContentUtils.remote c reply).
Proof.
  intros w. unfold arContentUtils.remote. destruct (reply _); apply R_calls.
Qed.

Lemma keeps_saveContent c : keeps R (saveContent c).
Proof.
  pose proof keeps_console_error. unfold saveContent, setItem.
  apply keeps_try_catch; [|frame].
  apply keeps_native_write. intros w. apply (R_content c w).
Qed.

Lemma keeps_read_each ks acc : keeps R (read_each ks acc).
Proof.
  revert acc. induction ks as [|[| |i] ks IH]; intros acc; cbn [read_each];
    unfold getItem; frame.
Qed.

Lemma keeps_getAllContent : keeps R getAllContent.
Proof.
  pose proof keeps_console_error. pose proof keeps_read_each.
  unfold getAllContent, getAllKeys. frame.
Qed.

Lemma keeps_updateSyncStatus i st : keeps R (updateSyncStatus i st).
Proof.
  pose proof keeps_console_error. pose proof keeps_saveContent.
  unfold updateSyncStatus, getContentById, getItem. frame.
Qed.

Lemma keeps_uploadPendingContent : keeps R SyncManager.uploadPendingContent.
Proof.
  pose proof keeps_console_error. pose proof keeps_getAllContent.
  pose proof keeps_updateSyncStatus. pose proof @keeps_remote.
  unfold SyncManager.uploadPendingContent, getPendingSyncContent,
    SyncManager.upload_one, arContentUtils.createARContent,
    SyncManager.incr_uploaded, SyncManager.incr_failed,
    SyncManager.errors_push.
  frame.
Qed.

Lemma keeps_mergeRemoteContent rs : keeps R (SyncManager.mergeRemoteContent rs).
Proof.
  pose proof keeps_getAllContent. pose proof keeps_saveContent.
  unfold SyncManager.mergeRemoteContent, SyncManager.merge_one. frame.
Qed.

Lemma keeps_downloadRemoteContent : keeps R SyncManager.downloadRemoteContent.
Proof.
  pose proof keeps_mergeRemoteContent. pose proof keeps_console_error.
  pose proof @keeps_remote.
  unfold SyncManager.downloadRemoteContent, SyncManager.mergePublicContent,
    saveContentCache, setItem, arContentUtils.getUserARContent,
    arContentUtils.getNearbyPublicARContent, SyncManager.add_downloaded,
    SyncManager.errors_push, storeActions.updateLocalContent_with_array.
  frame.
Qed.

Lemma keeps_syncContent : keeps R SyncManager.syncContent.
Proof.
  pose proof keeps_uploadPendingContent.
  pose proof keeps_downloadRemoteContent.
  assert (∀ w, R w (SyncManager.leave_cycle w)).
  { intros w. unfold SyncManager.leave_cycle.
    eapply R_trans; [apply (R_isSyncing false)|apply R_setSyncStatus]. }
  unfold SyncManager.syncContent, SyncManager.set_success,
    SyncManager.errors_push.
  frame.
Qed.

(** The other entry points of the manager. *)
Hypothesis R_isOnline : ∀ b w, R w (set_isOnline b w).
Hypothesis R_setOnlineStatus : ∀ b, keeps R (storeActions.setOnlineStatus b).
Hypothesis R_set_userContent : ∀ f, keeps R (storeActions.set_userContent f).
Hypothesis R_getSyncStatus : keeps R getSyncStatus.
Hypothesis R_addPendingUpload : ∀ i, keeps R (addPendingUpload i).
Hypothesis R_addPendingDeletion : ∀ i, keeps R (addPendingDeletion i).

Lemma keeps_triggerAutoSync : keeps R SyncManager.triggerAutoSync.
Proof.
  pose proof keeps_syncContent. pose proof keeps_console_error.
  unfold SyncManager.triggerAutoSync. frame.
Qed.

Lemma keeps_networkListener e : keeps R (SyncManager.networkListener e).
Proof.
  pose proof keeps_triggerAutoSync.
  unfold SyncManager.networkListener. frame.
Qed.

Lemma keeps_createLocalContent c : keeps R (SyncManager.createLocalContent c).
Proof.
  pose proof keeps_syncContent. pose proof keeps_console_error.
  pose proof keeps_saveContent.
  unfold SyncManager.createLocalContent, storeActions.addLocalContent. frame.
Qed.

Lemma keeps_deleteContent i : keeps R (SyncManager.deleteContent i).
Proof.
  pose proof keeps_updateSyncStatus. pose proof keeps_console_error.
  pose proof @keeps_remote.
  unfold SyncManager.deleteContent, storeActions.removeLocalContent,
    arContentUtils.deleteARContent.
  frame.
Qed.

End Frame.

(** *** The reachability flags

    The flag of the manager and its copy in the global store are written
    by the network listener only. *)
Section Link.
Import syncStorage contentStorage cacheStorage.

#[local] Instance same_link_refl : Reflexive same_link.
Proof. by split. Qed.

#[local] Instance same_link_trans : Transitive same_link.
Proof. intros w1 w2 w3 [H1 H2] [H3 H4]. split; congruence. Qed.

Lemma same_link_set_storage f w : same_link w (set_storage f w).
Proof. by split. Qed.

Lemma syncContent_same_link : keeps same_link SyncManager.syncContent.
Proof.
  pose proof same_link_set_storage.
  assert (∀ p e, keeps same_link (console_error p e)) by (by split).
  apply (keeps_syncContent same_link); try (by split).
  - unfold updateLastSync, saveSyncStatus, getSyncStatus, getItem, setItem.
    repeat first
      [ apply (keeps_bind same_link) | apply (keeps_try_catch same_link)
      | apply (keeps_gets same_link) | apply (keeps_ret same_link)
      | apply (keeps_native_read same_link)
      | apply (keeps_native_write same_link) | intro | done ].
  - intros i.
    unfold removeFromPending, saveSyncStatus, getSyncStatus, getItem, setItem.
    repeat first
      [ apply (keeps_bind same_link) | apply (keeps_try_catch same_link)
      | apply (keeps_gets same_link) | apply (keeps_ret same_link)
      | apply (keeps_native_read same_link)
      | apply (keeps_native_write same_link) | intro | done ].
Qed.

End Link.

(** *** The stored [is_online]

    As long as the read of [sync_status] answers, no step of a cycle
    changes the [is_online] field of the stored record. *)
Section Record.
Import syncStorage contentStorage cacheStorage.

#[local] Instance same_record_refl : Reflexive same_record.
Proof. by split. Qed.

#[local] Instance same_record_trans : Transitive same_record.
Proof.
  intros w1 w2 w3 [H1 H2] [H3 H4]. split; [congruence|].
  intros H. rewrite H4, H2; [done..|]. by rewrite H1.
Qed.

Lemma saveSyncStatus_same_record status :
  p_is_online status = None → keeps same_record (saveSyncStatus status).
Proof.
  intros Hp w. split.
  - unfold saveSyncStatus, getSyncStatus, try_catch, bind, getItem, setItem,
      native_read, native_write, console_error, modify, ret.
    by case_faults w.
  - intros Hg. unfold saveSyncStatus, try_catch.
    rewrite (bind_run _ _ _ _ _ (getSyncStatus_run w Hg)).
    unfold setItem, native_write, console_error, modify.
    destruct (faults w (SetItem SYNC_STATUS)); [done|].
    cbn. by rewrite Hp.
Qed.

Lemma removeFromPending_same_record i : keeps same_record (removeFromPending i).
Proof.
  intros w. split.
  - unfold removeFromPending, saveSyncStatus, getSyncStatus, try_catch, bind,
      getItem, setItem, native_read, native_write, console_error, modify, ret.
    by case_faults w.
  - intros Hg. unfold removeFromPending.
    rewrite (bind_run _ _ _ _ _ (getSyncStatus_run w Hg)).
    unfold saveSyncStatus, try_catch.
    rewrite (bind_run _ _ _ _ _ (getSyncStatus_run w Hg)).
    unfold setItem, native_write, console_error, modify.
    destruct (faults w (SetItem SYNC_STATUS)); done.
Qed.

Lemma syncContent_same_record : keeps same_record SyncManager.syncContent.
Proof.
  apply (keeps_syncContent same_record); try (by split).
  - intros w. unfold updateLastSync, bind, gets.
    by apply saveSyncStatus_same_record.
  - apply removeFromPending_same_record.
Qed.

End Record.

(** *** The keys of the stored items

    Every entry point of the manager leaves the items under the key of
    their own [id] if it finds them so: content is written by
    [saveContent] only, under [`user_content_${content.id}`]. *)
Section Keys.
Import syncStorage contentStorage cacheStorage.

#[local] Instance keys_kept_refl : Reflexive keys_kept.
Proof. intros w H. exact H. Qed.

#[local] Instance keys_kept_trans : Transitive keys_kept.
Proof. intros w1 w2 w3 H1 H2 H. by apply H2, H1. Qed.

Lemma keys_match_empty :
  keys_match {| sync_status_item := None; content_cache_item := None;
                user_content_items := ∅ |} = true.
Proof. apply bool_decide_eq_true. apply map_Forall_empty. Qed.

Lemma put_content_keys_kept c w : keys_kept w (put_content c w).
Proof.
  unfold keys_kept, keys_match. rewrite !bool_decide_eq_true. intros Hm.
  cbn. by apply map_Forall_insert_2.
Qed.

Lemma keys_kept_same_items w w' :
  user_content_items (storage w') = user_content_items (storage w) →
  keys_kept w w'.
Proof. unfold keys_kept, keys_match. by intros ->. Qed.

Lemma saveSyncStatus_keys_kept status : keeps keys_kept (saveSyncStatus status).
Proof.
  intros w. apply keys_kept_same_items.
  unfold saveSyncStatus, getSyncStatus, try_catch, bind, getItem, setItem,
    native_read, native_write, console_error, modify, ret.
  by case_faults w.
Qed.

Lemma getSyncStatus_keys_kept : keeps keys_kept getSyncStatus.
Proof.
  intros w. apply keys_kept_same_items.
  unfold getSyncStatus, try_catch, bind, getItem, native_read, console_error,
    modify, ret.
  by case_faults w.
Qed.

Lemma manager_keeps_keys :
  keeps keys_kept SyncManager.syncContent ∧
  (∀ e, keeps keys_kept (SyncManager.networkListener e)) ∧
  (∀ c, keeps keys_kept (SyncManager.createLocalContent c)) ∧
  (∀ i, keeps keys_kept (SyncManager.deleteContent i)).
Proof.
  pose proof saveSyncStatus_keys_kept as Hsave.
  pose proof getSyncStatus_keys_kept as Hget.
  pose proof put_content_keys_kept as Hput.
  assert (Hlast : keeps keys_kept updateLastSync).
  { intros w. unfold updateLastSync, bind, gets. apply Hsave. }
  assert (Hrm : ∀ i, keeps keys_kept (removeFromPending i)).
  { intros i. unfold removeFromPending.
    apply (keeps_bind keys_kept); [done|]. intros st. apply Hsave. }
  assert (Hup : ∀ i, keeps keys_kept (addPendingUpload i)).
  { intros i. unfold addPendingUpload.
    apply (keeps_bind keys_kept); [done|]. intros st.
    case_bool_decide; [apply (keeps_ret keys_kept)|apply Hsave]. }
  assert (Hdel : ∀ i, keeps keys_kept (addPendingDeletion i)).
  { intros i. unfold addPendingDeletion.
    apply (keeps_bind keys_kept); [done|]. intros st.
    case_bool_decide; [apply (keeps_ret keys_kept)|apply Hsave]. }
  assert (Hcache : ∀ v w,
    keys_kept w (set_storage (λ s, write_slot s CONTENT_CACHE (Some v)) w)).
  { intros v w. by apply keys_kept_same_items. }
  split; [|split; [|split]]; intros.
  - apply (keeps_syncContent keys_kept); try done;
      intros ? ?; by apply keys_kept_same_items.
  - apply (keeps_networkListener keys_kept); try done;
      intros ? ?; by apply keys_kept_same_items.
  - apply (keeps_createLocalContent keys_kept); try done;
      intros ? ?; by apply keys_kept_same_items.
  - apply (keeps_deleteContent keys_kept); try done;
      intros ? ?; by apply keys_kept_same_items.
Qed.

End Keys.

(** ** Operations that never reject *)
Section Returns.
Import syncStorage contentStorage cacheStorage.

Lemma returns_ret {A} (a : A) : returns (ret a).
Proof. intros w. by exists a. Qed.

Lemma returns_gets {A} (f : World → A) : returns (gets f).
Proof. intros w. by exists (f w). Qed.

Lemma returns_modify f : returns (modify f).
Proof. intros w. by exists tt. Qed.

Lemma returns_bind {A B} (c : M A) (k : A → M B) :
  returns c → (∀ a, returns (k a)) → returns (bind c k).
Proof.
  intros Hc Hk w. unfold bind. destruct (Hc w) as [a Ha].
  destruct (c w) as [o w1]. cbn in Ha. subst o. apply Hk.
Qed.

Lemma returns_try_catch {A} (c : M A) (h : string → M A) :
  (∀ e, returns (h e)) → returns (try_catch c h).
Proof.
  intros Hh w. unfold try_catch.
  destruct (c w) as [[a|e] w1]; [by exists a|apply Hh].
Qed.

Lemma returns_try_finally {A} (c : M A) f :
  returns c → returns (try_finally c f).
Proof.
  intros Hc w. unfold try_finally. destruct (Hc w) as [a Ha].
  destruct (c w) as [o w1]. by exists a.
Qed.

Ltac returning :=
  repeat first
    [ match goal with
      | |- ∀ _, _ => intro
      | |- returns (bind _ _) => apply returns_bind
      | |- returns (try_catch _ _) => apply returns_try_catch
      | |- returns (try_finally _ _) => apply returns_try_finally
      | |- returns (ret _) => apply returns_ret
      | |- returns (gets _) => apply returns_gets
      | |- returns (modify _) => apply returns_modify
      | |- returns (if ?b then _ else _) => destruct b
      end
    | solve [auto] ].

(** [syncContent] returns a result object whatever happens inside. *)
Lemma syncContent_returns : returns SyncManager.syncContent.
Proof.
  unfold SyncManager.syncContent, SyncManager.set_success,
    SyncManager.errors_push, storeActions.setSyncStatus.
  returning.
Qed.

Lemma getSyncStatus_returns : returns getSyncStatus.
Proof. unfold getSyncStatus, console_error. returning. Qed.

Lemma getContentCache_returns : returns getContentCache.
Proof. unfold getContentCache, console_error. returning. Qed.

Lemma triggerAutoSync_returns : returns SyncManager.triggerAutoSync.
Proof.
  pose proof syncContent_returns. pose proof getSyncStatus_returns.
  unfold SyncManager.triggerAutoSync, console_error. returning.
Qed.

End Returns.

(** * The claims *)

(** ** Single flight *)

(** C3. In every state in which [isSyncing] is set or [isOnline] is
    clear, [syncContent] returns at once the object with [success = false],
    all three counters at zero and the one sentinel error, and the world
    it leaves is the world it found: pending sets, stored content, cache,
    [last_sync] and every other piece of state are untouched. *)
Theorem syncContent_rejected_without_effect (w : World) :
  isSyncing w = true ∨ isOnline w = false →
  SyncManager.syncContent w = (Return SyncManager.rejected, w) ∧
  success SyncManager.rejected = false ∧
  uploaded SyncManager.rejected = 0 ∧
  downloaded SyncManager.rejected = 0 ∧
  failed_count SyncManager.rejected = 0 ∧
  errors SyncManager.rejected = ["Sync already in progress or offline"].
Proof.
  intros H. split; [|done].
  unfold SyncManager.syncContent, bind, gets, ret. cbn.
  destruct H as [H | H]; rewrite H; [done|].
  by rewrite orb_true_r.
Qed.

Lemma syncContent_rejected_without_effect_witness :
  SyncManager.syncContent Examples.blank_offline =
    (Return SyncManager.rejected, Examples.blank_offline) ∧
  success SyncManager.rejected = false ∧
  uploaded SyncManager.rejected = 0 ∧
  downloaded SyncManager.rejected = 0 ∧
  failed_count SyncManager.rejected = 0 ∧
  errors SyncManager.rejected = ["Sync already in progress or offline"].
Proof.
  apply (syncContent_rejected_without_effect Examples.blank_offline).
  right. reflexivity.
Defined.

(** ** The content cache *)

(** C10. With a snapshot in the store and a store that answers, a read
    at time [now] with [now - timestamp > maxAge] yields the empty array
    and leaves no snapshot behind, so that the next read finds none; a
    read with [now - timestamp <= maxAge] yields the stored [contents] and
    leaves the world as it was. *)
Theorem getContentCache_expiry (w : World) (snapshot : CacheData) :
  content_cache_item (storage w) = Some snapshot →
  faults w (GetItem CONTENT_CACHE) = None →
  faults w (RemoveItem CONTENT_CACHE) = None →
  let r := cacheStorage.getContentCache w in
  if bool_decide (now w - timestamp snapshot > maxAge snapshot)
  then r.1 = Return [] ∧
       content_cache_item (storage r.2) = None ∧
       (cacheStorage.getContentCache r.2).1 = Return []
  else r = (Return (contents snapshot), w).
Proof.
  intros Hs Hg Hr.
  unfold cacheStorage.getContentCache, cacheStorage.clearContentCache,
    try_catch, bind, getItem, removeItem, native_read, native_write, gets, ret.
  cbn. rewrite Hg, Hs. cbn.
  case_bool_decide; [|done].
  rewrite Hr. cbn. rewrite Hg. done.
Qed.

Lemma getContentCache_expiry_witness :
  let r := cacheStorage.getContentCache Examples.cached in
  r.1 = Return [] ∧
  content_cache_item (storage r.2) = None ∧
  (cacheStorage.getContentCache r.2).1 = Return [].
Proof.
  exact (getContentCache_expiry Examples.cached
           {| contents := [Examples.item "P" "u2" 1 None];
              timestamp := 10; maxAge := 50 |}
           eq_refl eq_refl eq_refl).
Defined.

(** Read at [t = 100], the snapshot of [t = 10] that lives [50] ms is
    gone; the same snapshot with a life of [90] ms is returned. *)
Example cache_valid_at_the_limit :
  (cacheStorage.getContentCache
     (Examples.world
        (Examples.store None
           (Some {| contents := [Examples.item "P" "u2" 1 None];
                    timestamp := 10; maxAge := 90 |}) [])
        Examples.no_faults Examples.accepting true)).1 =
  Return [Examples.item "P" "u2" 1 None].
Proof. reflexivity. Qed.

(** ** The pending queue *)

(** C1, as the code has it. On a store that answers, [addPendingDeletion]
    puts the id among the pending deletions and leaves the pending
    uploads exactly as they were; the same holds for the manager's
    [deleteContent] run while offline. *)
Theorem addPendingDeletion_leaves_uploads (w : World) (contentId : string) :
  reliable w →
  let w1 := (syncStorage.addPendingDeletion contentId w).2 in
  let w2 := (SyncManager.deleteContent contentId (set_isOnline false w)).2 in
  (syncStorage.addPendingDeletion contentId w).1 = Return tt ∧
  contentId ∈ pending_deletions (stored_status (storage w1)) ∧
  pending_uploads (stored_status (storage w1)) =
    pending_uploads (stored_status (storage w)) ∧
  contentId ∈ pending_deletions (stored_status (storage w2)) ∧
  pending_uploads (stored_status (storage w2)) =
    pending_uploads (stored_status (storage w)).
Proof.
  intros H.
  assert (Hadd : ∀ w, reliable w →
    ∃ w', syncStorage.addPendingDeletion contentId w = (Return tt, w') ∧
      faults w' = faults w ∧ isOnline w' = isOnline w ∧
      contentId ∈ pending_deletions (stored_status (storage w')) ∧
      pending_uploads (stored_status (storage w')) =
        pending_uploads (stored_status (storage w))).
  { clear w H. intros w H. unfold syncStorage.addPendingDeletion.
    rewrite (bind_run _ _ _ _ _ (getSyncStatus_run w (H _))).
    case_bool_decide as Hin.
    - by exists w.
    - rewrite saveSyncStatus_run by apply H.
      eexists. split; [done|]. cbn. repeat split.
      apply elem_of_app. right. by left. }
  destruct (Hadd w H) as (w1 & Hrun & _ & _ & Hd & Hu).
  rewrite Hrun. cbn. do 3 (split; [done|]).
  destruct (Hadd (set_isOnline false w) H) as (w2 & Hrun2 & Hf2 & Ho2 & Hd2 & Hu2).
  unfold SyncManager.deleteContent.
  rewrite (bind_run _ _ _ _ _ Hrun2).
  assert (H2 : reliable w2) by (intros op; rewrite Hf2; apply H).
  rewrite (bind_run _ _ _ _ _ (updateSyncStatus_run w2 contentId failed H2)).
  rewrite (bind_run _ _ _ _ _ (removeLocalContent_run contentId _)).
  unfold bind, gets, ret. cbn. cbn in Ho2. rewrite Ho2. cbn.
  by split.
Qed.

Lemma addPendingDeletion_leaves_uploads_witness :
  let w := Examples.one_pending false in
  let w1 := (syncStorage.addPendingDeletion "A" w).2 in
  let w2 := (SyncManager.deleteContent "A" (set_isOnline false w)).2 in
  (syncStorage.addPendingDeletion "A" w).1 = Return tt ∧
  "A" ∈ pending_deletions (stored_status (storage w1)) ∧
  pending_uploads (stored_status (storage w1)) =
    pending_uploads (stored_status (storage w)) ∧
  "A" ∈ pending_deletions (stored_status (storage w2)) ∧
  pending_uploads (stored_status (storage w2)) =
    pending_uploads (stored_status (storage w)).
Proof.
  apply (addPendingDeletion_leaves_uploads (Examples.one_pending false) "A").
  intros op. reflexivity.
Defined.

(** C1, as stated, fails: [A] waits for its upload, and after
    [addPendingDeletion "A"] it is among the pending deletions and still
    among the pending uploads. *)
Lemma addPendingDeletion_keeps_pending_upload :
  let w := Examples.one_pending false in
  let w1 := (syncStorage.addPendingDeletion "A" w).2 in
  ¬ ("A" ∈ pending_deletions (stored_status (storage w1)) ∧
     "A" ∉ pending_uploads (stored_status (storage w1))).
Proof.
  intros w w1 [_ Hnot]. apply Hnot. vm_compute. left.
Qed.

(** ** Write failures *)

(** C7 does not hold for the sync-metadata record: when the write of
    [sync_status] is refused, [saveSyncStatus] logs the error and returns
    normally, and the store is left as it was, so the caller never learns
    that the record was not written. *)
Theorem saveSyncStatus_swallows_write_failure
    (w : World) (status : PartialSyncStatus) (e : string) :
  faults w (SetItem SYNC_STATUS) = Some e →
  (syncStorage.saveSyncStatus status w).1 = Return tt ∧
  storage (syncStorage.saveSyncStatus status w).2 = storage w.
Proof.
  intros Hs.
  unfold syncStorage.saveSyncStatus, try_catch, bind.
  destruct (syncStorage.getSyncStatus w) as [[current|e'] w1] eqn:Hget.
  - assert (Hw : storage w1 = storage w ∧ faults w1 = faults w).
    { revert Hget.
      unfold syncStorage.getSyncStatus, try_catch, bind, getItem, native_read,
        console_error, modify, ret.
      destruct (faults w (GetItem SYNC_STATUS)); intros [= _ <-]; done. }
    destruct Hw as [Hst Hf].
    unfold setItem, native_write. rewrite Hf, Hs. cbn. by rewrite Hst.
  - destruct (getSyncStatus_returns w) as [a Ha]. rewrite Hget in Ha. done.
Qed.

Lemma saveSyncStatus_swallows_write_failure_witness :
  (syncStorage.saveSyncStatus
     (all_fields (Examples.status ["A"] [])) Examples.read_only).1 = Return tt ∧
  storage (syncStorage.saveSyncStatus
     (all_fields (Examples.status ["A"] [])) Examples.read_only).2 =
  storage Examples.read_only.
Proof.
  apply (saveSyncStatus_swallows_write_failure Examples.read_only _ "disk full").
  reflexivity.
Defined.

(** The sibling write of a content item does rethrow. *)
Lemma saveContent_surfaces_write_failure (w : World) (c : ContentItem) (e : string) :
  faults w (SetItem (USER_CONTENT (id c))) = Some e →
  (contentStorage.saveContent c w).1 = Throw e.
Proof.
  intros Hs.
  unfold contentStorage.saveContent, try_catch, setItem, native_write.
  by rewrite Hs.
Qed.

(** ** Listing the available content *)

(** C5 does not hold for the user's own items: on a store that answers,
    a tombstone (an item whose [sync_status] is [failed]) that belongs to
    the signed-in user is part of what [getAllAvailableContent] returns,
    because the filter keeps an item as soon as its owner matches. *)
Theorem own_tombstone_is_listed (w : World) (k : string) (c : ContentItem) :
  reliable w →
  user_content_items (storage w) !! k = Some c →
  sync_status c = Some failed →
  auth_user (globalStore w) = Some (user_id c) →
  ∃ l, (SyncManager.getAllAvailableContent w).1 = Return l ∧ c ∈ l.
Proof.
  intros H Hk Hst Hu. unfold SyncManager.getAllAvailableContent.
  rewrite (bind_run _ _ _ _ _ (getAllContent_run w H)).
  unfold bind at 1, gets at 1.
  destruct (getContentCache_returns w) as [cached Hc].
  unfold bind, ret.
  destruct (cacheStorage.getContentCache w) as [o w1]. cbn in Hc. subst o.
  eexists. split; [done|].
  apply elem_of_app. left. apply list_elem_of_filter. split.
  - left. cbn. by rewrite Hu.
  - apply elem_of_all_content. by exists k.
Qed.

Lemma own_tombstone_is_listed_witness :
  let w := (SyncManager.deleteContent "B" Examples.owned_offline).2 in
  ∃ l, (SyncManager.getAllAvailableContent w).1 = Return l ∧
       Examples.item "B" "u1" 2 (Some failed) ∈ l.
Proof.
  apply (own_tombstone_is_listed
           (SyncManager.deleteContent "B" Examples.owned_offline).2 "B").
  - intros op. reflexivity.
  - vm_compute. reflexivity.
  - reflexivity.
  - reflexivity.
Defined.

(** ** The upload phase *)

(** C4, as the code has it. On a store that answers, the upload phase
    makes one [createARContent] call for each item that
    [getPendingSyncContent] yields, in that order, and no other call;
    these are the stored items whose [sync_status] is [pending], whatever
    the [pending_uploads] set holds, so an item marked [failed] is not
    among them. *)
Theorem upload_attempts_pending_items (w : World) :
  reliable w →
  contentStorage.getPendingSyncContent w =
    (Return (pending_items (storage w)), w) ∧
  calls (SyncManager.uploadPendingContent w).2 =
    calls w ++
    ((λ c, CreateARContent (SyncManager.upload_fields c)) <$>
       pending_items (storage w)) ∧
  ∀ c, c ∈ pending_items (storage w) ↔
       (∃ k, user_content_items (storage w) !! k = Some c) ∧
       sync_status c = Some pending.
Proof.
  intros H. split; [by apply getPendingSyncContent_run|].
  split; [|apply elem_of_pending_items].
  destruct (uploadPendingContent_spec w H) as (w' & Hrun & _ & _ & Hc & _).
  by rewrite Hrun.
Qed.

Lemma upload_attempts_pending_items_witness :
  let w := Examples.three_pending in
  contentStorage.getPendingSyncContent w =
    (Return (pending_items (storage w)), w) ∧
  calls (SyncManager.uploadPendingContent w).2 =
    calls w ++
    ((λ c, CreateARContent (SyncManager.upload_fields c)) <$>
       pending_items (storage w)) ∧
  ∀ c, c ∈ pending_items (storage w) ↔
       (∃ k, user_content_items (storage w) !! k = Some c) ∧
       sync_status c = Some pending.
Proof.
  apply (upload_attempts_pending_items Examples.three_pending).
  intros op. reflexivity.
Defined.

(** C4, as stated, fails. The first cycle fails to push [B] and marks it
    [failed]; [B] stays in [pending_uploads]. The next cycle, against a
    service that would now accept it, makes no [createARContent] call at
    all: its only call is the download of the user's content. *)
Lemma failed_upload_is_not_retried :
  let w1 := (SyncManager.syncContent Examples.three_pending).2 in
  let w2 :=
    (SyncManager.syncContent
       (Examples.world (storage w1) Examples.no_faults Examples.accepting true)).2 in
  "B" ∈ pending_uploads (stored_status (storage w1)) ∧
  user_content_items (storage w1) !! "B" =
    Some (Examples.item "B" "u1" 2 (Some failed)) ∧
  calls w2 = [GetUserARContent] ∧
  (∀ content, CreateARContent content ∉ calls w2) ∧
  "B" ∈ pending_uploads (stored_status (storage w2)).
Proof.
  vm_compute. repeat split; try left.
  intros content Hin. inversion Hin as [|? ? ? Hnil]. inversion Hnil.
Qed.

(** C6. On a store that answers and whose items sit under their own ids,
    the upload phase runs to its end over the items [pend] that
    [getPendingSyncContent] yields; every pending item whose push fails
    is stored as [failed], every other pending item as [synced]; the
    [uploaded] counter grows by the number of pushes that went through,
    the [failed] counter by the number of pushes that failed, and
    [errors] receives one line per failed push. The row stored for a
    pending item after the phase has [sync_status] equal to [failed] if
    its push failed and to [synced] otherwise, and every other field as
    before. *)
Theorem upload_failure_is_isolated (w : World) :
  reliable w →
  keys_match (storage w) = true →
  let sb := supabase w in
  let pend := pending_items (storage w) in
  let w' := (SyncManager.uploadPendingContent w).2 in
  contentStorage.getPendingSyncContent w = (Return pend, w) ∧
  (SyncManager.uploadPendingContent w).1 = Return tt ∧
  (∀ c, c ∈ pend →
     user_content_items (storage w') !! id c =
       Some (with_sync_status c (if push_fails sb c then failed else synced))) ∧
  (∀ c, c ∈ pend →
     ∃ stored,
       user_content_items (storage w') !! id c = Some stored ∧
       sync_status stored = Some (if push_fails sb c then failed else synced) ∧
       same_but_status c stored) ∧
  uploaded (result w') =
    uploaded (result w) +
    Z.of_nat (length (filter (λ c, push_fails sb c = false) pend)) ∧
  failed_count (result w') =
    failed_count (result w) +
    Z.of_nat (length (filter (λ c, push_fails sb c = true) pend)) ∧
  errors (result w') = errors (result w) ++ omap (upload_error_line sb) pend ∧
  length (omap (upload_error_line sb) pend) =
    length (filter (λ c, push_fails sb c = true) pend).
Proof.
  intros H Hm sb pend w'. split; [by apply getPendingSyncContent_run|].
  destruct (uploadPendingContent_spec w H)
    as (w1 & Hrun & _ & _ & _ & Hi & _ & Hr).
  subst w'. rewrite Hrun. cbn [fst snd].
  destruct (foldl_tally sb pend (result w)) as (Hu & Hf & He & _).
  assert (Hrows : ∀ c, c ∈ pend →
    user_content_items (storage w1) !! id c =
      Some (with_sync_status c (if push_fails sb c then failed else synced))).
  { rewrite Hi. apply (foldl_mark (status_after_push sb)).
    - by apply NoDup_pending_ids.
    - intros c Hc. by apply pending_items_lookup. }
  rewrite Hr. split; [done|]. split; [exact Hrows|].
  split; [|by auto using length_upload_error_lines].
  intros c Hc. eexists. split; [exact (Hrows c Hc)|].
  apply with_sync_status_fields.
Qed.

(** Three pending items of which [B] fails: two uploaded, one failed,
    one error line; [A] and [C] are stored as [synced], [B] as
    [failed]. *)
Lemma upload_failure_is_isolated_witness :
  let w := Examples.three_pending in
  let w' := (SyncManager.uploadPendingContent w).2 in
  (contentStorage.getPendingSyncContent w =
     (Return (pending_items (storage w)), w) ∧
   (SyncManager.uploadPendingContent w).1 = Return tt ∧
   (∀ c, c ∈ pending_items (storage w) →
      user_content_items (storage w') !! id c =
        Some (with_sync_status c
                (if push_fails (supabase w) c then failed else synced))) ∧
   (∀ c, c ∈ pending_items (storage w) →
      ∃ stored,
        user_content_items (storage w') !! id c = Some stored ∧
        sync_status stored =
          Some (if push_fails (supabase w) c then failed else synced) ∧
        same_but_status c stored) ∧
   uploaded (result w') =
     uploaded (result w) +
     Z.of_nat (length (filter (λ c, push_fails (supabase w) c = false)
                              (pending_items (storage w)))) ∧
   failed_count (result w') =
     failed_count (result w) +
     Z.of_nat (length (filter (λ c, push_fails (supabase w) c = true)
                              (pending_items (storage w)))) ∧
   errors (result w') =
     errors (result w) ++
     omap (upload_error_line (supabase w)) (pending_items (storage w)) ∧
   length (omap (upload_error_line (supabase w)) (pending_items (storage w))) =
     length (filter (λ c, push_fails (supabase w) c = true)
                    (pending_items (storage w)))) ∧
  uploaded (result w') = 2 ∧ failed_count (result w') = 1 ∧
  errors (result w') = ["Upload failed for Stone B: row violates policy"] ∧
  user_content_items (storage w') !! "A" =
    Some (Examples.item "A" "u1" 1 (Some synced)) ∧
  user_content_items (storage w') !! "B" =
    Some (Examples.item "B" "u1" 2 (Some failed)) ∧
  user_content_items (storage w') !! "C" =
    Some (Examples.item "C" "u1" 3 (Some synced)).
Proof.
  split.
  - apply (upload_failure_is_isolated Examples.three_pending).
    + intros op. reflexivity.
    + vm_compute. reflexivity.
  - vm_compute. done.
Defined.




(** ** The merge of downloaded content *)

(** C2. On a store that answers and whose items sit under their own ids,
    for downloaded items with distinct ids the merge runs to its end and
    decides each item on its own: where there is no local item with the
    id of the remote one, or the remote [updated_at] is strictly greater
    than the local one, the store holds the remote item marked [synced];
    where the local [updated_at] is greater or equal, the store holds the
    local item, unchanged. So, for a local item that differs from the
    remote one, the store ends with the remote item iff the remote
    [updated_at] is strictly greater. Items with other ids are not
    touched. The remote item that is stored has [sync_status] equal to
    [synced], whatever status it came with, and every other field as the
    remote service sent it. *)
Theorem mergeRemoteContent_last_writer_wins
    (w : World) (remoteContent : list ContentItem) :
  reliable w →
  keys_match (storage w) = true →
  NoDup (id <$> remoteContent) →
  let w' := (SyncManager.mergeRemoteContent remoteContent w).2 in
  (SyncManager.mergeRemoteContent remoteContent w).1 = Return tt ∧
  (∀ remote, remote ∈ remoteContent →
     user_content_items (storage w') !! id remote =
       match user_content_items (storage w) !! id remote with
       | None => Some (with_sync_status remote synced)
       | Some loc =>
           if bool_decide (updated_at remote > updated_at loc)
           then Some (with_sync_status remote synced)
           else Some loc
       end) ∧
  (∀ remote loc, remote ∈ remoteContent →
     user_content_items (storage w) !! id remote = Some loc →
     loc ≠ with_sync_status remote synced →
     (user_content_items (storage w') !! id remote =
        Some (with_sync_status remote synced) ↔
      updated_at remote > updated_at loc)) ∧
  (∀ k, k ∉ id <$> remoteContent →
     user_content_items (storage w') !! k =
     user_content_items (storage w) !! k) ∧
  (∀ remote, remote ∈ remoteContent →
     match user_content_items (storage w) !! id remote with
     | Some loc => updated_at remote > updated_at loc
     | None => True
     end →
     ∃ stored,
       user_content_items (storage w') !! id remote = Some stored ∧
       sync_status stored = Some synced ∧ same_but_status remote stored).
Proof.
  intros H Hm Hnd w'. subst w'. unfold SyncManager.mergeRemoteContent.
  rewrite (bind_run _ _ _ _ _ (getAllContent_run w H)).
  rewrite new_Map_all_content by done.
  destruct (merge_loop_spec (user_content_items (storage w)) remoteContent w H)
    as (w1 & Hrun & _ & Hi).
  rewrite Hrun. cbn [fst snd]. rewrite Hi. split; [done|].
  destruct (foldl_merge (user_content_items (storage w)) remoteContent
              (user_content_items (storage w)) Hnd) as [Ha Hb].
  assert (Hcase : ∀ remote, remote ∈ remoteContent →
    foldl (λ m r, if remote_wins (user_content_items (storage w)) r
                  then <[id r := with_sync_status r synced]> m else m)
          (user_content_items (storage w)) remoteContent !! id remote =
    match user_content_items (storage w) !! id remote with
    | None => Some (with_sync_status remote synced)
    | Some loc =>
        if bool_decide (updated_at remote > updated_at loc)
        then Some (with_sync_status remote synced)
        else Some loc
    end).
  { intros remote Hr. rewrite (Ha remote Hr). unfold remote_wins.
    destruct (user_content_items (storage w) !! id remote) as [loc|]; [|done].
    by case_bool_decide. }
  split; [exact Hcase|]. split; [|split; [exact Hb|]].
  - intros remote loc Hr Hloc Hne. rewrite (Hcase remote Hr), Hloc.
    case_bool_decide; split; try done.
    intros [= Heq]. by destruct Hne.
  - intros remote Hr Hnew. rewrite (Hcase remote Hr).
    exists (with_sync_status remote synced).
    split; [|apply with_sync_status_fields].
    destruct (user_content_items (storage w) !! id remote) as [loc|]; [|done].
    by rewrite bool_decide_true.
Qed.

(** The stored [X] has [updated_at = 5]: a remote [X] of time [10]
    replaces it, and a remote [Y] that is new is added; both come
    without a [sync_status] and are stored as [synced]. *)
Lemma mergeRemoteContent_last_writer_wins_witness :
  let w := Examples.holding_X in
  let remoteContent := [Examples.item "X" "u1" 10 None; Examples.item "Y" "u1" 3 None] in
  let w' := (SyncManager.mergeRemoteContent remoteContent w).2 in
  ((SyncManager.mergeRemoteContent remoteContent w).1 = Return tt ∧
  (∀ remote, remote ∈ remoteContent →
     user_content_items (storage w') !! id remote =
       match user_content_items (storage w) !! id remote with
       | None => Some (with_sync_status remote synced)
       | Some loc =>
           if bool_decide (updated_at remote > updated_at loc)
           then Some (with_sync_status remote synced)
           else Some loc
       end) ∧
  (∀ remote loc, remote ∈ remoteContent →
     user_content_items (storage w) !! id remote = Some loc →
     loc ≠ with_sync_status remote synced →
     (user_content_items (storage w') !! id remote =
        Some (with_sync_status remote synced) ↔
      updated_at remote > updated_at loc)) ∧
  (∀ k, k ∉ id <$> remoteContent →
     user_content_items (storage w') !! k =
     user_content_items (storage w) !! k) ∧
  (∀ remote, remote ∈ remoteContent →
     match user_content_items (storage w) !! id remote with
     | Some loc => updated_at remote > updated_at loc
     | None => True
     end →
     ∃ stored,
       user_content_items (storage w') !! id remote = Some stored ∧
       sync_status stored = Some synced ∧ same_but_status remote stored)) ∧
  user_content_items (storage w') !! "X" =
    Some (Examples.item "X" "u1" 10 (Some synced)) ∧
  user_content_items (storage w') !! "Y" =
    Some (Examples.item "Y" "u1" 3 (Some synced)).
Proof.
  split.
  - apply (mergeRemoteContent_last_writer_wins Examples.holding_X
             [Examples.item "X" "u1" 10 None; Examples.item "Y" "u1" 3 None]).
    + intros op. reflexivity.
    + vm_compute. reflexivity.
    + compute_done.
  - vm_compute. done.
Defined.

(** A tie keeps the local copy: a remote [X] with the stored time [5]
    and another owner does not replace the stored [X]. *)
Example merge_tie_keeps_local :
  let remote :=
    with_sync_status (Examples.item "X" "u9" 5 None) pending in
  user_content_items
    (storage (SyncManager.mergeRemoteContent [remote] Examples.holding_X).2)
    !! "X" = Some (Examples.item "X" "u1" 5 (Some synced)).
Proof. vm_compute. reflexivity. Qed.

(** ** The network listener *)

(** C9, as the code has it. When the read of [sync_status] answers,
    every event handled by the listener ends normally, with
    [state.isConnected ?? false] in the manager's [isOnline] and in
    [app.isOnline] of the global store, and with the stored [is_online]
    as it was: the listener does not write the durable record. On a
    transition from offline to online with a stored [is_online] that is
    true (as it is by default) it runs one [syncContent] in the updated
    state, and that is all it does besides; no error of that run reaches
    the caller. *)
Theorem networkListener_updates_flags (w : World) (isConnected : option bool) :
  faults w (GetItem SYNC_STATUS) = None →
  let b := default false isConnected in
  let w1 := (storeActions.setOnlineStatus b (set_isOnline b w)).2 in
  let r := SyncManager.networkListener isConnected w in
  r.1 = Return tt ∧
  isOnline r.2 = b ∧
  app_isOnline (globalStore r.2) = b ∧
  storage w1 = storage w ∧
  is_online (stored_status (storage r.2)) =
    is_online (stored_status (storage w)) ∧
  r.2 = if negb (isOnline w) && b && is_online (stored_status (storage w))
        then (SyncManager.syncContent w1).2
        else w1.
Proof.
  intros Hg b w1 r.
  assert (Hr : r = if negb (isOnline w) && b
                   then SyncManager.triggerAutoSync w1 else (Return tt, w1)).
  { subst r w1. unfold SyncManager.networkListener, bind, gets, modify,
      storeActions.setOnlineStatus. cbn. subst b.
    by match goal with |- context [if ?c then _ else _] => destruct c end. }
  rewrite Hr. clear r Hr.
  destruct (negb (isOnline w) && b); [|done].
  unfold SyncManager.triggerAutoSync.
  rewrite (bind_run _ _ _ _ _ (getSyncStatus_run w1 Hg)).
  change (storage w1) with (storage w).
  destruct (is_online (stored_status (storage w))) eqn:Hon;
    [|by repeat split].
  unfold try_catch, bind, ret.
  destruct (syncContent_returns w1) as [res Hres].
  destruct (syncContent_same_link w1) as [Ho Ha].
  destruct (syncContent_same_record w1) as [_ Hrec].
  specialize (Hrec Hg).
  destruct (SyncManager.syncContent w1) as [o w2]. cbn in Hres, Ho, Ha, Hrec.
  subst o. cbn. rewrite Ho, Ha, Hrec. by repeat split.
Qed.

Lemma networkListener_updates_flags_witness :
  let w := Examples.one_pending false in
  let w1 := (storeActions.setOnlineStatus true (set_isOnline true w)).2 in
  let r := SyncManager.networkListener (Some true) w in
  r.1 = Return tt ∧
  isOnline r.2 = true ∧
  app_isOnline (globalStore r.2) = true ∧
  storage w1 = storage w ∧
  is_online (stored_status (storage r.2)) =
    is_online (stored_status (storage w)) ∧
  r.2 = (SyncManager.syncContent w1).2.
Proof.
  exact (networkListener_updates_flags (Examples.one_pending false) (Some true)
           eq_refl).
Defined.

(** C9, as stated, fails. The stored [is_online] is true and the device
    drops offline: the listener clears the flag in memory, and the durable
    record still says online. *)
Lemma listener_does_not_persist_is_online :
  let w := Examples.one_pending true in
  let w' := (SyncManager.networkListener (Some false) w).2 in
  isOnline w' = false ∧
  app_isOnline (globalStore w') = false ∧
  sync_status_item (storage w') = sync_status_item (storage w) ∧
  ¬ is_online (stored_status (storage w')) = false.
Proof.
  vm_compute. done.
Qed.

(** * Further properties of the storage layer *)

(** ** The sync record *)

Lemma elem_of_snoc (l : list string) (c j : string) :
  j ∈ l ++ [c] ↔ j ∈ l ∨ j = c.
Proof. rewrite elem_of_app, list_elem_of_singleton. tauto. Qed.

Lemma NoDup_snoc_fresh (l : list string) (c : string) :
  NoDup l → c ∉ l → NoDup (l ++ [c]).
Proof.
  intros Hnd Hc. apply NoDup_app. split; [done|]. split.
  - intros x Hx ->%list_elem_of_singleton. done.
  - apply NoDup_singleton.
Qed.

(** X1. [getSyncStatus] never rejects and never writes: when the read
    fails it answers with the default record (no last sync, empty pending
    sets, online), otherwise with the stored record, or the default one if
    nothing is stored. *)
Theorem getSyncStatus_degrades_to_default (w : World) :
  let r := syncStorage.getSyncStatus w in
  r.1 = Return (match faults w (GetItem SYNC_STATUS) with
                | Some _ => default_status
                | None => match sync_status_item (storage w) with
                          | Some st => st
                          | None => default_status
                          end
                end) ∧
  storage r.2 = storage w ∧ faults r.2 = faults w.
Proof.
  unfold syncStorage.getSyncStatus, try_catch, bind, getItem, native_read,
    console_error, modify, ret.
  destruct (faults w (GetItem SYNC_STATUS)); cbn; [done|].
  by destruct (sync_status_item (storage w)).
Qed.

(** X2. When the sync record can be read and written, [updateLastSync]
    stores the current time as [last_sync] and keeps the pending sets and
    [is_online] of the stored record; content rows and cache are not
    touched. *)
Theorem updateLastSync_stamps_now (w : World) :
  faults w (GetItem SYNC_STATUS) = None →
  faults w (SetItem SYNC_STATUS) = None →
  let w' := (syncStorage.updateLastSync w).2 in
  (syncStorage.updateLastSync w).1 = Return tt ∧
  stored_status (storage w') =
    {| last_sync := Some (now w);
       pending_uploads := pending_uploads (stored_status (storage w));
       pending_deletions := pending_deletions (stored_status (storage w));
       is_online := is_online (stored_status (storage w)) |} ∧
  user_content_items (storage w') = user_content_items (storage w) ∧
  content_cache_item (storage w') = content_cache_item (storage w).
Proof.
  intros Hg Hs. unfold syncStorage.updateLastSync, bind, gets.
  by rewrite saveSyncStatus_run.
Qed.

Lemma updateLastSync_stamps_now_witness :
  let w := Examples.one_pending true in
  let w' := (syncStorage.updateLastSync w).2 in
  (syncStorage.updateLastSync w).1 = Return tt ∧
  stored_status (storage w') =
    {| last_sync := Some (now w);
       pending_uploads := pending_uploads (stored_status (storage w));
       pending_deletions := pending_deletions (stored_status (storage w));
       is_online := is_online (stored_status (storage w)) |} ∧
  user_content_items (storage w') = user_content_items (storage w) ∧
  content_cache_item (storage w') = content_cache_item (storage w).
Proof.
  exact (updateLastSync_stamps_now (Examples.one_pending true) eq_refl eq_refl).
Defined.

(** X3. When the sync record can be read and written, [addPendingUpload]
    leaves the id among the pending uploads, changes the membership of no
    other id, leaves the pending deletions as they are, lists no id twice
    if none was listed twice, and a second call with the same id changes
    nothing at all. *)
Theorem addPendingUpload_idempotent (w : World) (contentId : string) :
  faults w (GetItem SYNC_STATUS) = None →
  faults w (SetItem SYNC_STATUS) = None →
  let w1 := (syncStorage.addPendingUpload contentId w).2 in
  (syncStorage.addPendingUpload contentId w).1 = Return tt ∧
  contentId ∈ pending_uploads (stored_status (storage w1)) ∧
  (∀ j, j ≠ contentId →
     (j ∈ pending_uploads (stored_status (storage w1)) ↔
      j ∈ pending_uploads (stored_status (storage w)))) ∧
  pending_deletions (stored_status (storage w1)) =
    pending_deletions (stored_status (storage w)) ∧
  (NoDup (pending_uploads (stored_status (storage w))) →
   NoDup (pending_uploads (stored_status (storage w1)))) ∧
  syncStorage.addPendingUpload contentId w1 = (Return tt, w1).
Proof.
  intros Hg Hs. unfold syncStorage.addPendingUpload.
  rewrite (bind_run _ _ _ _ _ (getSyncStatus_run w Hg)).
  case_bool_decide as Hin.
  - cbn. rewrite (bind_run _ _ _ _ _ (getSyncStatus_run w Hg)).
    by rewrite bool_decide_true.
  - rewrite saveSyncStatus_run by done. cbn.
    split; [done|]. split; [apply elem_of_snoc; by right|].
    split; [intros j Hj; rewrite elem_of_snoc; tauto|].
    split; [done|]. split.
    + intros Hnd. by apply NoDup_snoc_fresh.
    + rewrite (bind_run _ _ _ _ (put_status _ w)
                 (getSyncStatus_run (put_status _ w) Hg)).
      cbn. rewrite bool_decide_true; [done|]. apply elem_of_snoc. by right.
Qed.

Lemma addPendingUpload_idempotent_witness :
  let w := Examples.one_pending true in
  let w1 := (syncStorage.addPendingUpload "Z" w).2 in
  (syncStorage.addPendingUpload "Z" w).1 = Return tt ∧
  "Z" ∈ pending_uploads (stored_status (storage w1)) ∧
  (∀ j, j ≠ "Z" →
     (j ∈ pending_uploads (stored_status (storage w1)) ↔
      j ∈ pending_uploads (stored_status (storage w)))) ∧
  pending_deletions (stored_status (storage w1)) =
    pending_deletions (stored_status (storage w)) ∧
  (NoDup (pending_uploads (stored_status (storage w))) →
   NoDup (pending_uploads (stored_status (storage w1)))) ∧
  syncStorage.addPendingUpload "Z" w1 = (Return tt, w1).
Proof.
  exact (addPendingUpload_idempotent (Examples.one_pending true) "Z"
           eq_refl eq_refl).
Defined.

(** X4. When the sync record can be read and written, a second
    [addPendingDeletion] with the same id changes nothing at all, and the
    first one changes the membership of no other id and lists no id twice
    if none was listed twice. *)
Theorem addPendingDeletion_idempotent (w : World) (contentId : string) :
  faults w (GetItem SYNC_STATUS) = None →
  faults w (SetItem SYNC_STATUS) = None →
  let w1 := (syncStorage.addPendingDeletion contentId w).2 in
  (∀ j, j ≠ contentId →
     (j ∈ pending_deletions (stored_status (storage w1)) ↔
      j ∈ pending_deletions (stored_status (storage w)))) ∧
  (NoDup (pending_deletions (stored_status (storage w))) →
   NoDup (pending_deletions (stored_status (storage w1)))) ∧
  syncStorage.addPendingDeletion contentId w1 = (Return tt, w1).
Proof.
  intros Hg Hs. unfold syncStorage.addPendingDeletion.
  rewrite (bind_run _ _ _ _ _ (getSyncStatus_run w Hg)).
  case_bool_decide as Hin.
  - cbn. rewrite (bind_run _ _ _ _ _ (getSyncStatus_run w Hg)).
    by rewrite bool_decide_true.
  - rewrite saveSyncStatus_run by done. cbn.
    split; [intros j Hj; rewrite elem_of_snoc; tauto|]. split.
    + intros Hnd. by apply NoDup_snoc_fresh.
    + rewrite (bind_run _ _ _ _ (put_status _ w)
                 (getSyncStatus_run (put_status _ w) Hg)).
      cbn. rewrite bool_decide_true; [done|]. apply elem_of_snoc. by right.
Qed.

Lemma addPendingDeletion_idempotent_witness :
  let w := Examples.one_pending true in
  let w1 := (syncStorage.addPendingDeletion "A" w).2 in
  (∀ j, j ≠ "A" →
     (j ∈ pending_deletions (stored_status (storage w1)) ↔
      j ∈ pending_deletions (stored_status (storage w)))) ∧
  (NoDup (pending_deletions (stored_status (storage w))) →
   NoDup (pending_deletions (stored_status (storage w1)))) ∧
  syncStorage.addPendingDeletion "A" w1 = (Return tt, w1).
Proof.
  exact (addPendingDeletion_idempotent (Examples.one_pending true) "A"
           eq_refl eq_refl).
Defined.

(** X5. When the sync record can be read and written, [removeFromPending]
    leaves the id in neither pending set, changes the membership of no
    other id in either set, and keeps [last_sync] and [is_online]. *)
Theorem removeFromPending_clears_both_sets (w : World) (contentId : string) :
  faults w (GetItem SYNC_STATUS) = None →
  faults w (SetItem SYNC_STATUS) = None →
  let st := stored_status (storage w) in
  let st' := stored_status (storage (syncStorage.removeFromPending contentId w).2) in
  (syncStorage.removeFromPending contentId w).1 = Return tt ∧
  (contentId ∉ pending_uploads st') ∧
  (contentId ∉ pending_deletions st') ∧
  (∀ j, j ≠ contentId →
     (j ∈ pending_uploads st' ↔ j ∈ pending_uploads st) ∧
     (j ∈ pending_deletions st' ↔ j ∈ pending_deletions st)) ∧
  last_sync st' = last_sync st ∧ is_online st' = is_online st.
Proof.
  intros Hg Hs st st'. subst st st'. unfold syncStorage.removeFromPending.
  rewrite (bind_run _ _ _ _ _ (getSyncStatus_run w Hg)).
  rewrite saveSyncStatus_run by done. cbn.
  split; [done|]. split; [|split; [|split; [|done]]].
  - rewrite list_elem_of_filter. tauto.
  - rewrite list_elem_of_filter. tauto.
  - intros j Hj. rewrite !list_elem_of_filter. tauto.
Qed.

Lemma removeFromPending_clears_both_sets_witness :
  let w := Examples.one_pending true in
  let st := stored_status (storage w) in
  let st' := stored_status (storage (syncStorage.removeFromPending "A" w).2) in
  (syncStorage.removeFromPending "A" w).1 = Return tt ∧
  ("A" ∉ pending_uploads st') ∧
  ("A" ∉ pending_deletions st') ∧
  (∀ j, j ≠ "A" →
     (j ∈ pending_uploads st' ↔ j ∈ pending_uploads st) ∧
     (j ∈ pending_deletions st' ↔ j ∈ pending_deletions st)) ∧
  last_sync st' = last_sync st ∧ is_online st' = is_online st.
Proof.
  exact (removeFromPending_clears_both_sets (Examples.one_pending true) "A"
           eq_refl eq_refl).
Defined.

(** ** The pending sets list no id twice *)
Section Queues.
Import syncStorage contentStorage cacheStorage.

#[local] Instance queues_kept_refl : Reflexive queues_kept.
Proof. intros w H. exact H. Qed.

#[local] Instance queues_kept_trans : Transitive queues_kept.
Proof. intros w1 w2 w3 H1 H2 H. by apply H2, H1. Qed.

Lemma queues_kept_same_status w w' :
  sync_status_item (storage w') = sync_status_item (storage w) →
  queues_kept w w'.
Proof. unfold queues_kept, queues_nodup, stored_status. by intros ->. Qed.

Lemma queues_nodup_default s :
  sync_status_item s = Some default_status → queues_nodup s.
Proof.
  unfold queues_nodup, stored_status. intros ->. cbn. split; apply NoDup_nil_2.
Qed.

(** Unfolds an operation of [syncStorage] down to the native calls. *)
Ltac open_sync :=
  unfold removeFromPending, addPendingUpload, addPendingDeletion,
    updateLastSync, saveSyncStatus, getSyncStatus, try_catch, bind, gets,
    getItem, setItem, native_read, native_write, console_error, modify, ret.

(** Closes a goal on the pending sets of a record just written. *)
Ltac queues w :=
  unfold queues_nodup, stored_status in *; cbn in *;
  destruct (sync_status_item (storage w)); cbn in *;
  repeat case_bool_decide; cbn in *;
  match goal with H : _ ∧ _ |- _ => destruct H end;
  try split;
  eauto using NoDup_filter, NoDup_nil_2, NoDup_singleton, NoDup_snoc_fresh.

Lemma getSyncStatus_queues_kept : keeps queues_kept getSyncStatus.
Proof. intros w. apply queues_kept_same_status. open_sync. by case_faults w. Qed.

Lemma updateLastSync_queues_kept : keeps queues_kept updateLastSync.
Proof. intros w Hq. open_sync. case_faults w; try done; queues w. Qed.

Lemma removeFromPending_queues_kept i : keeps queues_kept (removeFromPending i).
Proof. intros w Hq. open_sync. case_faults w; try done; queues w. Qed.

Lemma addPendingUpload_queues_kept i : keeps queues_kept (addPendingUpload i).
Proof.
  intros w Hq. open_sync. case_faults w; try done; repeat case_bool_decide;
    case_faults w; try done; queues w.
Qed.

Lemma addPendingDeletion_queues_kept i : keeps queues_kept (addPendingDeletion i).
Proof.
  intros w Hq. open_sync. case_faults w; try done; repeat case_bool_decide;
    case_faults w; try done; queues w.
Qed.

Lemma resetSyncState_queues_kept : keeps queues_kept SyncManager.resetSyncState.
Proof.
  intros w Hq. unfold SyncManager.resetSyncState. open_sync.
  case_faults w; try done; split; apply NoDup_nil_2.
Qed.

Lemma manager_keeps_queues :
  keeps queues_kept SyncManager.syncContent ∧
  (∀ e, keeps queues_kept (SyncManager.networkListener e)) ∧
  (∀ c, keeps queues_kept (SyncManager.createLocalContent c)) ∧
  (∀ i, keeps queues_kept (SyncManager.deleteContent i)).
Proof.
  pose proof getSyncStatus_queues_kept.
  pose proof updateLastSync_queues_kept.
  pose proof removeFromPending_queues_kept.
  pose proof addPendingUpload_queues_kept.
  pose proof addPendingDeletion_queues_kept.
  split; [|split; [|split]]; intros.
  - apply (keeps_syncContent queues_kept); try done;
      intros ? ?; by apply queues_kept_same_status.
  - apply (keeps_networkListener queues_kept); try done;
      intros ? ?; by apply queues_kept_same_status.
  - apply (keeps_createLocalContent queues_kept); try done;
      intros ? ?; by apply queues_kept_same_status.
  - apply (keeps_deleteContent queues_kept); try done;
      intros ? ?; by apply queues_kept_same_status.
Qed.

End Queues.

(** X6. Whatever the store and the remote service do, no operation on
    the pending sets and no entry point of the manager makes a pending
    set list an id twice: if neither set of the stored record has a
    duplicate before, neither has one after. *)
Theorem pending_sets_stay_duplicate_free (w : World) :
  queues_nodup (storage w) →
  (∀ i, queues_nodup (storage (syncStorage.addPendingUpload i w).2)) ∧
  (∀ i, queues_nodup (storage (syncStorage.addPendingDeletion i w).2)) ∧
  (∀ i, queues_nodup (storage (syncStorage.removeFromPending i w).2)) ∧
  queues_nodup (storage (syncStorage.updateLastSync w).2) ∧
  queues_nodup (storage (SyncManager.resetSyncState w).2) ∧
  queues_nodup (storage (SyncManager.syncContent w).2) ∧
  (∀ e, queues_nodup (storage (SyncManager.networkListener e w).2)) ∧
  (∀ c, queues_nodup (storage (SyncManager.createLocalContent c w).2)) ∧
  (∀ i, queues_nodup (storage (SyncManager.deleteContent i w).2)).
Proof.
  intros Hq. destruct manager_keeps_queues as (Hs & Hn & Hc & Hd).
  repeat split; intros.
  - by apply addPendingUpload_queues_kept.
  - by apply addPendingUpload_queues_kept.
  - by apply addPendingDeletion_queues_kept.
  - by apply addPendingDeletion_queues_kept.
  - by apply removeFromPending_queues_kept.
  - by apply removeFromPending_queues_kept.
  - by apply updateLastSync_queues_kept.
  - by apply updateLastSync_queues_kept.
  - by apply resetSyncState_queues_kept.
  - by apply resetSyncState_queues_kept.
  - by apply Hs.
  - by apply Hs.
  - by apply Hn.
  - by apply Hn.
  - by apply Hc.
  - by apply Hc.
  - by apply Hd.
  - by apply Hd.
Qed.

Lemma pending_sets_stay_duplicate_free_witness :
  let w := Examples.three_pending in
  (∀ i, queues_nodup (storage (syncStorage.addPendingUpload i w).2)) ∧
  (∀ i, queues_nodup (storage (syncStorage.addPendingDeletion i w).2)) ∧
  (∀ i, queues_nodup (storage (syncStorage.removeFromPending i w).2)) ∧
  queues_nodup (storage (syncStorage.updateLastSync w).2) ∧
  queues_nodup (storage (SyncManager.resetSyncState w).2) ∧
  queues_nodup (storage (SyncManager.syncContent w).2) ∧
  (∀ e, queues_nodup (storage (SyncManager.networkListener e w).2)) ∧
  (∀ c, queues_nodup (storage (SyncManager.createLocalContent c w).2)) ∧
  (∀ i, queues_nodup (storage (SyncManager.deleteContent i w).2)).
Proof.
  apply (pending_sets_stay_duplicate_free Examples.three_pending).
  split; compute_done.
Defined.

(** ** Content rows *)
Section Rows.
Import contentStorage.

#[local] Instance newest_first_trans : Transitive newest_first.
Proof. unfold newest_first. intros a b c ? ?. lia. Qed.

#[local] Instance newest_first_total : Total newest_first.
Proof. unfold newest_first. intros a b. lia. Qed.

Lemma all_content_sorted s : StronglySorted newest_first (all_content s).
Proof. apply StronglySorted_merge_sort; apply _. Qed.

Lemma length_all_content s :
  length (all_content s) = size (user_content_items s).
Proof.
  unfold all_content.
  by rewrite merge_sort_Permutation, length_fmap, length_map_to_list.
Qed.

(** A key that cannot be read makes the whole scan reject. *)
Lemma read_each_rejects w ks acc k :
  k ∈ ks → is_Some (faults w (GetItem (USER_CONTENT k))) →
  ∃ e, read_each (USER_CONTENT <$> ks) acc w = (Throw e, w).
Proof.
  intros Hk Hf. revert acc.
  induction ks as [|k' ks IH]; intros acc; [by apply elem_of_nil in Hk|].
  cbn. unfold bind, getItem, native_read.
  destruct (faults w (GetItem (USER_CONTENT k'))) as [e|] eqn:E; [by exists e|].
  apply elem_of_cons in Hk as [->|Hk].
  - rewrite E in Hf. by destruct Hf.
  - apply IH, Hk.
Qed.

End Rows.

(** X7. On a store that answers, [getAllContent] returns every stored
    row exactly once, newest first: whatever comes later in the array
    was not created after what comes earlier. It writes nothing. *)
Theorem getAllContent_newest_first (w : World) :
  reliable w →
  ∃ l, contentStorage.getAllContent w = (Return l, w) ∧
    (∀ c, c ∈ l ↔ ∃ k, user_content_items (storage w) !! k = Some c) ∧
    length l = size (user_content_items (storage w)) ∧
    (∀ l1 a l2 b, l = l1 ++ a :: l2 → b ∈ l2 → created_at b ≤ created_at a).
Proof.
  intros H. exists (all_content (storage w)).
  split; [by apply getAllContent_run|].
  split; [apply elem_of_all_content|].
  split; [apply length_all_content|].
  intros l1 a l2 b Hl Hb.
  pose proof (all_content_sorted (storage w)) as Hs. rewrite Hl in Hs.
  apply StronglySorted_app in Hs as (_ & _ & Hs).
  apply StronglySorted_cons in Hs as [Hall _].
  rewrite Forall_forall in Hall. by apply Hall.
Qed.

Lemma getAllContent_newest_first_witness :
  let w := Examples.three_pending in
  ∃ l, contentStorage.getAllContent w = (Return l, w) ∧
    (∀ c, c ∈ l ↔ ∃ k, user_content_items (storage w) !! k = Some c) ∧
    length l = size (user_content_items (storage w)) ∧
    (∀ l1 a l2 b, l = l1 ++ a :: l2 → b ∈ l2 → created_at b ≤ created_at a).
Proof.
  apply (getAllContent_newest_first Examples.three_pending).
  intros op. reflexivity.
Defined.

(** X8. [getAllContent] never rejects and never writes; as soon as the
    listing of the keys fails, or the read of one stored row fails, it
    answers with the empty array, whatever else is stored. *)
Theorem getAllContent_degrades_to_empty (w : World) :
  (∃ l, (contentStorage.getAllContent w).1 = Return l) ∧
  storage (contentStorage.getAllContent w).2 = storage w ∧
  (is_Some (faults w GetAllKeys) ∨
   (∃ k, is_Some (user_content_items (storage w) !! k) ∧
         is_Some (faults w (GetItem (USER_CONTENT k)))) →
   (contentStorage.getAllContent w).1 = Return []).
Proof.
  assert (Hscan : ∀ ks acc,
    ∃ o, contentStorage.read_each ks acc w = (o, w)).
  { induction ks as [|[| |k] ks IH]; intros acc; cbn; eauto.
    unfold bind, getItem, native_read.
    destruct (faults w (GetItem (USER_CONTENT k))); eauto. }
  unfold contentStorage.getAllContent, try_catch, bind, getAllKeys,
    native_read, console_error, modify, ret.
  destruct (faults w GetAllKeys) as [e|] eqn:Hk; cbn.
  { split; [eauto|]. split; done. }
  rewrite filter_content_keys.
  destruct (Hscan (USER_CONTENT <$> (map_to_list (user_content_items (storage w))).*1) [])
    as [o Ho].
  split; [|split].
  - rewrite Ho. destruct o; cbn; eauto.
  - rewrite Ho. by destruct o.
  - intros [[? [=]]|(k & [c Hc] & Hf)].
    destruct (read_each_rejects w
                (map_to_list (user_content_items (storage w))).*1 [] k)
      as [e He]; [|done|by rewrite He].
    apply list_elem_of_fmap. exists (k, c). split; [done|].
    by apply elem_of_map_to_list.
Qed.

(** X9. When the row of [i] can be read and there is none, or when its
    read fails, [updateSyncStatus] returns normally and leaves the store
    as it is: it never creates a row and does not report the miss. *)
Theorem updateSyncStatus_missing_is_silent
    (w : World) (i : string) (st : SyncState) :
  user_content_items (storage w) !! i = None ∨
  is_Some (faults w (GetItem (USER_CONTENT i))) →
  (contentStorage.updateSyncStatus i st w).1 = Return tt ∧
  storage (contentStorage.updateSyncStatus i st w).2 = storage w.
Proof.
  intros H.
  unfold contentStorage.updateSyncStatus, contentStorage.getContentById,
    try_catch, bind, getItem, native_read, console_error, modify, ret.
  destruct (faults w (GetItem (USER_CONTENT i))) as [e|] eqn:Hf; cbn; [done|].
  destruct H as [H|[? [=]]]. by rewrite H.
Qed.

Lemma updateSyncStatus_missing_is_silent_witness :
  (contentStorage.updateSyncStatus "nobody" failed Examples.three_pending).1 =
    Return tt ∧
  storage (contentStorage.updateSyncStatus "nobody" failed
             Examples.three_pending).2 =
  storage Examples.three_pending.
Proof.
  apply (updateSyncStatus_missing_is_silent Examples.three_pending).
  left. vm_compute. reflexivity.
Defined.

(** X10. On a store that answers, a row written by [saveContent] is the
    one [getContentById] reads back under its id and is part of what
    [getAllContent] returns; rows under other ids read as before; after
    [deleteContent] with that id the row reads as absent and the rows
    under other ids are still as they were. *)
Theorem saved_row_is_read_back (w : World) (c : ContentItem) :
  reliable w →
  let w1 := (contentStorage.saveContent c w).2 in
  let w2 := (contentStorage.deleteContent (id c) w1).2 in
  (contentStorage.saveContent c w).1 = Return tt ∧
  contentStorage.getContentById (id c) w1 = (Return (Some c), w1) ∧
  (∃ l, contentStorage.getAllContent w1 = (Return l, w1) ∧ c ∈ l) ∧
  (∀ j, j ≠ id c →
     (contentStorage.getContentById j w1).1 =
     (contentStorage.getContentById j w).1) ∧
  (contentStorage.deleteContent (id c) w1).1 = Return tt ∧
  contentStorage.getContentById (id c) w2 = (Return None, w2) ∧
  (∀ j, j ≠ id c →
     (contentStorage.getContentById j w2).1 =
     (contentStorage.getContentById j w).1).
Proof.
  intros H w1 w2.
  assert (Hw1 : w1 = put_content c w).
  { subst w1. by rewrite saveContent_run by apply H. }
  assert (H1 : reliable w1) by (rewrite Hw1; exact H).
  assert (Hdel : contentStorage.deleteContent (id c) w1 =
            (Return tt,
             set_storage (λ s, write_slot s (USER_CONTENT (id c)) None) w1)).
  { unfold contentStorage.deleteContent, try_catch, removeItem, native_write.
    by rewrite H1. }
  assert (H2 : reliable w2) by (subst w2; rewrite Hdel; exact H1).
  split; [by rewrite saveContent_run by apply H|].
  split.
  { rewrite getContentById_run by apply H1. rewrite Hw1. cbn.
    by rewrite lookup_insert_eq. }
  split.
  { exists (all_content (storage w1)). split; [by apply getAllContent_run|].
    apply elem_of_all_content. exists (id c). rewrite Hw1. cbn.
    apply lookup_insert_eq. }
  split.
  { intros j Hj. rewrite !getContentById_run by (apply H || apply H1).
    rewrite Hw1. cbn. by rewrite lookup_insert_ne. }
  split; [by rewrite Hdel|].
  split.
  { rewrite getContentById_run by apply H2. subst w2. rewrite Hdel. cbn.
    by rewrite lookup_delete_eq. }
  intros j Hj. rewrite !getContentById_run by (apply H || apply H2).
  subst w2. rewrite Hdel, Hw1. cbn.
  by rewrite lookup_delete_ne, lookup_insert_ne.
Qed.

Lemma saved_row_is_read_back_witness :
  let w := Examples.three_pending in
  let c := Examples.item "D" "u1" 4 (Some pending) in
  let w1 := (contentStorage.saveContent c w).2 in
  let w2 := (contentStorage.deleteContent (id c) w1).2 in
  (contentStorage.saveContent c w).1 = Return tt ∧
  contentStorage.getContentById (id c) w1 = (Return (Some c), w1) ∧
  (∃ l, contentStorage.getAllContent w1 = (Return l, w1) ∧ c ∈ l) ∧
  (∀ j, j ≠ id c →
     (contentStorage.getContentById j w1).1 =
     (contentStorage.getContentById j w).1) ∧
  (contentStorage.deleteContent (id c) w1).1 = Return tt ∧
  contentStorage.getContentById (id c) w2 = (Return None, w2) ∧
  (∀ j, j ≠ id c →
     (contentStorage.getContentById j w2).1 =
     (contentStorage.getContentById j w).1).
Proof.
  apply (saved_row_is_read_back Examples.three_pending
           (Examples.item "D" "u1" 4 (Some pending))).
  intros op. reflexivity.
Defined.

(** X11. [saveContent], [deleteContent] and [saveContentCache] reject
    exactly when their native write rejects, and then with the same
    message, with the store as it was and one line on the console;
    otherwise they return normally. *)
Theorem content_writes_rethrow
    (w : World) (c : ContentItem) (i : string) (l : list ContentItem) (m : Z) :
  match faults w (SetItem (USER_CONTENT (id c))) with
  | Some e =>
      contentStorage.saveContent c w =
        (Throw e, set_console (λ out, out ++ ["Failed to save content: " +:+ e]) w)
  | None => (contentStorage.saveContent c w).1 = Return tt
  end ∧
  match faults w (RemoveItem (USER_CONTENT i)) with
  | Some e =>
      contentStorage.deleteContent i w =
        (Throw e, set_console (λ out, out ++ ["Failed to delete content: " +:+ e]) w)
  | None => (contentStorage.deleteContent i w).1 = Return tt
  end ∧
  match faults w (SetItem CONTENT_CACHE) with
  | Some e =>
      cacheStorage.saveContentCache l m w =
        (Throw e,
         set_console (λ out, out ++ ["Failed to save content cache: " +:+ e]) w)
  | None => (cacheStorage.saveContentCache l m w).1 = Return tt
  end.
Proof.
  unfold contentStorage.saveContent, contentStorage.deleteContent,
    cacheStorage.saveContentCache, try_catch, bind, gets, setItem, removeItem,
    native_write, console_error, modify, throw.
  cbn. repeat split.
  - by destruct (faults w (SetItem (USER_CONTENT (id c)))).
  - by destruct (faults w (RemoveItem (USER_CONTENT i))).
  - by destruct (faults w (SetItem CONTENT_CACHE)).
Qed.

(** ** The cache of public content *)

(** X12. When the cache slot can be written, read and removed, what
    [saveContentCache] stores at one time is what [getContentCache]
    returns at any later time [t] that is at most [maxAge] after it, and
    the empty array at any time beyond; an earlier snapshot is replaced
    as a whole. *)
Theorem cache_is_read_back_until_it_expires
    (w : World) (l : list ContentItem) (m t : Z) :
  faults w (SetItem CONTENT_CACHE) = None →
  faults w (GetItem CONTENT_CACHE) = None →
  faults w (RemoveItem CONTENT_CACHE) = None →
  let w1 := (cacheStorage.saveContentCache l m w).2 in
  (cacheStorage.saveContentCache l m w).1 = Return tt ∧
  content_cache_item (storage w1) =
    Some {| contents := l; timestamp := now w; maxAge := m |} ∧
  (cacheStorage.getContentCache (set_now t w1)).1 =
    Return (if bool_decide (t - now w > m) then [] else l).
Proof.
  intros Hs Hg Hr.
  unfold cacheStorage.saveContentCache, cacheStorage.getContentCache,
    cacheStorage.clearContentCache, try_catch, bind, gets, getItem, setItem,
    removeItem, native_read, native_write, ret.
  cbn. rewrite Hs. cbn. rewrite Hg. cbn.
  case_bool_decide; [|done]. cbn. by rewrite Hr.
Qed.

Lemma cache_is_read_back_until_it_expires_witness :
  let w := Examples.cached in
  let l := [Examples.item "Q" "u3" 7 None] in
  let w1 := (cacheStorage.saveContentCache l 50 w).2 in
  (cacheStorage.saveContentCache l 50 w).1 = Return tt ∧
  content_cache_item (storage w1) =
    Some {| contents := l; timestamp := now w; maxAge := 50 |} ∧
  (cacheStorage.getContentCache (set_now 150 w1)).1 = Return l.
Proof.
  exact (cache_is_read_back_until_it_expires Examples.cached
           [Examples.item "Q" "u3" 7 None] 50 150 eq_refl eq_refl eq_refl).
Defined.

(** X13. The cache written by [mergePublicContent] lives
    [24 * 60 * 60 * 100 = 8640000] ms: when the cache slot can be
    written, read and removed, the public content stored by a download is
    returned up to 8640000 ms (2 h 24 min) after it and not later. *)
Theorem public_cache_lives_8640000_ms
    (w : World) (publicContent : list ContentItem) (t : Z) :
  faults w (SetItem CONTENT_CACHE) = None →
  faults w (GetItem CONTENT_CACHE) = None →
  faults w (RemoveItem CONTENT_CACHE) = None →
  let w1 := (SyncManager.mergePublicContent publicContent w).2 in
  (cacheStorage.getContentCache (set_now t w1)).1 =
    Return (if bool_decide (t - now w ≤ 8640000) then publicContent else []).
Proof.
  intros Hs Hg Hr w1.
  destruct (cache_is_read_back_until_it_expires w publicContent
              cacheStorage.default_maxAge t Hs Hg Hr) as (_ & _ & Hread).
  subst w1. unfold SyncManager.mergePublicContent. rewrite Hread.
  change cacheStorage.default_maxAge with 8640000.
  repeat case_bool_decide; (done || lia).
Qed.

Lemma public_cache_lives_8640000_ms_witness :
  let w := Examples.cached in
  let l := [Examples.item "Q" "u3" 7 None] in
  let w1 := (SyncManager.mergePublicContent l w).2 in
  (cacheStorage.getContentCache (set_now (100 + 8640001) w1)).1 = Return [].
Proof.
  exact (public_cache_lives_8640000_ms Examples.cached
           [Examples.item "Q" "u3" 7 None] (100 + 8640001)
           eq_refl eq_refl eq_refl).
Defined.

(** X14. When the cache slot can be read and removed, [isCacheValid]
    answers true exactly when a snapshot is stored, has not expired and
    holds at least one item: an empty snapshot is reported as invalid even
    when it was written a moment ago. *)
Theorem isCacheValid_needs_a_fresh_nonempty_snapshot (w : World) :
  faults w (GetItem CONTENT_CACHE) = None →
  faults w (RemoveItem CONTENT_CACHE) = None →
  (cacheStorage.isCacheValid w).1 =
    Return (match content_cache_item (storage w) with
            | None => false
            | Some snapshot =>
                bool_decide (now w - timestamp snapshot ≤ maxAge snapshot) &&
                bool_decide (contents snapshot ≠ [])
            end).
Proof.
  intros Hg Hr.
  unfold cacheStorage.isCacheValid, cacheStorage.getContentCache,
    cacheStorage.clearContentCache, try_catch, bind, gets, getItem,
    removeItem, native_read, native_write, ret.
  cbn. rewrite Hg. cbn.
  destruct (content_cache_item (storage w)) as [snapshot|]; [|done].
  cbn. case_bool_decide as Hexp.
  - rewrite Hr. cbn. by rewrite (bool_decide_false (_ ≤ _)) by lia.
  - cbn. rewrite (bool_decide_true (_ ≤ _)) by lia. cbn.
    by destruct (contents snapshot).
Qed.

Lemma isCacheValid_needs_a_fresh_nonempty_snapshot_witness :
  (cacheStorage.isCacheValid
     (cacheStorage.saveContentCache [] 50 Examples.cached).2).1 = Return false.
Proof.
  exact (isCacheValid_needs_a_fresh_nonempty_snapshot
           (cacheStorage.saveContentCache [] 50 Examples.cached).2
           eq_refl eq_refl).
Defined.

(** ** Cleaning up old rows *)
Section Cleanup.
Import contentStorage storageUtils.
Variable cutoffDate : Z.

#[local] Instance stale_dec c : Decision (stale cutoffDate c).
Proof. unfold stale. apply _. Defined.

Lemma cleanup_each_run l n w :
  reliable w →
  ∃ w', cleanup_each l cutoffDate n w =
          (Return (n + Z.of_nat (length (filter (stale cutoffDate) l))), w') ∧
    faults w' = faults w ∧ console w' = console w ∧
    sync_status_item (storage w') = sync_status_item (storage w) ∧
    content_cache_item (storage w') = content_cache_item (storage w) ∧
    user_content_items (storage w') =
      foldl (λ m c, if bool_decide (stale cutoffDate c)
                    then delete (id c) m else m)
            (user_content_items (storage w)) l.
Proof.
  revert n w. induction l as [|c l IH]; intros n w H.
  { exists w. cbn. unfold ret. repeat split. f_equal. f_equal. lia. }
  cbn [cleanup_each foldl].
  destruct (decide (stale cutoffDate c)) as [Hst|Hst].
  - rewrite filter_cons_True by done.
    rewrite (bool_decide_true (stale _ _)) by done.
    destruct Hst as [Hold Hsy].
    rewrite (bool_decide_true (_ < _)), (bool_decide_true (_ = _)) by done.
    cbn [andb].
    unfold bind at 1, deleteContent, try_catch, removeItem, native_write.
    rewrite H.
    destruct (IH (n + 1)
                (set_storage
                   (λ s, write_slot s (USER_CONTENT (id c)) None) w) H)
      as (w' & Hrun & Hrest).
    exists w'. rewrite Hrun. split; [|exact Hrest].
    f_equal. f_equal. rewrite length_cons. lia.
  - rewrite filter_cons_False by done.
    rewrite (bool_decide_false (stale _ _)) by done.
    assert (bool_decide (created_at c < cutoffDate) &&
            bool_decide (sync_status c = Some synced) = false) as ->.
    { apply andb_false_iff. unfold stale in Hst.
      destruct (decide (created_at c < cutoffDate)).
      - right. apply bool_decide_eq_false. tauto.
      - left. by apply bool_decide_eq_false. }
    apply IH, H.
Qed.

Lemma foldl_delete_stale l (m : gmap string ContentItem) :
  NoDup (id <$> l) →
  let m' := foldl (λ m c, if bool_decide (stale cutoffDate c)
                          then delete (id c) m else m) m l in
  (∀ c, c ∈ l → stale cutoffDate c → m' !! id c = None) ∧
  (∀ k, (∀ c, c ∈ l → stale cutoffDate c → id c ≠ k) → m' !! k = m !! k).
Proof.
  revert m. induction l as [|c l IH]; intros m Hnd; cbn.
  { split; [|done]. by intros c ?%elem_of_nil. }
  apply NoDup_cons in Hnd as [Hc Hnd].
  destruct (IH (if bool_decide (stale cutoffDate c)
                then delete (id c) m else m) Hnd) as [Ha Hb].
  split.
  - intros c' [->|Hc']%elem_of_cons Hst; [|by apply Ha].
    rewrite Hb.
    + rewrite bool_decide_true by done. apply lookup_delete_eq.
    + intros c' Hc' _ Heq. apply Hc. rewrite <- Heq.
      by apply list_elem_of_fmap_2.
  - intros k Hk. rewrite Hb.
    + case_bool_decide as Hst; [|done].
      rewrite lookup_delete_ne; [done|]. apply Hk; [by left|done].
    + intros c' Hc'. apply Hk. by right.
Qed.

End Cleanup.

(** X15. On a store that answers and whose items sit under their own ids,
    [cleanupOldContent] removes exactly the rows that are [synced] and
    were created before [now - maxAge], and returns their number; every
    row that is pending or failed, and every row created at or after the
    cutoff, is still there unchanged, and the sync record and the cache
    are not touched. *)
Theorem cleanupOldContent_removes_stale_synced_rows (w : World) (max_age : Z) :
  reliable w →
  keys_match (storage w) = true →
  let cutoffDate := now w - max_age in
  let r := storageUtils.cleanupOldContent max_age w in
  r.1 = Return (Z.of_nat (length (filter (stale cutoffDate)
                                         (all_content (storage w))))) ∧
  (∀ k, user_content_items (storage r.2) !! k =
        match user_content_items (storage w) !! k with
        | Some c => if bool_decide (stale cutoffDate c) then None else Some c
        | None => None
        end) ∧
  sync_status_item (storage r.2) = sync_status_item (storage w) ∧
  content_cache_item (storage r.2) = content_cache_item (storage w).
Proof.
  intros H Hm cutoffDate r. subst r.
  unfold storageUtils.cleanupOldContent, try_catch.
  rewrite (bind_run _ _ _ _ _ (getAllContent_run w H)).
  destruct (cleanup_each_run cutoffDate (all_content (storage w)) 0 w H)
    as (w' & Hrun & _ & _ & Hs & Hc & Hi).
  unfold bind, gets. fold cutoffDate. rewrite Hrun. cbn [fst snd].
  split; [done|]. split; [|done].
  destruct (foldl_delete_stale cutoffDate (all_content (storage w))
              (user_content_items (storage w))) as [Ha Hb].
  { by apply NoDup_all_content_ids. }
  intros k. rewrite Hi.
  destruct (user_content_items (storage w) !! k) as [c|] eqn:Hk.
  - pose proof (keys_match_lookup _ _ _ Hm Hk) as Hid.
    assert (Hin : c ∈ all_content (storage w)).
    { apply elem_of_all_content. by exists k. }
    case_bool_decide as Hst.
    + rewrite <- Hid. by apply Ha.
    + rewrite Hb; [done|]. intros c' [k' Hk']%elem_of_all_content Hst' Heq.
      pose proof (keys_match_lookup _ _ _ Hm Hk') as Hid'.
      assert (c' = c) as -> by congruence. done.
  - rewrite Hb; [done|]. intros c' [k' Hk']%elem_of_all_content _ Heq.
    pose proof (keys_match_lookup _ _ _ Hm Hk') as Hid'. congruence.
Qed.

Lemma cleanupOldContent_removes_stale_synced_rows_witness :
  let w := (SyncManager.uploadPendingContent Examples.three_pending).2 in
  let r := storageUtils.cleanupOldContent 98 w in
  r.1 = Return (Z.of_nat (length (filter (stale (now w - 98))
                                         (all_content (storage w))))) ∧
  (∀ k, user_content_items (storage r.2) !! k =
        match user_content_items (storage w) !! k with
        | Some c => if bool_decide (stale (now w - 98) c) then None else Some c
        | None => None
        end) ∧
  sync_status_item (storage r.2) = sync_status_item (storage w) ∧
  content_cache_item (storage r.2) = content_cache_item (storage w).
Proof.
  apply (cleanupOldContent_removes_stale_synced_rows
           (SyncManager.uploadPendingContent Examples.three_pending).2 98).
  - intros op. reflexivity.
  - vm_compute. reflexivity.
Defined.

(** After the upload of [A] and [C] (and the failure of [B]), a cleanup
    with the cutoff at [t = 2] removes the synced [A] of [t = 1] only. *)
Example cleanup_of_three :
  let w := (SyncManager.uploadPendingContent Examples.three_pending).2 in
  let r := storageUtils.cleanupOldContent 98 w in
  r.1 = Return 1 ∧
  dom (user_content_items (storage r.2)) = {["B"; "C"]}.
Proof. split; [vm_compute; reflexivity|compute_done]. Qed.

(** * Further properties of the manager *)

(** ** The download phase *)
Section Download.
Import syncStorage contentStorage cacheStorage.

Lemma merge_loop_run M rs w :
  reliable w →
  for_of rs (SyncManager.merge_one M) w =
    (Return tt,
     set_storage (λ s,
       {| sync_status_item := sync_status_item s;
          content_cache_item := content_cache_item s;
          user_content_items :=
            foldl (λ m r, if remote_wins M r
                          then <[id r := with_sync_status r synced]> m else m)
                  (user_content_items s) rs |}) w).
Proof.
  revert w. induction rs as [|r rs IH]; intros w H; [done|].
  cbn [for_of foldl]. unfold bind.
  assert (SyncManager.merge_one M r w =
            (Return tt, if remote_wins M r
                        then put_content (with_sync_status r synced) w else w))
    as ->.
  { unfold SyncManager.merge_one, remote_wins.
    destruct (M !! id r) as [loc|]; [case_bool_decide|].
    - by rewrite saveContent_run by apply H.
    - done.
    - by rewrite saveContent_run by apply H. }
  destruct (remote_wins M r); by rewrite IH.
Qed.

Lemma mergeRemoteContent_run rs w :
  reliable w →
  SyncManager.mergeRemoteContent rs w =
    (Return tt,
     set_storage (λ s,
       {| sync_status_item := sync_status_item s;
          content_cache_item := content_cache_item s;
          user_content_items :=
            foldl (λ m r,
                     if remote_wins
                          (SyncManager.new_Map ((λ c, (id c, c)) <$> all_content s)) r
                     then <[id r := with_sync_status r synced]> m else m)
                  (user_content_items s) rs |}) w).
Proof.
  intros H. unfold SyncManager.mergeRemoteContent.
  rewrite (bind_run _ _ _ _ _ (getAllContent_run w H)).
  by rewrite merge_loop_run.
Qed.

Lemma saveContentCache_run l m w :
  faults w (SetItem CONTENT_CACHE) = None →
  saveContentCache l m w =
    (Return tt,
     set_storage (λ s, write_slot s CONTENT_CACHE
       (Some {| contents := l; timestamp := now w; maxAge := m |})) w).
Proof.
  intros H. unfold saveContentCache, try_catch, bind, gets, setItem, native_write.
  cbn. by rewrite H.
Qed.

End Download.

(** X16. When the fetch of the user's content fails, by a rejected call
    or by an error in the answer, [downloadRemoteContent] returns
    normally after that single call: it pushes the one line
    [Download failed: <message>] onto the errors and changes nothing
    else; in particular the nearby public content is not asked for and
    the counter [downloaded] stays as it is. *)
Theorem download_failure_is_recorded (w : World) (e : string) :
  getUserARContent_reply (supabase w) = Rejects e ∨
  (∃ d, getUserARContent_reply (supabase w) = Resolves d (Some e)) →
  SyncManager.downloadRemoteContent w =
    (Return tt,
     set_result (λ r,
       {| success := success r; uploaded := uploaded r;
          downloaded := downloaded r; failed_count := failed_count r;
          errors := errors r ++ ["Download failed: " +:+ e] |})
       (set_calls (λ cs, cs ++ [GetUserARContent]) w)).
Proof.
  intros H.
  unfold SyncManager.downloadRemoteContent, try_catch, bind,
    arContentUtils.getUserARContent, arContentUtils.remote,
    SyncManager.errors_push, modify, throw.
  by destruct H as [->|[d ->]].
Qed.

Lemma download_failure_is_recorded_witness :
  let w :=
    Examples.world (storage Examples.three_pending) Examples.no_faults
      {| createARContent_reply := λ _, Resolves None None;
         getUserARContent_reply := Rejects "network down";
         getNearbyPublicARContent_reply := λ _ _, Resolves (Some []) None;
         deleteARContent_reply := λ _, Resolves None None |} true in
  SyncManager.downloadRemoteContent w =
    (Return tt,
     set_result (λ r,
       {| success := success r; uploaded := uploaded r;
          downloaded := downloaded r; failed_count := failed_count r;
          errors := errors r ++ ["Download failed: " +:+ "network down"] |})
       (set_calls (λ cs, cs ++ [GetUserARContent]) w)).
Proof.
  apply download_failure_is_recorded. left. reflexivity.
Defined.

(** X17. On a store that answers, when the fetch of the user's content
    answers with the rows [userContent] and no error, the download phase
    ends normally, the counter [downloaded] grows by the number of rows
    fetched, whether or not a row replaced a local one, and no error is
    recorded as long as the fetch of nearby content does not reject. The
    sync record is not touched. *)
Theorem download_counts_every_row
    (w : World) (userContent : list ContentItem) :
  reliable w →
  getUserARContent_reply (supabase w) = Resolves (Some userContent) None →
  let w' := (SyncManager.downloadRemoteContent w).2 in
  (SyncManager.downloadRemoteContent w).1 = Return tt ∧
  downloaded (result w') =
    downloaded (result w) + Z.of_nat (length userContent) ∧
  uploaded (result w') = uploaded (result w) ∧
  failed_count (result w') = failed_count (result w) ∧
  sync_status_item (storage w') = sync_status_item (storage w) ∧
  errors (result w') =
    errors (result w) ++
    match ar_currentLocation (globalStore w) with
    | Some loc =>
        match getNearbyPublicARContent_reply (supabase w)
                (latitude loc) (longitude loc) with
        | Rejects e => ["Download failed: " +:+ e]
        | Resolves _ _ => []
        end
    | None => []
    end.
Proof.
  intros H Hu.
  unfold SyncManager.downloadRemoteContent, try_catch, bind,
    arContentUtils.getUserARContent, arContentUtils.getNearbyPublicARContent,
    arContentUtils.remote, SyncManager.add_downloaded,
    SyncManager.errors_push, SyncManager.mergePublicContent,
    storeActions.updateLocalContent_with_array,
    storeActions.updateNearbyContent, modify, ret, gets, throw.
  rewrite Hu. cbn.
  rewrite mergeRemoteContent_run by exact H. cbn.
  destruct (ar_currentLocation (globalStore w)) as [loc|];
    [|cbn; by rewrite app_nil_r].
  destruct (getNearbyPublicARContent_reply (supabase w) (latitude loc)
              (longitude loc)) as [e|[l|] [e|]] eqn:E;
    match goal with
    | |- context [getNearbyPublicARContent_reply ?s ?a ?b] =>
        change (getNearbyPublicARContent_reply s a b)
          with (getNearbyPublicARContent_reply (supabase w) (latitude loc)
                  (longitude loc));
        rewrite E
    end;
    cbn; rewrite ?app_nil_r; try done.
  rewrite saveContentCache_run by exact (H _). cbn. by rewrite ?app_nil_r.
Qed.

Lemma download_counts_every_row_witness :
  let w :=
    Examples.world (storage Examples.holding_X) Examples.no_faults
      {| createARContent_reply := λ _, Resolves None None;
         getUserARContent_reply :=
           Resolves (Some [Examples.item "X" "u1" 3 None]) None;
         getNearbyPublicARContent_reply := λ _ _, Resolves (Some []) None;
         deleteARContent_reply := λ _, Resolves None None |} true in
  let w' := (SyncManager.downloadRemoteContent w).2 in
  ((SyncManager.downloadRemoteContent w).1 = Return tt ∧
   downloaded (result w') = downloaded (result w) + Z.of_nat 1 ∧
   uploaded (result w') = uploaded (result w) ∧
   failed_count (result w') = failed_count (result w) ∧
   sync_status_item (storage w') = sync_status_item (storage w) ∧
   errors (result w') = errors (result w) ++ []) ∧
  user_content_items (storage w') !! "X" =
    Some (Examples.item "X" "u1" 5 (Some synced)).
Proof.
  split; [|vm_compute; reflexivity].
  apply (download_counts_every_row
           (Examples.world (storage Examples.holding_X) Examples.no_faults
              {| createARContent_reply := λ _, Resolves None None;
                 getUserARContent_reply :=
                   Resolves (Some [Examples.item "X" "u1" 3 None]) None;
                 getNearbyPublicARContent_reply :=
                   λ _ _, Resolves (Some []) None;
                 deleteARContent_reply := λ _, Resolves None None |} true)
           [Examples.item "X" "u1" 3 None]).
  - intros op. reflexivity.
  - reflexivity.
Defined.

(** X18. On a store that answers, when the fetch of the user's content
    answers without an error: if no location is known, the nearby public
    content is not asked for and the cache stays as it is; if a location
    is known and the fetch of nearby content answers with rows and no
    error, these rows replace the cached snapshot as a whole, stamped
    with the current time and the default age, and become
    [ar.nearbyContent]; if that fetch answers with an error or without
    rows, or rejects, cache and [ar.nearbyContent] stay as they are. *)
Theorem nearby_content_replaces_the_cache
    (w : World) (userContent : option (list ContentItem)) :
  reliable w →
  getUserARContent_reply (supabase w) = Resolves userContent None →
  let w' := (SyncManager.downloadRemoteContent w).2 in
  let fetched :=
    match ar_currentLocation (globalStore w) with
    | Some loc =>
        match getNearbyPublicARContent_reply (supabase w)
                (latitude loc) (longitude loc) with
        | Resolves (Some nearbyContent) None => Some nearbyContent
        | _ => None
        end
    | None => None
    end in
  (SyncManager.downloadRemoteContent w).1 = Return tt ∧
  content_cache_item (storage w') =
    match fetched with
    | Some nearbyContent =>
        Some {| contents := nearbyContent; timestamp := now w;
                maxAge := 8640000 |}
    | None => content_cache_item (storage w)
    end ∧
  ar_nearbyContent (globalStore w') =
    match fetched with
    | Some nearbyContent => nearbyContent
    | None => ar_nearbyContent (globalStore w)
    end ∧
  calls w' =
    calls w ++ GetUserARContent ::
    match ar_currentLocation (globalStore w) with
    | Some loc => [GetNearbyPublicARContent (latitude loc) (longitude loc)]
    | None => []
    end.
Proof.
  intros H Hu.
  unfold SyncManager.downloadRemoteContent, try_catch, bind,
    arContentUtils.getUserARContent, arContentUtils.getNearbyPublicARContent,
    arContentUtils.remote, SyncManager.add_downloaded,
    SyncManager.errors_push, SyncManager.mergePublicContent,
    storeActions.updateLocalContent_with_array,
    storeActions.updateNearbyContent, modify, ret, gets, throw.
  rewrite Hu. cbn.
  destruct userContent as [rs|].
  - rewrite mergeRemoteContent_run by exact H. cbn.
    destruct (ar_currentLocation (globalStore w)) as [loc|]; [|done].
    destruct (getNearbyPublicARContent_reply (supabase w) (latitude loc)
                (longitude loc)) as [e|[l|] [e|]] eqn:E;
      match goal with
      | |- context [getNearbyPublicARContent_reply ?s ?a ?b] =>
          change (getNearbyPublicARContent_reply s a b)
            with (getNearbyPublicARContent_reply (supabase w) (latitude loc)
                    (longitude loc));
          rewrite E
      end;
      cbn; rewrite <- ?app_assoc; try done.
    rewrite saveContentCache_run by exact (H _). cbn.
    by rewrite <- ?app_assoc.
  - cbn.
    destruct (ar_currentLocation (globalStore w)) as [loc|]; [|done].
    destruct (getNearbyPublicARContent_reply (supabase w) (latitude loc)
                (longitude loc)) as [e|[l|] [e|]] eqn:E;
      match goal with
      | |- context [getNearbyPublicARContent_reply ?s ?a ?b] =>
          change (getNearbyPublicARContent_reply s a b)
            with (getNearbyPublicARContent_reply (supabase w) (latitude loc)
                    (longitude loc));
          rewrite E
      end;
      cbn; rewrite <- ?app_assoc; try done.
    rewrite saveContentCache_run by exact (H _). cbn.
    by rewrite <- ?app_assoc.
Qed.

Lemma nearby_content_replaces_the_cache_witness :
  let public := [Examples.item "P" "u2" 1 None] in
  let w :=
    {| storage := storage Examples.cached; faults := Examples.no_faults;
       supabase :=
         {| createARContent_reply := λ _, Resolves None None;
            getUserARContent_reply := Resolves None None;
            getNearbyPublicARContent_reply :=
              λ _ _, Resolves (Some [Examples.item "R" "u4" 9 None]) None;
            deleteARContent_reply := λ _, Resolves None None |};
       calls := []; isOnline := true; isSyncing := false;
       globalStore :=
         {| auth_user := Some "u1"; profile_syncStatus := idle;
            app_isOnline := true;
            ar_currentLocation := Some {| latitude := 45; longitude := 14 |};
            ar_nearbyContent := public;
            localContent_userContent := [] |};
       result := SyncManager.fresh_result; now := 100; random := "k3x9q";
       console := [] |} in
  let w' := (SyncManager.downloadRemoteContent w).2 in
  (SyncManager.downloadRemoteContent w).1 = Return tt ∧
  content_cache_item (storage w') =
    Some {| contents := [Examples.item "R" "u4" 9 None]; timestamp := 100;
            maxAge := 8640000 |} ∧
  ar_nearbyContent (globalStore w') = [Examples.item "R" "u4" 9 None] ∧
  calls w' = [GetUserARContent; GetNearbyPublicARContent 45 14].
Proof.
  intros public w.
  apply (nearby_content_replaces_the_cache w None).
  - intros op. reflexivity.
  - reflexivity.
Defined.

(** ** The cycle as a whole *)

(** X19. Whatever the store and the remote service do, a call of
    [syncContent] that finds no cycle running returns a result object
    and leaves no cycle running, so that a later call is not turned away
    for a cycle that has ended; in the result, [success] is true exactly
    when [errors] is empty; and when the call was made online, the sync
    status shown in the profile is not left at [syncing]: it is [idle]
    or [offline]. *)
Theorem syncContent_ends_the_cycle (w : World) :
  isSyncing w = false →
  let w' := (SyncManager.syncContent w).2 in
  ∃ r, (SyncManager.syncContent w).1 = Return r ∧
    isSyncing w' = false ∧
    (success r = true ↔ errors r = []) ∧
    (isOnline w = true →
     profile_syncStatus (globalStore w') = idle ∨
     profile_syncStatus (globalStore w') = offline).
Proof.
  intros Hs w'. subst w'.
  unfold SyncManager.syncContent, bind, gets, ret, modify,
    storeActions.setSyncStatus, try_finally.
  rewrite Hs. destruct (isOnline w) eqn:Ho; cbn [orb negb].
  2: { by exists SyncManager.rejected. }
  cbn.
  match goal with
  | |- context [try_catch ?body ?h ?w0] =>
      assert (∃ w2, try_catch body h w0 = (Return tt, w2) ∧
                (success (result w2) = true ↔ errors (result w2) = []))
        as (w2 & -> & Hiff)
  end.
  { unfold try_catch, bind, SyncManager.set_success, SyncManager.errors_push,
      modify.
    repeat match goal with
    | |- context [match ?c ?x with _ => _ end] =>
        lazymatch c with
        | SyncManager.uploadPendingContent => destruct (c x) as [[[]|?] ?]
        | SyncManager.downloadRemoteContent => destruct (c x) as [[[]|?] ?]
        | syncStorage.updateLastSync => destruct (c x) as [[[]|?] ?]
        | syncStorage.saveSyncStatus _ => destruct (c x) as [[[]|?] ?]
        end
    end;
      eexists; (split; [reflexivity|]); cbn.
    all: first
      [ rewrite bool_decide_eq_true; tauto
      | split; [done|intros Hnil; by apply app_eq_nil in Hnil as [_ ?]] ]. }
  cbn. eexists. split; [reflexivity|]. split; [done|]. split; [exact Hiff|].
  intros _.
  match goal with
  | |- context [if ?c then idle else offline] => destruct c
  end; [by left|by right].
Qed.

(** A cycle in which one upload is refused: it returns, with
    [success] false and the line of the refused upload in [errors]. *)
Lemma syncContent_ends_the_cycle_witness :
  let w := Examples.three_pending in
  let w' := (SyncManager.syncContent w).2 in
  (∃ r, (SyncManager.syncContent w).1 = Return r ∧
     isSyncing w' = false ∧
     (success r = true ↔ errors r = []) ∧
     (isOnline w = true →
      profile_syncStatus (globalStore w') = idle ∨
      profile_syncStatus (globalStore w') = offline)) ∧
  (SyncManager.syncContent w).1 =
    Return {| success := false; uploaded := 2; downloaded := 0;
              failed_count := 1;
              errors := ["Upload failed for Stone B: row violates policy"] |}.
Proof.
  split.
  - exact (syncContent_ends_the_cycle Examples.three_pending eq_refl).
  - vm_compute. reflexivity.
Defined.

(** *** What the two phases leave alone *)
Section Env.
Import syncStorage contentStorage cacheStorage.

#[local] Instance same_env_refl : Reflexive same_env.
Proof. by repeat split. Qed.

#[local] Instance same_env_trans : Transitive same_env.
Proof.
  intros w1 w2 w3 (H1 & H2 & H3 & H4) (H5 & H6 & H7 & H8).
  repeat split; congruence.
Qed.

Lemma removeFromPending_same_env i : keeps same_env (removeFromPending i).
Proof.
  intros w.
  unfold removeFromPending, saveSyncStatus, getSyncStatus, try_catch, bind,
    getItem, setItem, native_read, native_write, console_error, modify, ret.
  by case_faults w.
Qed.

Lemma uploadPendingContent_same_env :
  keeps same_env SyncManager.uploadPendingContent.
Proof.
  apply (keeps_uploadPendingContent same_env); try (by repeat split).
  apply removeFromPending_same_env.
Qed.

Lemma downloadRemoteContent_same_env :
  keeps same_env SyncManager.downloadRemoteContent.
Proof.
  apply (keeps_downloadRemoteContent same_env); by repeat split.
Qed.

Lemma foldl_without (fails : ContentItem → bool) l st :
  let st' := foldl (λ st c, if fails c then st else without (id c) st) st l in
  (∀ i, i ∈ pending_uploads st' ↔
        i ∈ pending_uploads st ∧ ∀ c, c ∈ l → fails c = false → id c ≠ i) ∧
  (∀ i, i ∈ pending_deletions st' ↔
        i ∈ pending_deletions st ∧ ∀ c, c ∈ l → fails c = false → id c ≠ i) ∧
  last_sync st' = last_sync st ∧ is_online st' = is_online st.
Proof.
  revert st. induction l as [|c l IH]; intros st; cbn.
  { split; [|split; [|done]]; intros i;
      (split; [|tauto]); intros ?; (split; [done|]);
      by intros c ?%elem_of_nil. }
  destruct (IH (if fails c then st else without (id c) st))
    as (Hu & Hd & Hl & Ho).
  assert (Hstep : ∀ (l0 : list string) (i : string),
    i ∈ (if fails c then l0 else filter (λ j, j ≠ id c) l0) ∧
      (∀ c', c' ∈ l → fails c' = false → id c' ≠ i) ↔
    i ∈ l0 ∧ (∀ c', c' ∈ c :: l → fails c' = false → id c' ≠ i)).
  { intros l0 i. destruct (fails c) eqn:Hc.
    - split; intros [? Hall]; (split; [done|]); intros c' Hc' ?.
      + apply elem_of_cons in Hc' as [->|?]; [congruence|by apply Hall].
      + apply Hall; [by right|done].
    - rewrite list_elem_of_filter. split.
      + intros [[Hne ?] Hall]. split; [done|]. intros c' Hc' ?.
        apply elem_of_cons in Hc' as [->|?]; [done|by apply Hall].
      + intros [? Hall]. split.
        * split; [|done]. intros ->. apply (Hall c); [by left|done|done].
        * intros c' Hc' ?. apply Hall; [by right|done]. }
  split; [|split].
  - intros i. rewrite Hu, <- Hstep. by destruct (fails c).
  - intros i. rewrite Hd, <- Hstep. by destruct (fails c).
  - rewrite Hl, Ho. by destruct (fails c).
Qed.

(** The calls of the download phase, which always ends normally. *)
Lemma downloadRemoteContent_calls w :
  reliable w →
  ∃ w', SyncManager.downloadRemoteContent w = (Return tt, w') ∧
    sync_status_item (storage w') = sync_status_item (storage w) ∧
    calls w' =
      calls w ++ GetUserARContent ::
      match getUserARContent_reply (supabase w),
            ar_currentLocation (globalStore w) with
      | Resolves _ None, Some loc =>
          [GetNearbyPublicARContent (latitude loc) (longitude loc)]
      | _, _ => []
      end.
Proof.
  intros H.
  unfold SyncManager.downloadRemoteContent, try_catch, bind,
    arContentUtils.getUserARContent, arContentUtils.getNearbyPublicARContent,
    arContentUtils.remote, SyncManager.add_downloaded,
    SyncManager.errors_push, SyncManager.mergePublicContent,
    storeActions.updateLocalContent_with_array,
    storeActions.updateNearbyContent, modify, ret, gets, throw.
  destruct (getUserARContent_reply (supabase w)) as [e|d [e|]]; cbn;
    [by eexists..|].
  destruct d as [rs|].
  - rewrite mergeRemoteContent_run by exact H. cbn.
    destruct (ar_currentLocation (globalStore w)) as [loc|];
      [|by eexists].
    match goal with
    | |- context [getNearbyPublicARContent_reply ?s ?a ?b] =>
        destruct (getNearbyPublicARContent_reply s a b) as [e|[l|] [e|]]
    end; cbn; try (eexists; split; [reflexivity|]; cbn;
                   by rewrite <- ?app_assoc).
    rewrite saveContentCache_run by exact (H _). cbn.
    eexists; split; [reflexivity|]. cbn. by rewrite <- ?app_assoc.
  - cbn. destruct (ar_currentLocation (globalStore w)) as [loc|];
      [|by eexists].
    match goal with
    | |- context [getNearbyPublicARContent_reply ?s ?a ?b] =>
        destruct (getNearbyPublicARContent_reply s a b) as [e|[l|] [e|]]
    end; cbn; try (eexists; split; [reflexivity|]; cbn;
                   by rewrite <- ?app_assoc).
    rewrite saveContentCache_run by exact (H _). cbn.
    eexists; split; [reflexivity|]. cbn. by rewrite <- ?app_assoc.
Qed.

End Env.

(** X20. On a store that answers, a cycle that is admitted stamps
    [last_sync] with the current time, whether or not its uploads and its
    download went through, and the calls it makes to the remote service
    are exactly these, in this order: one [createARContent] per pending
    item, one [getUserARContent], and one [getNearbyPublicARContent] if
    the user's content was fetched without error and a location is known.
    It never calls [deleteARContent]: the pending deletions are not sent
    by a cycle, and an id leaves the pending deletions only when an item
    with that id is pushed. *)
Theorem admitted_cycle_on_a_reliable_store (w : World) :
  reliable w →
  isSyncing w = false →
  isOnline w = true →
  let w' := (SyncManager.syncContent w).2 in
  last_sync (stored_status (storage w')) = Some (now w) ∧
  calls w' =
    calls w ++
    ((λ c, CreateARContent (SyncManager.upload_fields c)) <$>
       pending_items (storage w)) ++
    GetUserARContent ::
    match getUserARContent_reply (supabase w),
          ar_currentLocation (globalStore w) with
    | Resolves _ None, Some loc =>
        [GetNearbyPublicARContent (latitude loc) (longitude loc)]
    | _, _ => []
    end ∧
  (∀ i, DeleteARContent i ∈ calls w' → DeleteARContent i ∈ calls w) ∧
  (∀ i, i ∈ pending_deletions (stored_status (storage w')) ↔
        i ∈ pending_deletions (stored_status (storage w)) ∧
        ∀ c, c ∈ pending_items (storage w) →
             push_fails (supabase w) c = false → id c ≠ i).
Proof.
  intros H Hs Ho w'.
  assert (Hall :
    last_sync (stored_status (storage w')) = Some (now w) ∧
    calls w' =
      calls w ++
      ((λ c, CreateARContent (SyncManager.upload_fields c)) <$>
         pending_items (storage w)) ++
      GetUserARContent ::
      match getUserARContent_reply (supabase w),
            ar_currentLocation (globalStore w) with
      | Resolves _ None, Some loc =>
          [GetNearbyPublicARContent (latitude loc) (longitude loc)]
      | _, _ => []
      end ∧
    pending_deletions (stored_status (storage w')) =
      pending_deletions
        (foldl (λ st c, if push_fails (supabase w) c then st
                        else without (id c) st)
               (stored_status (storage w)) (pending_items (storage w)))).
  { subst w'.
    unfold SyncManager.syncContent, bind, gets, ret, modify,
      storeActions.setSyncStatus, try_finally, try_catch.
    rewrite Hs, Ho. cbn.
    match goal with
    | |- context [SyncManager.uploadPendingContent ?w0] =>
        destruct (uploadPendingContent_spec w0 H)
          as (w1 & Hrun1 & Hf1 & Hsb1 & Hc1 & _ & Hp1 & _);
        destruct (uploadPendingContent_same_env w0) as (_ & Hn1 & _ & Hl1);
        rewrite Hrun1 in Hn1, Hl1 |- *
    end.
    assert (H1 : reliable w1) by (intros op; rewrite Hf1; apply H).
    destruct (downloadRemoteContent_calls w1 H1) as (w2 & Hrun2 & Hst2 & Hc2).
    destruct (downloadRemoteContent_same_env w1) as (Hf2 & Hn2 & _ & _).
    rewrite Hrun2 in Hf2, Hn2 |- *. cbn [snd] in Hf2, Hn2.
    assert (H2 : reliable w2) by (intros op; rewrite Hf2; apply H1).
    unfold syncStorage.updateLastSync, bind, gets.
    rewrite saveSyncStatus_run by apply H2.
    cbn in *. rewrite Hn2, Hn1, Hc2, Hc1, Hsb1, Hl1.
    unfold stored_status in *. cbn in *. rewrite Hst2, Hp1.
    by rewrite <- app_assoc. }
  destruct Hall as (Hlast & Hcalls & Hdel).
  split; [done|]. split; [done|]. split.
  - intros i. rewrite Hcalls, !elem_of_app, elem_of_cons.
    intros [?|[Hin|[[=]|Hin]]]; [done|..].
    + apply list_elem_of_fmap in Hin as (c & [=] & _).
    + destruct (getUserARContent_reply (supabase w)) as [|? []];
        try (by apply elem_of_nil in Hin).
      destruct (ar_currentLocation (globalStore w));
        [|by apply elem_of_nil in Hin].
      by apply list_elem_of_singleton in Hin.
  - intros i. rewrite Hdel.
    apply (foldl_without (push_fails (supabase w))).
Qed.

Lemma admitted_cycle_on_a_reliable_store_witness :
  let w := Examples.three_pending in
  let w' := (SyncManager.syncContent w).2 in
  last_sync (stored_status (storage w')) = Some (now w) ∧
  calls w' =
    calls w ++
    ((λ c, CreateARContent (SyncManager.upload_fields c)) <$>
       pending_items (storage w)) ++
    GetUserARContent ::
    match getUserARContent_reply (supabase w),
          ar_currentLocation (globalStore w) with
    | Resolves _ None, Some loc =>
        [GetNearbyPublicARContent (latitude loc) (longitude loc)]
    | _, _ => []
    end ∧
  (∀ i, DeleteARContent i ∈ calls w' → DeleteARContent i ∈ calls w) ∧
  (∀ i, i ∈ pending_deletions (stored_status (storage w')) ↔
        i ∈ pending_deletions (stored_status (storage w)) ∧
        ∀ c, c ∈ pending_items (storage w) →
             push_fails (supabase w) c = false → id c ≠ i).
Proof.
  apply (admitted_cycle_on_a_reliable_store Examples.three_pending).
  - intros op. reflexivity.
  - reflexivity.
  - reflexivity.
Defined.

(** ** Creating and deleting content *)
Section Entry.
Import syncStorage contentStorage.

Lemma addPendingUpload_run w i :
  reliable w →
  addPendingUpload i w =
    (Return tt,
     if bool_decide (i ∈ pending_uploads (stored_status (storage w))) then w
     else put_status
            {| last_sync := last_sync (stored_status (storage w));
               pending_uploads :=
                 pending_uploads (stored_status (storage w)) ++ [i];
               pending_deletions :=
                 pending_deletions (stored_status (storage w));
               is_online := is_online (stored_status (storage w)) |} w).
Proof.
  intros H. unfold addPendingUpload.
  rewrite (bind_run _ _ _ _ _ (getSyncStatus_run w (H _))).
  case_bool_decide; [done|].
  rewrite saveSyncStatus_run by apply H. by rewrite spread_all_fields.
Qed.

Lemma addPendingDeletion_run w i :
  reliable w →
  addPendingDeletion i w =
    (Return tt,
     if bool_decide (i ∈ pending_deletions (stored_status (storage w))) then w
     else put_status
            {| last_sync := last_sync (stored_status (storage w));
               pending_uploads :=
                 pending_uploads (stored_status (storage w));
               pending_deletions :=
                 pending_deletions (stored_status (storage w)) ++ [i];
               is_online := is_online (stored_status (storage w)) |} w).
Proof.
  intros H. unfold addPendingDeletion.
  rewrite (bind_run _ _ _ _ _ (getSyncStatus_run w (H _))).
  case_bool_decide; [done|].
  rewrite saveSyncStatus_run by apply H. by rewrite spread_all_fields.
Qed.

Lemma createLocalContent_offline_run w content uid :
  reliable w →
  auth_user (globalStore w) = Some uid →
  isOnline w = false →
  let localContentId := "local_" +:+ pretty (now w) +:+ "_" +:+ random w in
  let newContent :=
    {| id := localContentId; user_id := uid;
       title := in_title content; description := in_description content;
       type := in_type content;
       position_lat := in_position_lat content;
       position_lng := in_position_lng content;
       position_alt := in_position_alt content;
       data := in_data content; is_public := in_is_public content;
       created_at := now w; updated_at := now w;
       sync_status := Some pending;
       local_id := Some localContentId |} in
  ∃ w1, addPendingUpload localContentId (put_content newContent w)
          = (Return tt, w1) ∧
    SyncManager.createLocalContent content w =
      (Return newContent,
       (storeActions.addLocalContent newContent w1).2).
Proof.
  intros H Hu Ho localContentId newContent.
  eexists. split;
    [exact (addPendingUpload_run (put_content newContent w) localContentId H)|].
  unfold SyncManager.createLocalContent.
  unfold bind at 1. unfold gets at 1. cbn beta iota. rewrite Hu.
  unfold bind at 1. unfold gets at 1. cbn beta iota.
  unfold bind at 1. unfold gets at 1. cbn beta iota zeta.
  fold localContentId. fold newContent.
  rewrite (bind_run _ _ _ _ _ (saveContent_run w newContent (H _))).
  rewrite (bind_run _ _ _ _ _
             (addPendingUpload_run (put_content newContent w) localContentId H)).
  unfold storeActions.addLocalContent, storeActions.set_userContent.
  unfold bind, modify, gets, ret.
  case_bool_decide; cbn; cbn in Ho; by rewrite Ho.
Qed.

End Entry.

(** X21. Without a signed-in user [createLocalContent] rejects with
    [User not authenticated] before it touches anything: no row is
    written, nothing is queued and no call is made. *)
Theorem createLocalContent_needs_a_user (w : World) (content : ARContentInput) :
  auth_user (globalStore w) = None →
  SyncManager.createLocalContent content w =
    (Throw "User not authenticated", w).
Proof.
  intros Hu. unfold SyncManager.createLocalContent, bind, gets, throw.
  cbn. by rewrite Hu.
Qed.

Lemma createLocalContent_needs_a_user_witness :
  let w :=
    set_globalStore (λ g,
      {| auth_user := None; profile_syncStatus := profile_syncStatus g;
         app_isOnline := app_isOnline g;
         ar_currentLocation := ar_currentLocation g;
         ar_nearbyContent := ar_nearbyContent g;
         localContent_userContent := localContent_userContent g |})
      Examples.blank_offline in
  SyncManager.createLocalContent Examples.new_marker w =
    (Throw "User not authenticated", w).
Proof.
  intros w. apply (createLocalContent_needs_a_user w Examples.new_marker).
  reflexivity.
Defined.

(** X22. On a store that answers, with a user signed in and the device
    offline, [createLocalContent] returns a new item that carries the
    fields it was given, the user's id, the current time as [created_at]
    and [updated_at], the status [pending], and the id
    [local_<now>_<random>] both as [id] and as [local_id]; the item is
    stored under that id, the id is among the pending uploads, the item
    is appended to the user content of the global store, and no call to
    the remote service is made. *)
Theorem createLocalContent_offline
    (w : World) (content : ARContentInput) (uid : string) :
  reliable w →
  auth_user (globalStore w) = Some uid →
  isOnline w = false →
  let localContentId := "local_" +:+ pretty (now w) +:+ "_" +:+ random w in
  let w' := (SyncManager.createLocalContent content w).2 in
  ∃ c, (SyncManager.createLocalContent content w).1 = Return c ∧
    id c = localContentId ∧ local_id c = Some localContentId ∧
    user_id c = uid ∧ sync_status c = Some pending ∧
    created_at c = now w ∧ updated_at c = now w ∧
    SyncManager.upload_fields c = content ∧
    user_content_items (storage w') !! localContentId = Some c ∧
    localContentId ∈ pending_uploads (stored_status (storage w')) ∧
    localContent_userContent (globalStore w') =
      localContent_userContent (globalStore w) ++ [c] ∧
    calls w' = calls w.
Proof.
  intros H Hu Ho localContentId w'. subst w'.
  destruct (createLocalContent_offline_run w content uid H Hu Ho)
    as (w1 & Hadd & ->).
  rewrite addPendingUpload_run in Hadd by exact H.
  injection Hadd as <-.
  eexists. split; [reflexivity|].
  repeat split; try done.
  - by destruct content.
  - case_bool_decide; cbn; apply lookup_insert_eq.
  - cbn. case_bool_decide as Hin; [exact Hin|].
    cbn. apply elem_of_snoc. by right.
  - by case_bool_decide.
  - by case_bool_decide.
Qed.

Lemma createLocalContent_offline_witness :
  let w := Examples.blank_offline in
  let w' := (SyncManager.createLocalContent Examples.new_marker w).2 in
  ∃ c, (SyncManager.createLocalContent Examples.new_marker w).1 = Return c ∧
    id c = "local_" +:+ pretty (now w) +:+ "_" +:+ random w ∧
    local_id c = Some ("local_" +:+ pretty (now w) +:+ "_" +:+ random w) ∧
    user_id c = "u1" ∧ sync_status c = Some pending ∧
    created_at c = now w ∧ updated_at c = now w ∧
    SyncManager.upload_fields c = Examples.new_marker ∧
    user_content_items (storage w')
      !! ("local_" +:+ pretty (now w) +:+ "_" +:+ random w) = Some c ∧
    "local_" +:+ pretty (now w) +:+ "_" +:+ random w
      ∈ pending_uploads (stored_status (storage w')) ∧
    localContent_userContent (globalStore w') =
      localContent_userContent (globalStore w) ++ [c] ∧
    calls w' = calls w.
Proof.
  apply (createLocalContent_offline Examples.blank_offline
           Examples.new_marker "u1").
  - intros op. reflexivity.
  - reflexivity.
  - reflexivity.
Defined.

(** X23. [SyncManager.deleteContent] on a store that answers: it
    returns; the stored row is not removed but kept, with [sync_status]
    equal to [failed] and every other field as before; the user content
    of the global store is as it was, the entry with that id included,
    since [removeLocalContent] finds no entry to remove; the remote
    service is asked to delete the row exactly when the device is online;
    and afterwards the id is among the pending deletions exactly when the
    device is offline or the remote call was rejected.  A call that
    resolves, with or without an error, takes the id out of both pending
    sets. *)
Theorem deleteContent_queues_or_deletes (w : World) (contentId : string) :
  reliable w →
  let w' := (SyncManager.deleteContent contentId w).2 in
  (SyncManager.deleteContent contentId w).1 = Return tt ∧
  (∀ c, user_content_items (storage w) !! contentId = Some c →
        id c = contentId →
        ∃ stored,
          user_content_items (storage w') !! contentId = Some stored ∧
          sync_status stored = Some failed ∧ same_but_status c stored) ∧
  localContent_userContent (globalStore w') =
    localContent_userContent (globalStore w) ∧
  calls w' =
    calls w ++ (if isOnline w then [DeleteARContent contentId] else []) ∧
  (contentId ∈ pending_deletions (stored_status (storage w')) ↔
   isOnline w = false ∨
   ∃ e, deleteARContent_reply (supabase w) contentId = Rejects e) ∧
  (isOnline w = true →
   (∃ d e, deleteARContent_reply (supabase w) contentId = Resolves d e) →
   contentId ∉ pending_uploads (stored_status (storage w'))).
Proof.
  intros H w'. subst w'.
  destruct (SyncManager.deleteContent contentId w) as [o wf] eqn:E.
  unfold SyncManager.deleteContent in E.
  rewrite (bind_run _ _ _ _ _ (addPendingDeletion_run w contentId H)) in E.
  set (w1 := if bool_decide _ then w else _) in E.
  assert (H1 : reliable w1) by (subst w1; by case_bool_decide).
  assert (Hin : contentId ∈ pending_deletions (stored_status (storage w1))).
  { subst w1. case_bool_decide as Hin; [exact Hin|].
    cbn. apply elem_of_snoc. by right. }
  assert (Hitems : user_content_items (storage w1) =
                   user_content_items (storage w))
    by (subst w1; by case_bool_decide).
  assert (Henv : calls w1 = calls w ∧ isOnline w1 = isOnline w ∧
                 supabase w1 = supabase w ∧ globalStore w1 = globalStore w)
    by (subst w1; by case_bool_decide).
  destruct Henv as (Hc & Ho & Hs & Hg).
  clearbody w1.
  rewrite (bind_run _ _ _ _ _ (updateSyncStatus_run w1 contentId failed H1))
    in E.
  rewrite (bind_run _ _ _ _ _ (removeLocalContent_run contentId _)) in E.
  unfold bind at 1 in E. unfold gets at 1 in E. cbn beta iota in E.
  set (w2 := set_storage _ _) in E.
  assert (H2 : reliable w2) by exact H1.
  change (isOnline w2) with (isOnline w1) in E. rewrite Ho in E.
  assert (Hrow : ∀ c, user_content_items (storage w) !! contentId = Some c →
                      id c = contentId →
                      ∃ stored,
                        user_content_items (storage w2) !! contentId =
                          Some stored ∧
                        sync_status stored = Some failed ∧
                        same_but_status c stored).
  { intros c Hc' Hid. exists (with_sync_status c failed).
    split; [|apply with_sync_status_fields].
    subst w2. cbn. rewrite Hitems. unfold mark.
    rewrite Hc', Hid. apply lookup_insert_eq. }
  assert (Hstore : localContent_userContent (globalStore w2) =
                   localContent_userContent (globalStore w))
    by (subst w2; cbn; by rewrite Hg).
  assert (Hin2 : contentId ∈ pending_deletions (stored_status (storage w2)))
    by exact Hin.
  assert (Hc2 : calls w2 = calls w) by exact Hc.
  assert (Hs2 : supabase w2 = supabase w) by exact Hs.
  clearbody w2.
  destruct (isOnline w) eqn:Hon.
  - unfold try_catch, bind, arContentUtils.deleteARContent,
      arContentUtils.remote in E.
    cbn in E. rewrite Hs2 in E.
    destruct (deleteARContent_reply (supabase w) contentId) as [e|d e] eqn:Hr.
    + injection E as <- <-. cbn. rewrite Hc2.
      repeat split; try done.
      * intros _. right. by exists e.
      * intros _ (? & ? & ?). done.
    + rewrite removeFromPending_run in E by exact H2.
      injection E as <- <-. cbn. rewrite Hc2.
      repeat split; try done.
      * rewrite list_elem_of_filter. intros [? _]. done.
      * intros [?|[? ?]]; done.
      * intros _ _. rewrite list_elem_of_filter. intros [? _]. done.
  - unfold ret in E. injection E as <- <-. cbn. rewrite Hc2.
    repeat split; try done.
    + by rewrite app_nil_r.
    + intros _. by left.
Qed.

(** [A] is stored as synced and shown in the global store; it is deleted
    online and the remote call resolves: the row is still stored, as
    [failed], the global store still shows [A], and no deletion is
    pending. *)
Lemma deleteContent_queues_or_deletes_witness :
  let w := Examples.listed true in
  let w' := (SyncManager.deleteContent "A" w).2 in
  ((SyncManager.deleteContent "A" w).1 = Return tt ∧
   (∀ c, user_content_items (storage w) !! "A" = Some c →
         id c = "A" →
         ∃ stored,
           user_content_items (storage w') !! "A" = Some stored ∧
           sync_status stored = Some failed ∧ same_but_status c stored) ∧
   localContent_userContent (globalStore w') =
     localContent_userContent (globalStore w) ∧
   calls w' =
     calls w ++ (if isOnline w then [DeleteARContent "A"] else []) ∧
   ("A" ∈ pending_deletions (stored_status (storage w')) ↔
    isOnline w = false ∨
    ∃ e, deleteARContent_reply (supabase w) "A" = Rejects e) ∧
   (isOnline w = true →
    (∃ d e, deleteARContent_reply (supabase w) "A" = Resolves d e) →
    "A" ∉ pending_uploads (stored_status (storage w')))) ∧
  user_content_items (storage w) !! "A" =
    Some (Examples.item "A" "u1" 1 (Some synced)) ∧
  user_content_items (storage w') !! "A" =
    Some (Examples.item "A" "u1" 1 (Some failed)) ∧
  localContent_userContent (globalStore w') =
    [Examples.item "A" "u1" 1 (Some synced);
     Examples.item "D" "u1" 4 (Some synced)] ∧
  calls w' = [DeleteARContent "A"] ∧
  pending_deletions (stored_status (storage w')) = [].
Proof.
  split.
  - apply (deleteContent_queues_or_deletes (Examples.listed true) "A").
    intros op. reflexivity.
  - vm_compute. done.
Defined.

(** The same deletion made offline: no call, and the id waits among the
    pending deletions. *)
Example deleteContent_offline_queues :
  let w' := (SyncManager.deleteContent "A" (Examples.listed false)).2 in
  user_content_items (storage w') !! "A" =
    Some (Examples.item "A" "u1" 1 (Some failed)) ∧
  localContent_userContent (globalStore w') =
    [Examples.item "A" "u1" 1 (Some synced);
     Examples.item "D" "u1" 4 (Some synced)] ∧
  calls w' = [] ∧
  pending_deletions (stored_status (storage w')) = ["A"].
Proof. vm_compute. done. Qed.

(** ** What the manager never does to the rows *)
Section Kept.
Import syncStorage contentStorage cacheStorage.

#[local] Instance rows_kept_refl : Reflexive rows_kept.
Proof. intros w. unfold rows_kept. done. Qed.

#[local] Instance rows_kept_trans : Transitive rows_kept.
Proof. intros w1 w2 w3 H1 H2. unfold rows_kept in *. by etrans. Qed.

Lemma rows_kept_same_items w w' :
  user_content_items (storage w') = user_content_items (storage w) →
  rows_kept w w'.
Proof. unfold rows_kept. by intros ->. Qed.

Lemma put_content_rows_kept c w : rows_kept w (put_content c w).
Proof.
  unfold rows_kept. cbn. rewrite dom_insert_L.
  apply union_subseteq_r.
Qed.

Lemma saveSyncStatus_rows_kept status : keeps rows_kept (saveSyncStatus status).
Proof.
  intros w. apply rows_kept_same_items.
  unfold saveSyncStatus, getSyncStatus, try_catch, bind, getItem, setItem,
    native_read, native_write, console_error, modify, ret.
  by case_faults w.
Qed.

Lemma getSyncStatus_rows_kept : keeps rows_kept getSyncStatus.
Proof.
  intros w. apply rows_kept_same_items.
  unfold getSyncStatus, try_catch, bind, getItem, native_read, console_error,
    modify, ret.
  by case_faults w.
Qed.

Lemma manager_keeps_rows :
  keeps rows_kept SyncManager.syncContent ∧
  (∀ e, keeps rows_kept (SyncManager.networkListener e)) ∧
  (∀ c, keeps rows_kept (SyncManager.createLocalContent c)) ∧
  (∀ i, keeps rows_kept (SyncManager.deleteContent i)).
Proof.
  pose proof saveSyncStatus_rows_kept as Hsave.
  pose proof getSyncStatus_rows_kept as Hget.
  pose proof put_content_rows_kept as Hput.
  assert (Hlast : keeps rows_kept updateLastSync).
  { intros w. unfold updateLastSync, bind, gets. apply Hsave. }
  assert (Hrm : ∀ i, keeps rows_kept (removeFromPending i)).
  { intros i. unfold removeFromPending.
    apply (keeps_bind rows_kept); [done|]. intros st. apply Hsave. }
  assert (Hup : ∀ i, keeps rows_kept (addPendingUpload i)).
  { intros i. unfold addPendingUpload.
    apply (keeps_bind rows_kept); [done|]. intros st.
    case_bool_decide; [apply (keeps_ret rows_kept)|apply Hsave]. }
  assert (Hdel : ∀ i, keeps rows_kept (addPendingDeletion i)).
  { intros i. unfold addPendingDeletion.
    apply (keeps_bind rows_kept); [done|]. intros st.
    case_bool_decide; [apply (keeps_ret rows_kept)|apply Hsave]. }
  assert (Hcache : ∀ v w,
    rows_kept w (set_storage (λ s, write_slot s CONTENT_CACHE (Some v)) w)).
  { intros v w. by apply rows_kept_same_items. }
  split; [|split; [|split]]; intros.
  - apply (keeps_syncContent rows_kept); try done;
      intros ? ?; by apply rows_kept_same_items.
  - apply (keeps_networkListener rows_kept); try done;
      intros ? ?; by apply rows_kept_same_items.
  - apply (keeps_createLocalContent rows_kept); try done;
      intros ? ?; by apply rows_kept_same_items.
  - apply (keeps_deleteContent rows_kept); try done;
      intros ? ?; by apply rows_kept_same_items.
Qed.

End Kept.

(** X24. Whatever the store and the remote service do, no entry point of
    the manager removes a stored row: every key that holds an item before
    a cycle, a change of reachability, a creation or a deletion through
    the manager still holds one after it.  In particular
    [SyncManager.deleteContent] and the handling of the pending deletions
    leave the row of a deleted item in the store. *)
Theorem manager_never_removes_a_row (w : World) (k : string) :
  is_Some (user_content_items (storage w) !! k) →
  is_Some (user_content_items (storage (SyncManager.syncContent w).2) !! k) ∧
  (∀ e, is_Some (user_content_items
                   (storage (SyncManager.networkListener e w).2) !! k)) ∧
  (∀ c, is_Some (user_content_items
                   (storage (SyncManager.createLocalContent c w).2) !! k)) ∧
  (∀ i, is_Some (user_content_items
                   (storage (SyncManager.deleteContent i w).2) !! k)).
Proof.
  intros Hk. apply elem_of_dom in Hk.
  destruct manager_keeps_rows as (Hs & Hn & Hc & Hd).
  repeat split; intros; apply elem_of_dom.
  - by apply (Hs w).
  - by apply (Hn e w).
  - by apply (Hc c w).
  - by apply (Hd i w).
Qed.

Lemma manager_never_removes_a_row_witness :
  let w := Examples.three_pending in
  is_Some (user_content_items (storage (SyncManager.syncContent w).2) !! "A") ∧
  (∀ e, is_Some (user_content_items
                   (storage (SyncManager.networkListener e w).2) !! "A")) ∧
  (∀ c, is_Some (user_content_items
                   (storage (SyncManager.createLocalContent c w).2) !! "A")) ∧
  (∀ i, is_Some (user_content_items
                   (storage (SyncManager.deleteContent i w).2) !! "A")).
Proof.
  apply (manager_never_removes_a_row Examples.three_pending "A").
  by eexists.
Defined.

(** X25. The manager keeps every row under the key made from the id of
    the item it holds: if that is so before a cycle, a change of
    reachability, a creation or a deletion through the manager, it is so
    after it, whatever the store and the remote service do. *)
Theorem manager_keeps_rows_under_their_ids (w : World) :
  keys_match (storage w) = true →
  keys_match (storage (SyncManager.syncContent w).2) = true ∧
  (∀ e, keys_match (storage (SyncManager.networkListener e w).2) = true) ∧
  (∀ c, keys_match (storage (SyncManager.createLocalContent c w).2) = true) ∧
  (∀ i, keys_match (storage (SyncManager.deleteContent i w).2) = true).
Proof.
  intros Hk. destruct manager_keeps_keys as (Hs & Hn & Hc & Hd).
  repeat split; intros.
  - by apply (Hs w).
  - by apply (Hn e w).
  - by apply (Hc c w).
  - by apply (Hd i w).
Qed.

Lemma manager_keeps_rows_under_their_ids_witness :
  let w := Examples.three_pending in
  keys_match (storage (SyncManager.syncContent w).2) = true ∧
  (∀ e, keys_match (storage (SyncManager.networkListener e w).2) = true) ∧
  (∀ c, keys_match (storage (SyncManager.createLocalContent c w).2) = true) ∧
  (∀ i, keys_match (storage (SyncManager.deleteContent i w).2) = true).
Proof.
  apply (manager_keeps_rows_under_their_ids Examples.three_pending).
  reflexivity.
Defined.

(** ** Resetting the sync record *)

(** X26. On a store that answers, [resetSyncState] returns and replaces
    the sync record by one with no [last_sync], empty pending sets and the
    manager's current reachability as [is_online]; the rows and the cache
    stay as they are.  This is where the stored [is_online] comes from:
    after a reset made while offline the record says offline, and the
    next change to online only updates the flags, without starting a
    cycle. *)
Theorem resetSyncState_stores_reachability (w : World) :
  reliable w →
  let w1 := (SyncManager.resetSyncState w).2 in
  (SyncManager.resetSyncState w).1 = Return tt ∧
  sync_status_item (storage w1) =
    Some {| last_sync := None; pending_uploads := [];
            pending_deletions := []; is_online := isOnline w |} ∧
  user_content_items (storage w1) = user_content_items (storage w) ∧
  content_cache_item (storage w1) = content_cache_item (storage w) ∧
  (isOnline w = false →
   SyncManager.networkListener (Some true) w1 =
     (Return tt, (storeActions.setOnlineStatus true (set_isOnline true w1)).2)).
Proof.
  intros H w1.
  assert (Hrun : SyncManager.resetSyncState w =
    (Return tt,
     put_status {| last_sync := None; pending_uploads := [];
                   pending_deletions := []; is_online := isOnline w |} w)).
  { unfold SyncManager.resetSyncState, bind, gets.
    by rewrite saveSyncStatus_run by apply H. }
  subst w1. rewrite Hrun. repeat split.
  intros Ho.
  unfold SyncManager.networkListener, bind, gets, modify,
    storeActions.setOnlineStatus.
  cbn. cbn in Ho. rewrite Ho. cbn.
  unfold SyncManager.triggerAutoSync.
  match goal with
  | |- bind syncStorage.getSyncStatus _ ?w0 = _ =>
      rewrite (bind_run _ _ _ _ _ (getSyncStatus_run w0 (H _)))
  end.
  done.
Qed.

Lemma resetSyncState_stores_reachability_witness :
  let w := Examples.blank_offline in
  let w1 := (SyncManager.resetSyncState w).2 in
  (SyncManager.resetSyncState w).1 = Return tt ∧
  sync_status_item (storage w1) =
    Some {| last_sync := None; pending_uploads := [];
            pending_deletions := []; is_online := isOnline w |} ∧
  user_content_items (storage w1) = user_content_items (storage w) ∧
  content_cache_item (storage w1) = content_cache_item (storage w) ∧
  (isOnline w = false →
   SyncManager.networkListener (Some true) w1 =
     (Return tt, (storeActions.setOnlineStatus true (set_isOnline true w1)).2)).
Proof.
  apply (resetSyncState_stores_reachability Examples.blank_offline).
  intros op. reflexivity.
Defined.

(** ** Listing the available content *)

(** X27. On a store that answers, [getAllAvailableContent] returns the
    stored rows, newest first, without those that are [failed] and do not
    belong to the signed-in user, followed by the content of the cache
    snapshot if there is one that has not expired.  Nothing is removed
    from the second part: a row that is also in the snapshot is listed
    twice.  With nobody signed in, no row of the first part is
    [failed]. *)
Theorem getAllAvailableContent_lists_rows_then_cache (w : World) :
  reliable w →
  let mine c := Some (user_id c) = auth_user (globalStore w) in
  let rows :=
    filter (λ c, mine c ∨ sync_status c ≠ Some failed)
           (all_content (storage w)) in
  let cachedPublic :=
    match content_cache_item (storage w) with
    | Some cacheData =>
        if bool_decide (now w - timestamp cacheData > maxAge cacheData)
        then [] else contents cacheData
    | None => []
    end in
  (SyncManager.getAllAvailableContent w).1 = Return (rows ++ cachedPublic) ∧
  (auth_user (globalStore w) = None →
   ∀ c, c ∈ rows → sync_status c ≠ Some failed).
Proof.
  intros H mine rows cachedPublic. split.
  - unfold SyncManager.getAllAvailableContent.
    rewrite (bind_run _ _ _ _ _ (getAllContent_run w H)).
    unfold bind at 1, gets at 1.
    assert (Hc : ∃ w1, cacheStorage.getContentCache w =
                       (Return cachedPublic, w1)).
    { subst cachedPublic.
      unfold cacheStorage.getContentCache, cacheStorage.clearContentCache,
        try_catch, bind, getItem, removeItem, native_read, native_write,
        gets, ret.
      rewrite !H. cbn.
      destruct (content_cache_item (storage w)) as [cacheData|];
        [|by eexists].
      case_bool_decide; [|by eexists].
      cbn. rewrite !H. by eexists. }
    destruct Hc as [w1 Hc].
    by rewrite (bind_run _ _ _ _ _ Hc).
  - intros Hu c Hc. subst rows. apply list_elem_of_filter in Hc as [[Hm|Hf] _].
    + subst mine. cbn in Hm. by rewrite Hu in Hm.
    + done.
Qed.

(** Four rows and a snapshot that has not expired, with [u1] signed in:
    the failed row [B] of another user is left out, the failed row [C]
    of [u1] is listed, and [A], which is stored and cached, is listed
    twice. *)
Lemma getAllAvailableContent_lists_rows_then_cache_witness :
  let w := Examples.shelf in
  (let mine c := Some (user_id c) = auth_user (globalStore w) in
   let rows :=
     filter (λ c, mine c ∨ sync_status c ≠ Some failed)
            (all_content (storage w)) in
   let cachedPublic :=
     match content_cache_item (storage w) with
     | Some cacheData =>
         if bool_decide (now w - timestamp cacheData > maxAge cacheData)
         then [] else contents cacheData
     | None => []
     end in
   (SyncManager.getAllAvailableContent w).1 = Return (rows ++ cachedPublic) ∧
   (auth_user (globalStore w) = None →
    ∀ c, c ∈ rows → sync_status c ≠ Some failed)) ∧
  (SyncManager.getAllAvailableContent w).1 =
    Return [Examples.item "E" "u2" 5 (Some pending);
            Examples.item "C" "u1" 3 (Some failed);
            Examples.item "A" "u1" 1 (Some synced);
            Examples.item "P" "u2" 1 None;
            Examples.item "A" "u1" 1 (Some synced)].
Proof.
  split.
  - apply (getAllAvailableContent_lists_rows_then_cache Examples.shelf).
    intros op. reflexivity.
  - vm_compute. reflexivity.
Defined.

(** The same store with nobody signed in: neither failed row is
    listed. *)
Example getAllAvailableContent_signed_out :
  let w :=
    set_globalStore (λ g,
      {| auth_user := None; profile_syncStatus := profile_syncStatus g;
         app_isOnline := app_isOnline g;
         ar_currentLocation := ar_currentLocation g;
         ar_nearbyContent := ar_nearbyContent g;
         localContent_userContent := localContent_userContent g |})
      Examples.shelf in
  (SyncManager.getAllAvailableContent w).1 =
    Return [Examples.item "E" "u2" 5 (Some pending);
            Examples.item "A" "u1" 1 (Some synced);
            Examples.item "P" "u2" 1 None;
            Examples.item "A" "u1" 1 (Some synced)].
Proof. vm_compute. reflexivity. Qed.

(** ** The pending sets after the upload phase *)

(** X28. On a store that answers, the upload phase takes out of both
    pending sets exactly the ids of the pending items whose push went
    through, and nothing else: an id is pending after the phase if and
    only if it was pending before and no pending item with that id was
    pushed successfully.  A push that failed takes no id out.
    [last_sync] and the stored [is_online] are as before. *)
Theorem upload_settles_the_pushed_ids (w : World) :
  reliable w →
  let pushed c :=
    c ∈ pending_items (storage w) ∧ push_fails (supabase w) c = false in
  let st := stored_status (storage w) in
  let st' := stored_status (storage (SyncManager.uploadPendingContent w).2) in
  (∀ i, i ∈ pending_uploads st' ↔
        (i ∈ pending_uploads st ∧ ∀ c, pushed c → id c ≠ i)) ∧
  (∀ i, i ∈ pending_deletions st' ↔
        (i ∈ pending_deletions st ∧ ∀ c, pushed c → id c ≠ i)) ∧
  last_sync st' = last_sync st ∧ is_online st' = is_online st.
Proof.
  intros H pushed st st'.
  destruct (uploadPendingContent_spec w H)
    as (w1 & Hrun & _ & _ & _ & _ & Hst & _).
  subst st' st. rewrite Hrun. cbn [snd]. rewrite Hst.
  destruct (foldl_without (push_fails (supabase w))
              (pending_items (storage w)) (stored_status (storage w)))
    as (Hu & Hd & Hl & Ho).
  split; [|split; [|done]]; intros i.
  - rewrite (Hu i). subst pushed. cbn. split.
    + intros [? Hn]. split; [done|]. intros c [? ?]. by apply Hn.
    + intros [? Hn]. split; [done|]. intros c ? ?. by apply Hn.
  - rewrite (Hd i). subst pushed. cbn. split.
    + intros [? Hn]. split; [done|]. intros c [? ?]. by apply Hn.
    + intros [? Hn]. split; [done|]. intros c ? ?. by apply Hn.
Qed.

Lemma upload_settles_the_pushed_ids_witness :
  let w := Examples.three_pending in
  let pushed c :=
    c ∈ pending_items (storage w) ∧ push_fails (supabase w) c = false in
  let st := stored_status (storage w) in
  let st' := stored_status (storage (SyncManager.uploadPendingContent w).2) in
  (∀ i, i ∈ pending_uploads st' ↔
        (i ∈ pending_uploads st ∧ ∀ c, pushed c → id c ≠ i)) ∧
  (∀ i, i ∈ pending_deletions st' ↔
        (i ∈ pending_deletions st ∧ ∀ c, pushed c → id c ≠ i)) ∧
  last_sync st' = last_sync st ∧ is_online st' = is_online st.
Proof.
  apply (upload_settles_the_pushed_ids Examples.three_pending).
  intros op. reflexivity.
Defined.

(** The three pending items [A], [B], [C] of which the push of [B] is
    refused: [B] alone is still a pending upload. *)
Example upload_of_three_leaves_B :
  pending_uploads (stored_status (storage Examples.three_pending)) =
    ["A"; "B"; "C"] ∧
  pending_uploads
    (stored_status
       (storage (SyncManager.uploadPendingContent Examples.three_pending).2)) =
    ["B"].
Proof. vm_compute. done. Qed.

(** ** The manual trigger *)

(** X29. [manualSync] rejects in one situation only: when the manager is
    offline it throws [Cannot sync while offline] and changes nothing.
    When the manager is online it returns whatever [syncContent] returns
    and never rejects, whatever the store and the remote service do; a
    cycle that is already running gives the rejected result, not an
    error. *)
Theorem manualSync_rejects_only_offline (w : World) :
  (isOnline w = false ∧
   SyncManager.manualSync w = (Throw "Cannot sync while offline", w)) ∨
  (isOnline w = true ∧
   SyncManager.manualSync w = SyncManager.syncContent w ∧
   (∃ r, (SyncManager.manualSync w).1 = Return r) ∧
   (isSyncing w = true →
    SyncManager.manualSync w = (Return SyncManager.rejected, w))).
Proof.
  assert (Hrun : SyncManager.manualSync w =
    if isOnline w then SyncManager.syncContent w
    else (Throw "Cannot sync while offline", w)).
  { unfold SyncManager.manualSync, bind, gets, throw. cbn beta iota.
    by repeat match goal with
              | |- context [if ?c then _ else _] => destruct c eqn:?
              end. }
  rewrite Hrun.
  destruct (isOnline w) eqn:Ho; [right|left; done].
  repeat split.
  - apply syncContent_returns.
  - intros Hb. unfold SyncManager.syncContent, bind, gets, ret.
    cbn. cbn in Hb. by rewrite Hb.
Qed.

(** ** The user content of the global store *)


(** [A] and [D] are shown in the global store; after
    [removeLocalContent] with the id of [A] both still are. *)
Example removeLocalContent_keeps_A :
  localContent_userContent
    (globalStore
       (storeActions.removeLocalContent "A" (Examples.listed true)).2) =
    [Examples.item "A" "u1" 1 (Some synced);
     Examples.item "D" "u1" 4 (Some synced)].
Proof. vm_compute. reflexivity. Qed.
